(** * Twitter-Liked-Images-Downloader: a shallow embedding and its properties

    The Python program keeps, for every Twitter user, a rotating log of the
    tweet IDs it has processed ([known_tweets_handler.py]), a small JSON
    record of counters ([persistent_data.py]) and a sync loop that pages
    through the user's liked tweets ([download_liked_tweets.py],
    [twitter_api_bot.py]).  This file embeds those modules as Rocq
    functions over an explicit program state and proves properties of them.

    Modelling conventions.
    - Python [str] and [bytes] are both modelled as sequences of one-byte
      characters: [string] for [str], [list ascii] for [bytes]; encoding and
      decoding are the identity (the text the program stores is ASCII).
    - Python [int] is [Z].
    - A Python exception is a value of [exn]; a function that can raise
      returns a [res].  State changes made before an exception is raised
      persist, as they do in Python.
    - Module-level globals of each Python module are fields of the [world]
      record; the file system is part of the world.
    - The interpreter's recursion limit is not modelled: recursive functions
      of the program recurse as deep as they need to. *)

From Stdlib Require Import ZArith String Ascii List Bool Lia.
From stdpp Require Import base gmap strings list pretty.

Set Warnings "-register-all".
Open Scope string_scope.
Open Scope list_scope.
Open Scope Z_scope.

(** ** Python values and exceptions *)

Inductive exn : Type :=
| KeyError
| IndexError
| ValueError
| TypeError
| RuntimeError
| FileNotFoundError
| FileExistsError
| IsADirectoryError
| AttributeError
| RequestCountError
| UnsuccessfulRequestError
(** not a Python exception: a loop of the model ran out of fuel *)
| OutOfFuel.

Inductive res (A : Type) : Type :=
| Ok (a : A)
| Raise (e : exn).
Arguments Ok {A} a.
Arguments Raise {A} e.

(** The JSON-like values a [DataWrapper] holds.  A [dict] keeps its keys in
    insertion order, which is the order [json.dump] writes them in. *)
Inductive json : Type :=
| JNone
| JInt (z : Z)
| JStr (s : string)
| JList (l : list json)
| JDict (d : list (string * json)).

(** What a dictionary of the program is keyed by: a user ID string, or, in
    [download_liked_tweets.main], the builtin function object [id]. *)
Inductive pyid : Type :=
| Id (s : string)
| BuiltinId.

Global Instance pyid_eq_dec : EqDecision pyid.
Proof. solve_decision. Defined.

Global Instance pyid_countable : Countable pyid.
Proof.
  refine (inj_countable' (fun k => match k with Id s => Some s | BuiltinId => None end)
            (fun o => match o with Some s => Id s | None => BuiltinId end) _).
  intros []; reflexivity.
Defined.

(** [str(id)] for a dictionary key. *)
Definition str_of_pyid (k : pyid) : string :=
  match k with
  | Id s => s
  | BuiltinId => "<built-in function id>"
  end.

(** ** Bytes and text helpers *)

Abbreviation bytes := (list ascii) (only parsing).

Definition encode (s : string) : bytes := list_ascii_of_string s.
Definition decode (b : bytes) : string := string_of_list_ascii b.

Definition LF : ascii := "010"%char.
Definition CR : ascii := "013"%char.

(** The characters [str.strip()] removes, within ASCII. *)
Definition is_space (c : ascii) : bool :=
  let n := N_of_ascii c in
  ((9 <=? n) && (n <=? 13) || (28 <=? n) && (n <=? 32))%N.

Fixpoint lstrip (l : bytes) : bytes :=
  match l with
  | c :: l' => if is_space c then lstrip l' else l
  | [] => []
  end.

Definition strip (l : bytes) : bytes := rev (lstrip (rev (lstrip l))).

(** [buffer.split(sep)] for a one-byte separator: never the empty list. *)
Fixpoint split_on (sep : ascii) (l : bytes) : list bytes :=
  match l with
  | [] => [[]]
  | c :: l' =>
      if Ascii.eqb c sep then [] :: split_on sep l'
      else match split_on sep l' with
           | w :: ws => (c :: w) :: ws
           | [] => [[c]]
           end
  end.

(** [key.split(".")] *)
Definition split_dot (key : string) : list string :=
  map decode (split_on "."%char (encode key)).

(** [sub in s] for two strings. *)
Fixpoint is_prefix (p s : bytes) : bool :=
  match p, s with
  | [], _ => true
  | a :: p', b :: s' => Ascii.eqb a b && is_prefix p' s'
  | _ :: _, [] => false
  end.

Fixpoint is_substring (p s : bytes) : bool :=
  is_prefix p s ||
  match s with
  | [] => false
  | _ :: s' => is_substring p s'
  end.

(** [lst[i]] with Python's negative indices. *)
Definition py_index {A} (l : list A) (i : Z) : res A :=
  let n := Z.of_nat (length l) in
  let j := if i <? 0 then i + n else i in
  if (j <? 0) || (n <=? j) then Raise IndexError
  else match l !! Z.to_nat j with
       | Some x => Ok x
       | None => Raise IndexError
       end.

(** [lst[i] = x], same indexing. *)
Definition py_setindex {A} (l : list A) (i : Z) (x : A) : res (list A) :=
  let n := Z.of_nat (length l) in
  let j := if i <? 0 then i + n else i in
  if (j <? 0) || (n <=? j) then Raise IndexError
  else Ok (<[Z.to_nat j := x]> l).

(** ** Dictionaries in insertion order *)

Fixpoint dict_get {V} (k : string) (d : list (string * V)) : option V :=
  match d with
  | [] => None
  | (k', v) :: d' => if String.eqb k k' then Some v else dict_get k d'
  end.

Definition dict_mem {V} (k : string) (d : list (string * V)) : bool :=
  match dict_get k d with Some _ => true | None => false end.

(** [d[k] = v]: an existing key keeps its position, a new key goes last. *)
Fixpoint dict_set {V} (k : string) (v : V) (d : list (string * V)) : list (string * V) :=
  match d with
  | [] => [(k, v)]
  | (k', v') :: d' =>
      if String.eqb k k' then (k', v) :: d' else (k', v') :: dict_set k v d'
  end.

(** [del d[k]]; a dict holds a key once, and no entry for [k] is left. *)
Fixpoint dict_del {V} (k : string) (d : list (string * V)) : list (string * V) :=
  match d with
  | [] => []
  | (k', v') :: d' =>
      if String.eqb k k' then dict_del k d' else (k', v') :: dict_del k d'
  end.

(** Python's [==] on the values above: lists compare in order, dicts compare
    as mappings. *)
Fixpoint json_eqb (a b : json) : bool :=
  match a, b with
  | JNone, JNone => true
  | JInt x, JInt y => Z.eqb x y
  | JStr s, JStr t => String.eqb s t
  | JList l, JList m =>
      (fix go (l m : list json) : bool :=
         match l, m with
         | [], [] => true
         | x :: l', y :: m' => json_eqb x y && go l' m'
         | _, _ => false
         end) l m
  | JDict d, JDict e =>
      Nat.eqb (length d) (length e) &&
      (fix go (d : list (string * json)) : bool :=
         match d with
         | [] => true
         | (k, v) :: d' =>
             match dict_get k e with
             | Some v' => json_eqb v v'
             | None => false
             end && go d'
         end) d
  | _, _ => false
  end.

(** [val in [None, prev]] *)
Definition in_none_or (val prev : json) : bool :=
  json_eqb val JNone || json_eqb val prev.

(** [default != None] *)
Definition not_none (j : json) : bool := negb (json_eqb j JNone).

Definition as_int (j : json) : res Z :=
  match j with
  | JInt z => Ok z
  | _ => Raise TypeError
  end.

Definition rbind {A B} (r : res A) (k : A -> res B) : res B :=
  match r with
  | Ok a => k a
  | Raise e => Raise e
  end.

Declare Scope res_scope.
Delimit Scope res_scope with res.
Notation "x <- m ;; k" := (rbind m (fun x => k))
  (at level 20, m at level 99, k at level 200, only parsing) : res_scope.

(** ** The program state *)

(** A path is the list of its components below the working directory:
    ["./a/b/"] and ["a/b"] are both [["a"; "b"]]. *)
Abbreviation path := (list string) (only parsing).

Record filesystem : Type := {
  fs_dirs : gset (list string);
  fs_files : gmap (list string) bytes;
  (** [os.fstat(f.fileno()).st_blksize] *)
  st_blksize : Z
}.

(** One object of a response's ["data"] array: a user (only [item_id] is
    read) or a tweet. [attachments_media_keys] is [None] when the tweet has
    no ["attachments"] or no ["media_keys"] in it; [entities_urls] holds the
    ["expanded_url"] of every entry of [tweet["entities"]["urls"]]. *)
Record item : Type := {
  item_id : string;
  author_id : string;
  created_at : string;
  attachments_media_keys : option (list string);
  entities_urls : option (list string)
}.

Record media : Type := {
  media_key : string;
  media_type : string;
  media_url : string
}.

Record includes_t : Type := {
  users : option (list (string * string));
  media_list : option (list media)
}.

(** The JSON body of a Twitter API v2 response. [meta] is [None] when the
    key is missing, [Some None] when it has no ["next_token"]. *)
Record api_response : Type := {
  data : option (list item);
  meta : option (option string);
  includes : option includes_t
}.

Record response : Type := {
  status_code : Z;
  response_json : api_response
}.

(** The outside world the program talks to.  [server n url] is the answer to
    the request for [url] made after [n] earlier requests; [sent] lists the
    URLs requested so far, oldest first. *)
Record network : Type := {
  server : nat -> string -> response;
  sent : list string;
  (** status code of [requests.get(url, stream=True)] for an image *)
  img_status : string -> Z;
  (** [str(datetime.date.today())] *)
  today : string
}.

(** Globals of [persistent_data.py]. *)
Record pd_globals : Type := {
  (** a [DataWrapper] is identified with its dict [_d] *)
  _loaded_data : gmap pyid json;
  _data_modified : list pyid
}.

(** Globals of [twitter_api_bot.py]. *)
Record twab_globals : Type := {
  requests_count : Z;
  external_urls : gmap pyid (list string)
}.

(** Globals of [download_liked_tweets.py]. *)
Record dlt_globals : Type := {
  is_verbose : bool;
  processed_tweets : list string;
  new_processed_tweets : list string
}.

Record world : Type := {
  w_fs : filesystem;
  w_net : network;
  w_pd : pd_globals;
  w_twab : twab_globals;
  w_dlt : dlt_globals
}.

Definition set_fs (f : filesystem -> filesystem) (w : world) : world :=
  {| w_fs := f (w_fs w); w_net := w_net w; w_pd := w_pd w;
     w_twab := w_twab w; w_dlt := w_dlt w |}.
Definition set_net (f : network -> network) (w : world) : world :=
  {| w_fs := w_fs w; w_net := f (w_net w); w_pd := w_pd w;
     w_twab := w_twab w; w_dlt := w_dlt w |}.
Definition set_pd (f : pd_globals -> pd_globals) (w : world) : world :=
  {| w_fs := w_fs w; w_net := w_net w; w_pd := f (w_pd w);
     w_twab := w_twab w; w_dlt := w_dlt w |}.
Definition set_twab (f : twab_globals -> twab_globals) (w : world) : world :=
  {| w_fs := w_fs w; w_net := w_net w; w_pd := w_pd w;
     w_twab := f (w_twab w); w_dlt := w_dlt w |}.
Definition set_dlt (f : dlt_globals -> dlt_globals) (w : world) : world :=
  {| w_fs := w_fs w; w_net := w_net w; w_pd := w_pd w;
     w_twab := w_twab w; w_dlt := f (w_dlt w) |}.

(** ** Computations that read and write the world and may raise *)

Definition Py (A : Type) : Type := world -> res A * world.

Definition ret {A} (a : A) : Py A := fun w => (Ok a, w).
Definition raise {A} (e : exn) : Py A := fun w => (Raise e, w).
Definition bind {A B} (m : Py A) (k : A -> Py B) : Py B :=
  fun w => match m w with
           | (Ok a, w') => k a w'
           | (Raise e, w') => (Raise e, w')
           end.
Definition lift {A} (r : res A) : Py A := fun w => (r, w).
Definition gets {A} (f : world -> A) : Py A := fun w => (Ok (f w), w).
Definition modify (f : world -> world) : Py unit := fun w => (Ok tt, f w).

(** [try: m  except e: h] *)
Definition try_except {A} (m : Py A) (catches : exn -> bool) (h : exn -> Py A) : Py A :=
  fun w => match m w with
           | (Ok a, w') => (Ok a, w')
           | (Raise e, w') => if catches e then h e w' else (Raise e, w')
           end.

Declare Scope py_scope.
Delimit Scope py_scope with py.
Notation "x <- m ;; k" := (bind m (fun x => k))
  (at level 20, m at level 99, k at level 200, only parsing) : py_scope.
Notation "' pat <- m ;; k" := (bind m (fun x => match x with pat => k end))
  (at level 20, pat pattern, m at level 99, k at level 200, only parsing) : py_scope.
Notation "m ;; k" := (bind m (fun _ => k))
  (at level 100, k at level 200, only parsing) : py_scope.
Open Scope py_scope.

(** [for x in xs: body] where the body may [break]: the body returns
    [true] to go on and [false] to break. *)
Fixpoint for_each {A} (xs : list A) (body : A -> Py bool) : Py unit :=
  match xs with
  | [] => ret tt
  | x :: xs' => go_on <- body x ;; if (go_on : bool) then for_each xs' body else ret tt
  end.

(** ** The file system calls the program makes *)

Definition parent (p : path) : path := removelast p.

Definition fs_is_dir (p : path) (fs : filesystem) : bool :=
  bool_decide (p = []) || bool_decide (p ∈ fs_dirs fs).

(** [os.path.exists] *)
Definition fs_exists (p : path) (fs : filesystem) : bool :=
  fs_is_dir p fs || bool_decide (is_Some (fs_files fs !! p)).

Definition os_path_exists (p : path) : Py bool :=
  gets (fun w => fs_exists p (w_fs w)).

Definition fs_add_dir (p : path) (fs : filesystem) : filesystem :=
  {| fs_dirs := {[p]} ∪ fs_dirs fs; fs_files := fs_files fs; st_blksize := st_blksize fs |}.

Definition fs_put (p : path) (b : bytes) (fs : filesystem) : filesystem :=
  {| fs_dirs := fs_dirs fs; fs_files := <[p := b]> (fs_files fs); st_blksize := st_blksize fs |}.

(** [os.mkdir] *)
Definition os_mkdir (p : path) : Py unit :=
  w <- gets (fun w => w) ;;
  if fs_exists p (w_fs w) then raise FileExistsError
  else if negb (fs_is_dir (parent p) (w_fs w)) then raise FileNotFoundError
  else modify (set_fs (fs_add_dir p)).

(** [with open(p, "w") as f: f.write(b)]: the file is truncated when it is
    opened, so it is created (empty) even when nothing is written. *)
Definition write_file (p : path) (b : bytes) : Py unit :=
  w <- gets (fun w => w) ;;
  if fs_is_dir p (w_fs w) then raise IsADirectoryError
  else if negb (fs_is_dir (parent p) (w_fs w)) then raise FileNotFoundError
  else modify (set_fs (fs_put p b)).

(** [with open(p, "a") as f: f.write(b)] *)
Definition append_file (p : path) (b : bytes) : Py unit :=
  w <- gets (fun w => w) ;;
  if fs_is_dir p (w_fs w) then raise IsADirectoryError
  else if negb (fs_is_dir (parent p) (w_fs w)) then raise FileNotFoundError
  else modify (set_fs (fs_put p (default [] (fs_files (w_fs w) !! p) ++ b))).

(** [open(p, "r")] / [open(p, "rb")] followed by reading everything. *)
Definition read_file (p : path) : Py bytes :=
  w <- gets (fun w => w) ;;
  if fs_is_dir p (w_fs w) then raise IsADirectoryError
  else match fs_files (w_fs w) !! p with
       | Some b => ret b
       | None => raise FileNotFoundError
       end.

(** The path a file name string denotes: its components between slashes,
    without the empty ones and the ["."] ones. *)
Definition path_of_string (s : string) : path :=
  filter (fun c => c <> "" /\ c <> ".") (map decode (split_on "/"%char (encode s))).

(** [p] is [q] or lies below it. *)
Definition under (q p : path) : bool := bool_decide (take (length q) p = q).

(** [shutil.rmtree] *)
Definition fs_rmtree (q : path) (fs : filesystem) : filesystem :=
  {| fs_dirs := filter (fun p => under q p = false) (fs_dirs fs);
     fs_files := filter (fun kv => under q (fst kv) = false) (fs_files fs);
     st_blksize := st_blksize fs |}.

Definition shutil_rmtree (q : path) : Py unit :=
  w <- gets (fun w => w) ;;
  if negb (fs_is_dir q (w_fs w)) then raise FileNotFoundError
  else modify (set_fs (fs_rmtree q)).

(** ** file_utils.py *)

Module futils.

Definition MIN_BUFF_SIZE : Z := 4 * 1024.
Definition MAX_BUFF_SIZE : Z := 512 * 1024.

(** The character class [[a-zA-Z0-9\-_()\[\] ]]. *)
Definition dir_char (c : ascii) : bool :=
  let n := N_of_ascii c in
  ((97 <=? n) && (n <=? 122) || (65 <=? n) && (n <=? 90) || (48 <=? n) && (n <=? 57)
   || (n =? 45) || (n =? 95) || (n =? 40) || (n =? 41) || (n =? 91) || (n =? 93)
   || (n =? 32))%N.

(** [re.search("^\.?[a-zA-Z0-9\-_()\[\] ]{3,}$", s)]: an optional leading
    dot, then at least three characters of the class, up to the end of the
    string or to a newline that ends it. *)
Definition dir_name_re (s : bytes) : bool :=
  let s1 := match s with
            | c :: t => if Ascii.eqb c "."%char then t else s
            | [] => s
            end in
  let body := match last s1 with
              | Some c => if Ascii.eqb c LF then removelast s1 else s1
              | None => s1
              end in
  (3 <=? length body)%nat && forallb dir_char body.

Definition is_slash (c : ascii) : bool :=
  Ascii.eqb c "/"%char || Ascii.eqb c "\"%char.

Fixpoint lstrip_slashes (l : bytes) : bytes :=
  match l with
  | c :: l' => if is_slash c then lstrip_slashes l' else l
  | [] => []
  end.

(** [s.strip("/\\")] *)
Definition strip_slashes (l : bytes) : bytes :=
  rev (lstrip_slashes (rev (lstrip_slashes l))).

(** [verify_dir_name]: the cleaned name, without the ["/"] the source
    appends to it (a path is a list of such names here).  The source's
    [valid_dir_cache] only memoises this function. *)
Definition verify_dir_name (dir : string) : res string :=
  let d := encode dir in
  let __dir := if is_prefix (encode "./") d || is_prefix (encode ".\") d
               then drop 2 d else d in
  let __dir := strip_slashes __dir in
  if negb (dir_name_re __dir) then Raise ValueError
  else Ok (decode __dir).

Definition create_folder (dir : path) : Py path :=
  e <- os_path_exists dir ;;
  (if negb e then os_mkdir dir else ret tt) ;;
  ret dir.

Fixpoint assemble_dir_loop (final : path) (dirs : list string) (create : bool) : Py path :=
  match dirs with
  | [] => ret final
  | d :: dirs' =>
      name <- lift (verify_dir_name d) ;;
      let final := final ++ [name] in
      (if create then create_folder final else ret final) ;;
      assemble_dir_loop final dirs' create
  end.

Definition assemble_dir (dirs : list string) (create : bool) : Py path :=
  assemble_dir_loop [] dirs create.

(** [val.decode(encoding).strip()] *)
Definition str_strip (s : string) : string := decode (strip (encode s)).

Definition _decode_and_strip (val : option bytes) : option string :=
  match val with
  | None => None
  | Some b => Some (str_strip (decode b))
  end.

(** Truth value of a [str] or [bytes] object. *)
Definition nonempty_str (s : string) : bool :=
  match s with EmptyString => false | _ => true end.

Definition nonempty {A} (l : list A) : bool :=
  match l with [] => false | _ => true end.

(** [lines[-1] += leftover] *)
Fixpoint add_to_last (lines : list bytes) (leftover : bytes) : list bytes :=
  match lines with
  | [] => []
  | [l] => [l ++ leftover]
  | l :: ls => l :: add_to_last ls leftover
  end.

(** The lines one chunk yields: [lines[-1:0:-1]], decoded and stripped,
    without the empty ones. *)
Definition yield_lines (ls : list bytes) : list string :=
  filter (fun l => nonempty_str l = true)
         (omap (fun l => _decode_and_strip (Some l)) ls).

(** The [while r_size > 0] loop of [readline_reverse]: what it yields, and
    the [leftover] it ends with.  The loop runs once per chunk, so
    [length content + 1] rounds of fuel are never used up. *)
Fixpoint readline_reverse_loop (fuel : nat) (sep : ascii) (content : bytes)
    (buff_size f_size offset r_size : Z) (leftover : option bytes)
    : list string * option bytes :=
  match fuel with
  | O => ([], leftover)
  | S fuel' =>
      if 0 <? r_size then
        let offset := Z.min f_size (offset + buff_size) in
        let buffer := take (Z.to_nat (Z.min r_size buff_size))
                           (drop (Z.to_nat (f_size - offset)) content) in
        let r_size := r_size - buff_size in
        let lines := split_on sep buffer in
        let lines := match leftover with
                     | Some lo => if nonempty lo then add_to_last lines lo else lines
                     | None => lines
                     end in
        let leftover := head lines in
        let ys := yield_lines (rev (tail lines)) in
        let '(rest, lo) := readline_reverse_loop fuel' sep content buff_size f_size
                             offset r_size leftover in
        (ys ++ rest, lo)
      else ([], leftover)
  end.

(** Everything the generator [readline_reverse(fpath)] yields for a file
    with the given content, in order. *)
Definition reverse_lines (sep : ascii) (buff_size : Z) (content : bytes) : list string :=
  let buff_size := Z.min (Z.max MIN_BUFF_SIZE buff_size) MAX_BUFF_SIZE in
  let f_size := Z.of_nat (length content) in
  let '(ys, leftover) :=
    readline_reverse_loop (S (length content)) sep content buff_size f_size 0 f_size None in
  ys ++ match _decode_and_strip leftover with
        | Some l => if nonempty_str l then [l] else []
        | None => []
        end.

(** [readline_reverse(fpath)] with the default separator and buffer size;
    the generator is run to its end (reading has no effect on the world). *)
Definition readline_reverse (fpath : path) : Py (list string) :=
  content <- read_file fpath ;;
  blk <- gets (fun w => st_blksize (w_fs w)) ;;
  ret (reverse_lines LF blk content).

End futils.

(** ** misc_utils.py *)

Module mutils.

Definition add_one (x : json) : res json :=
  match x with
  | JInt z => Ok (JInt (z + 1))
  | _ => Raise TypeError
  end.

End mutils.

(** ** persistent_data.py *)

Module pd.

(** [DataWrapper.default_vals()] *)
Definition default_vals : json :=
  JDict [("twt_db", JDict [("file_num", JInt 1); ("line_count", JList [])]);
         ("liked_tweets", JDict [("count", JInt 0); ("with_external_urls", JInt 0)]);
         ("imgs_downloaded", JInt 0);
         ("requests_made", JInt 0)].

(** [k in obj], [obj[k]], [obj[k] = v] and [del obj[k]] for a string [k]
    and whatever object a traversal ends at. *)
Definition py_contains (k : string) (obj : json) : res bool :=
  match obj with
  | JDict d => Ok (dict_mem k d)
  | JList l => Ok (existsb (json_eqb (JStr k)) l)
  | JStr s => Ok (is_substring (encode k) (encode s))
  | _ => Raise TypeError
  end.

Definition py_getitem (k : string) (obj : json) : res json :=
  match obj with
  | JDict d => match dict_get k d with
               | Some v => Ok v
               | None => Raise KeyError
               end
  | _ => Raise TypeError
  end.

Definition py_setitem (k : string) (v : json) (obj : json) : res json :=
  match obj with
  | JDict d => Ok (JDict (dict_set k v d))
  | _ => Raise TypeError
  end.

Definition py_delitem (k : string) (obj : json) : res json :=
  match obj with
  | JDict d => Ok (JDict (dict_del k d))
  | _ => Raise TypeError
  end.

(** [DataWrapper._traverse].  The source returns a reference [fdict] into
    the nested dict together with the last key; the caller then reads or
    writes [fdict] in place.  Here the caller's code is the continuation
    [k], run on the dict the walk ends at, and the walk rebuilds the
    enclosing dicts around what [k] leaves.  [kparts] is [klist[0:-1]]. *)
Fixpoint _traverse {A} (create : bool) (kparts : list string) (subdict : json)
    (k : json -> res (json * A)) : json * res A :=
  match kparts with
  | [] => match k subdict with
          | Ok (fdict, a) => (fdict, Ok a)
          | Raise e => (subdict, Raise e)
          end
  | kpart :: rest =>
      match subdict with
      | JDict d =>
          let d := if create && negb (dict_mem kpart d)
                   then dict_set kpart (JDict []) d else d in
          match dict_get kpart d with
          | Some sub =>
              let '(sub, r) := _traverse create rest sub k in
              (JDict (dict_set kpart sub d), r)
          | None => (JDict d, Raise KeyError)
          end
      | _ => (subdict, Raise KeyError)
      end
  end.

(** [klist[0:-1]] and [klist[-1]] of [klist = key.split(".")] *)
Definition key_prefix (key : string) : list string := removelast (split_dot key).
Definition key_last (key : string) : string := List.last (split_dot key) key.

Definition is_key_or_index_error (e : exn) : bool :=
  match e with KeyError | IndexError => true | _ => false end.

Definition is_key_error (e : exn) : bool :=
  match e with KeyError => true | _ => false end.

(** The methods of [DataWrapper] take the wrapped dict and give it back
    together with their result. *)
Definition _get (key : string) (default : json) (self : json) : json * res json :=
  let '(self, r) := _traverse false (key_prefix key) self
                      (fun fdest => (v <- py_getitem (key_last key) fdest ;; Ok (fdest, v))%res) in
  match r with
  | Raise e => if is_key_error e && not_none default then (self, Ok default) else (self, Raise e)
  | Ok v => (self, Ok v)
  end.

Definition _get_in_list (key : string) (index : Z) (default : json) (self : json)
    : json * res json :=
  let '(self, r) := _traverse false (key_prefix key) self
                      (fun fdest =>
                         (get_list <- py_getitem (key_last key) fdest ;;
                          match get_list with
                          | JList l => v <- py_index l index ;; Ok (fdest, v)
                          | _ => Raise ValueError
                          end)%res) in
  match r with
  | Raise e => if is_key_or_index_error e && not_none default
               then (self, Ok default) else (self, Raise e)
  | Ok v => (self, Ok v)
  end.

Definition apply_set_func (set_func : option (json -> res json)) (val prev : json) : res json :=
  match set_func with
  | Some g => g prev
  | None => Ok val
  end.

Definition _set (key : string) (val : json) (set_func : option (json -> res json))
    (self : json) : json * res bool :=
  _traverse true (key_prefix key) self
    (fun fdict =>
       let fkey := key_last key in
       (c <- py_contains fkey fdict ;;
        prev_val <- (if (c : bool) then py_getitem fkey fdict else Ok JNone) ;;
        val <- apply_set_func set_func val prev_val ;;
        if in_none_or val prev_val then Ok (fdict, false)
        else fdict <- py_setitem fkey val fdict ;; Ok (fdict, true))%res).

Definition _del (key : string) (self : json) : json * res bool :=
  let '(self, r) := _traverse false (key_prefix key) self
                      (fun fdict =>
                         let fkey := key_last key in
                         (c <- py_contains fkey fdict ;;
                          if (c : bool) then fdict <- py_delitem fkey fdict ;; Ok (fdict, true)
                          else Ok (fdict, false))%res) in
  match r with
  | Raise e => if is_key_error e then (self, Ok false) else (self, Raise e)
  | Ok b => (self, Ok b)
  end.

Definition _set_in_list (key : string) (index : Z) (val : json)
    (set_func : option (json -> res json)) (self : json) : json * res bool :=
  _traverse true (key_prefix key) self
    (fun fdict =>
       let fkey := key_last key in
       (c <- py_contains fkey fdict ;;
        orig <- (if (c : bool) then py_getitem fkey fdict else Ok (JList [])) ;;
        match orig with
        | JList orig_list =>
            let orig_len := Z.of_nat (length orig_list) in
            let need_append := orig_len <=? index in
            let work_list := if need_append
                             then replicate (Z.to_nat (index - orig_len + 1)) JNone
                             else orig_list in
            let work_index := if need_append then index - orig_len else index in
            cur <- py_index work_list work_index ;;
            val <- apply_set_func set_func val cur ;;
            if in_none_or val cur then Ok (fdict, false)
            else
              work_list <- py_setindex work_list work_index val ;;
              let new_list := if need_append then orig_list ++ work_list else work_list in
              fdict <- py_setitem fkey (JList new_list) fdict ;;
              Ok (fdict, true)
        | _ => Raise ValueError
        end)%res).

Definition _set_as_modified (id : pyid) : Py unit :=
  modify (set_pd (fun g =>
    if bool_decide (id ∈ _data_modified g) then g
    else {| _loaded_data := _loaded_data g;
            _data_modified := _data_modified g ++ [id] |})).

Definition put_loaded (id : pyid) (d : json) : Py unit :=
  modify (set_pd (fun g =>
    {| _loaded_data := <[id := d]> (_loaded_data g);
       _data_modified := _data_modified g |})).

Definition _default_if_nonexistent (id : pyid) : Py unit :=
  loaded <- gets (fun w => _loaded_data (w_pd w)) ;;
  match loaded !! id with
  | Some _ => ret tt
  | None => put_loaded id default_vals ;; _set_as_modified id
  end.

(** [_loaded_data[id].method(...)]: the method runs on the record in the
    table, which holds whatever the method leaves of it. *)
Definition on_loaded {A} (id : pyid) (method : json -> json * res A) : Py A :=
  loaded <- gets (fun w => _loaded_data (w_pd w)) ;;
  match loaded !! id with
  | None => raise KeyError
  | Some self =>
      let '(self, r) := method self in
      put_loaded id self ;; lift r
  end.

(** [get_data(id, key, index, default)]; with [key = None] the result is
    the whole record. *)
Definition get_data (id : pyid) (key : option string) (index : option Z) (default : json)
    : Py json :=
  _default_if_nonexistent id ;;
  match key, index with
  | None, _ => on_loaded id (fun self => (self, Ok self))
  | Some key, None => on_loaded id (_get key default)
  | Some key, Some index => on_loaded id (_get_in_list key index default)
  end.

(** [set_data(id, key, val, index=..., set_func=...)]; [get_data(id)] in the
    source looks the record up, creating the default one if need be. *)
Definition set_data (id : pyid) (key : string) (val : json) (index : option Z)
    (set_func : option (json -> res json)) : Py bool :=
  _default_if_nonexistent id ;;
  dset <- match index with
          | Some index => on_loaded id (_set_in_list key index val set_func)
          | None => on_loaded id (_set key val set_func)
          end ;;
  (if (dset : bool) then _set_as_modified id else ret tt) ;;
  ret dset.

Definition del_data (id : pyid) (key : option string) : Py bool :=
  match key with
  | None =>
      loaded <- gets (fun w => _loaded_data (w_pd w)) ;;
      match loaded !! id with
      | Some _ =>
          modify (set_pd (fun g => {| _loaded_data := delete id (_loaded_data g);
                                      _data_modified := _data_modified g |})) ;;
          ret true
      | None => ret false
      end
  | Some key => on_loaded id (_del key)
  end.

Definition _get_file (id : pyid) : path :=
  path_of_string ("./" +:+ str_of_pyid id +:+ "/persistent_data.json").

(** [json.dumps] with its default separators and [ensure_ascii]. *)
Definition DQUOTE : ascii := ascii_of_N 34.

Definition hex_digit (n : N) : ascii :=
  nth (N.to_nat n) (encode "0123456789abcdef") "0"%char.

Definition escape_char (c : ascii) : bytes :=
  let n := N_of_ascii c in
  if (n =? 34)%N then ["\"%char; DQUOTE]
  else if (n =? 92)%N then encode "\\"
  else if (n =? 10)%N then encode "\n"
  else if (n =? 13)%N then encode "\r"
  else if (n =? 9)%N then encode "\t"
  else if (n =? 8)%N then encode "\b"
  else if (n =? 12)%N then encode "\f"
  else if ((n <? 32) || (126 <? n))%N
       then encode "\u00" ++ [hex_digit (n / 16); hex_digit (n mod 16)]
  else [c].

Definition dumps_str (s : string) : bytes :=
  DQUOTE :: concat (map escape_char (encode s)) ++ [DQUOTE].

Fixpoint json_dumps (j : json) : bytes :=
  match j with
  | JNone => encode "null"
  | JInt z => encode (pretty z)
  | JStr s => dumps_str s
  | JList l =>
      encode "[" ++
      (fix go (l : list json) : bytes :=
         match l with
         | [] => []
         | x :: l' => json_dumps x ++ match l' with [] => [] | _ => encode ", " ++ go l' end
         end) l ++ encode "]"
  | JDict d =>
      encode "{" ++
      (fix go (d : list (string * json)) : bytes :=
         match d with
         | [] => []
         | (k, v) :: d' =>
             dumps_str k ++ encode ": " ++ json_dumps v ++
             match d' with [] => [] | _ => encode ", " ++ go d' end
         end) d ++ encode "}"
  end.

(** One round of the loop of [save_to_file]: [open(fp, "w")] truncates the
    file before [_loaded_data[id]] is looked up. *)
Definition save_one (id : pyid) : Py unit :=
  let fp := _get_file id in
  write_file fp [] ;;
  loaded <- gets (fun w => _loaded_data (w_pd w)) ;;
  match loaded !! id with
  | None => raise KeyError
  | Some d => write_file fp (json_dumps d)
  end.

(** [persistent_data.save_to_file()] *)
Definition save_to_file : Py unit :=
  modified <- gets (fun w => _data_modified (w_pd w)) ;;
  for_each modified (fun id => save_one id ;; ret true).

End pd.

(** ** known_tweets_handler.py *)

Module kth.

(** ["%s%s.txt" % (dir, fnum)] *)
Definition segment_file (dir : path) (fnum : Z) : path :=
  dir ++ [pretty fnum +:+ ".txt"].

(** The lines [f.write(str(t) + "\n")] produces for a list of IDs. *)
Definition id_lines (twts : list string) : bytes :=
  concat (map (fun t => encode t ++ [LF]) twts).

Definition save_temp (id : string) (twts : list string) : Py unit :=
  fnum <- pd.get_data (Id id) (Some "temp_db.file_num") None (JInt 1) ;;
  dir <- futils.assemble_dir [id; "known_tweets"; "temp"] true ;;
  fnum <- lift (as_int fnum) ;;
  write_file (segment_file dir fnum) (id_lines twts) ;;
  pd.set_data (Id id) "temp_db.file_num" JNone None
    (Some (fun x => if json_eqb x JNone then Ok (JInt 2)
                    else (x <- as_int x ;; Ok (JInt (x + 1)))%res)) ;;
  ret tt.

(** The write loop of [_save_explicit]: the bytes written and the final
    [count]. *)
Fixpoint write_loop (twts : list string) (lcount limit count : Z) (out : bytes)
    : bytes * Z :=
  match twts with
  | [] => (out, count)
  | t :: rest =>
      if limit <=? count + lcount then (out, count)
      else write_loop rest lcount limit (count + 1) (out ++ encode t ++ [LF])
  end.

Fixpoint _save_explicit_rec (fuel : nat) (id : string) (twts : list string) (limit : Z)
    (fnum : option json) (twtslen : option Z) : Py unit :=
  match fuel with
  | O => raise OutOfFuel
  | S fuel' =>
      fnum <- match fnum with
              | Some f => ret f
              | None => pd.get_data (Id id) (Some "twt_db.file_num") None (JInt 1)
              end ;;
      let twtslen := match twtslen with
                     | Some n => n
                     | None => Z.of_nat (length twts)
                     end in
      if twtslen <=? 0 then ret tt
      else
        fnum <- lift (as_int fnum) ;;
        lcount <- pd.get_data (Id id) (Some "twt_db.line_count") (Some (fnum - 1)) (JInt 0) ;;
        dir <- futils.assemble_dir [id; "known_tweets"] true ;;
        let fname := segment_file dir fnum in
        lcount <- lift (as_int lcount) ;;
        count <- (if 0 + lcount <? limit
                  then let '(out, count) := write_loop twts lcount limit 0 [] in
                       append_file fname out ;; ret count
                  else ret 0) ;;
        pd.set_data (Id id) "twt_db.line_count" JNone (Some (fnum - 1))
          (Some (fun x => if json_eqb x JNone then Ok (JInt count)
                          else (x <- as_int x ;; Ok (JInt (x + count)))%res)) ;;
        if limit <? lcount + twtslen then
          let fnum_next := fnum + 1 in
          pd.set_data (Id id) "twt_db.file_num" (JInt fnum_next) None None ;;
          _save_explicit_rec fuel' id (drop (Z.to_nat count) twts) limit
            (Some (JInt fnum_next)) (Some (twtslen - count))
        else ret tt
  end.

(** The length of the list at [twt_db.line_count] of a user's record. *)
Definition line_count_len (id : string) (w : world) : nat :=
  match _loaded_data (w_pd w) !! Id id with
  | Some (JDict d) =>
      match dict_get "twt_db" d with
      | Some (JDict t) =>
          match dict_get "line_count" t with
          | Some (JList l) => length l
          | _ => 0%nat
          end
      | _ => 0%nat
      end
  | _ => 0%nat
  end.

(** [_save_explicit(id, twts, limit)].  A call either writes at least one
    ID or steps over one recorded segment that is already full, which bounds
    the depth of the recursion by the fuel given here. *)
Definition _save_explicit (id : string) (twts : list string) (limit : Z) : Py unit :=
  n <- gets (line_count_len id) ;;
  _save_explicit_rec (length twts + 2 * n + 2) id twts limit None None.

(** Text-mode reading turns ["\r\n"] and ["\r"] into ["\n"]. *)
Fixpoint universal_newlines (b : bytes) : bytes :=
  match b with
  | [] => []
  | c :: b' =>
      if Ascii.eqb c CR then
        LF :: match b' with
              | d :: b'' => if Ascii.eqb d LF then universal_newlines b''
                            else universal_newlines b'
              | [] => []
              end
      else c :: universal_newlines b'
  end.

(** [res] of one round of [_revolve_temp_files]: the stripped, non-empty
    lines of a temp file. *)
Definition temp_lines (content : bytes) : list string :=
  filter (fun l => futils.nonempty_str l = true)
         (map (fun l => futils.str_strip (decode l))
              (split_on LF (universal_newlines content))).

(** The [while fnum >= 1] loop of the generator [_revolve_temp_files],
    with the body of the [for] loop that consumes it run at each [yield];
    [n] is [fnum]. *)
Fixpoint _revolve_loop (n : nat) (tmp_dir : path) (body : list string -> Py unit) : Py unit :=
  match n with
  | O => ret tt
  | S n' =>
      let fname := segment_file tmp_dir (Z.of_nat n) in
      e <- os_path_exists fname ;;
      (if (e : bool) then content <- read_file fname ;; body (temp_lines content)
       else ret tt) ;;
      _revolve_loop n' tmp_dir body
  end.

(** [for l in _revolve_temp_files(id): body(l)] *)
Definition _revolve_temp_files (id : string) (body : list string -> Py unit) : Py unit :=
  tmp_dir <- futils.assemble_dir [id; "known_tweets"; "temp"] true ;;
  e <- os_path_exists tmp_dir ;;
  if negb e then ret tt
  else
    fnum <- pd.get_data (Id id) (Some "temp_db.file_num") None (JInt 0) ;;
    fnum <- lift (as_int fnum) ;;
    _revolve_loop (Z.to_nat fnum) tmp_dir body.

Definition _combine_saves_with_temp (id : string) (limit : Z) : Py unit :=
  _revolve_temp_files id (fun l => _save_explicit id l limit).

(** [known_tweets_handler.save_to_file(id, twts, limit)] *)
Definition save_to_file (id : string) (twts : list string) (limit : Z) : Py unit :=
  let limit := Z.min (Z.max limit 1000) 10000 in
  _save_explicit id twts limit ;;
  _combine_saves_with_temp id limit ;;
  tmp_dirname <- futils.assemble_dir [id; "known_tweets"; "temp"] true ;;
  e <- os_path_exists tmp_dirname ;;
  if (e : bool) then
    shutil_rmtree tmp_dirname ;;
    pd.del_data (Id id) (Some "temp_db") ;;
    ret tt
  else ret tt.

(** The [for l in reverse_gen] loop of [load_from_file]. *)
Fixpoint collect (limit : Z) (lines : list string) (twts : list string) (count : Z)
    : list string * Z :=
  match lines with
  | [] => (twts, count)
  | l :: rest =>
      if (limit <=? count) && (0 <? limit) then (twts, count)
      else if bool_decide (l ∈ twts) then collect limit rest twts count
      else collect limit rest (twts ++ [l]) (count + 1)
  end.

(** [load_from_file(id, limit, fnum)] for [fnum = n]; the recursive call is
    on [fnum - 1]. *)
Fixpoint load_from_file_at (n : nat) (id : string) (limit : Z) : Py (list string) :=
  let limit := if (limit <? 1) || (10000 <? limit) then 10000 else limit in
  match n with
  | O => ret []
  | S n' =>
      let fnum := Z.of_nat n in
      dir <- futils.assemble_dir [id; "known_tweets"] true ;;
      let fname := segment_file dir fnum in
      e <- os_path_exists fname ;;
      if negb e then
        if 1 <? fnum then raise RuntimeError else ret []
      else
        lines <- futils.readline_reverse fname ;;
        let '(twts, count) := collect limit lines [] 0 in
        if limit <? 1 then
          more <- load_from_file_at n' id limit ;; ret (twts ++ more)
        else if count <? limit then
          more <- load_from_file_at n' id (limit - count) ;; ret (twts ++ more)
        else ret twts
  end.

(** [known_tweets_handler.load_from_file(id, limit, fnum)] *)
Definition load_from_file (id : string) (limit : Z) (fnum : option Z) : Py (list string) :=
  fnum <- match fnum with
          | Some f => ret f
          | None => v <- pd.get_data (Id id) (Some "twt_db.file_num") None JNone ;;
                    lift (as_int v)
          end ;;
  if fnum <? 1 then ret []
  else load_from_file_at (Z.to_nat fnum) id limit.

End kth.

(** ** twitter_api_bot.py *)

Module twab.

Definition max_requests : Z := 50.

Fixpoint join_commas (us : list string) : string :=
  match us with
  | [] => ""
  | u :: us' => "," +:+ u +:+ join_commas us'
  end.

Definition user_id_url (usernames : list string) : string :=
  match usernames with
  | [] => ""
  | u :: us => "https://api.twitter.com/2/users/by?usernames=" +:+ u +:+ join_commas us
  end.

Fixpoint join_amp (ds : list string) : string :=
  match ds with
  | [] => ""
  | [d] => d
  | d :: ds' => d +:+ "&" +:+ join_amp ds'
  end.

Definition liked_tweets_url (id : string) (expansions tweet_fields user_fields media_fields
    page_token : option string) : string :=
  let dec (name : string) (o : option string) : list string :=
    match o with Some v => [name +:+ "=" +:+ v] | None => [] end in
  let decorations :=
    dec "expansions" expansions ++ dec "tweet.fields" tweet_fields ++
    dec "user.fields" user_fields ++ dec "media.fields" media_fields ++
    dec "pagination_token" page_token in
  let url_end := id +:+ "/liked_tweets" +:+
                 match decorations with
                 | [] => ""
                 | _ => "?" +:+ join_amp decorations
                 end in
  "https://api.twitter.com/2/users/" +:+ url_end.

(** [requests.request("GET", url, auth=bearer_oauth)] *)
Definition requests_request (url : string) : Py response :=
  net <- gets w_net ;;
  modify (set_net (fun n => {| server := server n; sent := sent n ++ [url];
                               img_status := img_status n; today := today n |})) ;;
  ret (server net (length (sent net)) url).

Definition connect_to_endpoint (url : string) : Py api_response :=
  count <- gets (fun w => requests_count (w_twab w)) ;;
  if max_requests <=? count then raise RequestCountError
  else
    response <- requests_request url ;;
    if negb (status_code response =? 200) then raise UnsuccessfulRequestError
    else
      modify (set_twab (fun g => {| requests_count := requests_count g + 1;
                                    external_urls := external_urls g |})) ;;
      ret (response_json response).

Definition fetch_user_ids (usernames : list string) : Py (list string) :=
  let url := user_id_url usernames in
  if negb (futils.nonempty_str url) then ret []
  else
    api_response <- connect_to_endpoint url ;;
    match data api_response with
    | Some users => ret (map item_id users)
    | None => raise KeyError
    end.

(** Where the generator [fetch_liked_tweets] is suspended: before its first
    round, at its [yield], or finished. *)
Inductive generator : Type :=
| GenStart (page_token : option string)
| GenYield (api_response_ : api_response)
| GenDone.

(** One round of [while True] up to the [yield] or the [break]. *)
Definition fetch_round (usr_id : string) (expansions tweet_fields user_fields
    media_fields page_token : option string) : Py (option api_response * generator) :=
  api_response <- connect_to_endpoint
    (liked_tweets_url usr_id expansions tweet_fields user_fields media_fields page_token) ;;
  match data api_response with
  | Some _ => ret (Some api_response, GenYield api_response)
  | None => ret (None, GenDone)
  end.

(** [next(liked_tweets, None)] for the generator
    [liked_tweets = fetch_liked_tweets(usr_id, ...)] *)
Definition next (usr_id : string) (expansions tweet_fields user_fields media_fields
    : option string) (g : generator) : Py (option api_response * generator) :=
  match g with
  | GenStart page_token =>
      fetch_round usr_id expansions tweet_fields user_fields media_fields page_token
  | GenYield api_response =>
      match meta api_response with
      | None => raise KeyError
      | Some (Some next_token) =>
          fetch_round usr_id expansions tweet_fields user_fields media_fields (Some next_token)
      | Some None => ret (None, GenDone)
      end
  | GenDone => ret (None, GenDone)
  end.

(** [re.search("^https://twitter\.com/", url)] negated, for any URL of the
    tweet's entities. *)
Definition check_for_external_urls (tweet : item) : bool :=
  match entities_urls tweet with
  | None => false
  | Some url_tc =>
      existsb (fun u => negb (is_prefix (encode "https://twitter.com/") (encode u))) url_tc
  end.

Definition status_url (author tweet_id : string) : string :=
  "https://twitter.com/" +:+ author +:+ "/status/" +:+ tweet_id.

(** [reg_external_url] has no [return] with a value: its result is always
    [None]. *)
Definition reg_external_url (id : string) (tweet : item) (usr_dict : list (string * string))
    : Py json :=
  if negb (check_for_external_urls tweet) then ret JNone
  else
    match dict_get (author_id tweet) usr_dict with
    | None => raise KeyError
    | Some author =>
        let url := status_url author (item_id tweet) in
        modify (set_twab (fun g =>
          {| requests_count := requests_count g;
             external_urls := <[Id id := default [] (external_urls g !! Id id) ++ [url]]>
                                (external_urls g) |})) ;;
        ret JNone
    end.

Definition dump_external_urls_for_usr (id : string) : Py unit :=
  ext <- gets (fun w => external_urls (w_twab w)) ;;
  match ext !! Id id with
  | None => ret tt
  | Some [] => ret tt
  | Some urls =>
      date <- gets (fun w => today (w_net w)) ;;
      append_file (path_of_string ("./" +:+ id +:+ "/external_urls.txt"))
        (encode (date +:+ String LF "The following URLs have possible external URLs:") ++
         concat (map (fun u => LF :: encode u) urls) ++ [LF; LF])
  end.

End twab.

(** ** download_liked_tweets.py *)

Module dlt.

Definition gen_id2usr (api_response_ : api_response) : list (string * string) :=
  match includes api_response_ with
  | Some inc =>
      match users inc with
      | Some usr_list => fold_left (fun d u => dict_set (fst u) (snd u) d) usr_list []
      | None => []
      end
  | None => []
  end.

(** The guard of [gen_media2url] joins its two tests with [and], so a
    response without ["includes"] or without ["media"] raises [KeyError]. *)
Definition gen_media2url (api_response_ : api_response) : res (list (string * string)) :=
  match includes api_response_ with
  | None => Raise KeyError
  | Some inc =>
      match media_list inc with
      | None => Raise KeyError
      | Some ms =>
          Ok (fold_left (fun d m => dict_set (media_key m) (media_url m) d)
                (filter (fun m => media_type m = "photo") ms) [])
      end
  end.

(** [download_img]: whether the image was fetched.  The image file it writes
    under the output folder is not part of the modelled file system. *)
Definition download_img (url : string) : Py bool :=
  status <- gets (fun w => img_status (w_net w) url) ;;
  ret (status =? 200).

Fixpoint media_loop (keys : list string) (media2url : list (string * string)) (img_count : Z)
    : Py Z :=
  match keys with
  | [] => ret img_count
  | key :: keys' =>
      match dict_get key media2url with
      | None => media_loop keys' media2url img_count
      | Some img_url =>
          ok <- download_img img_url ;;
          media_loop keys' media2url (if (ok : bool) then img_count + 1 else img_count)
      end
  end.

Definition process_tweet_for_media (tweet : item) (id2usr media2url : list (string * string))
    : Py Z :=
  match dict_get (author_id tweet) id2usr with
  | None => raise KeyError
  | Some author =>
      media_loop (default [] (attachments_media_keys tweet)) media2url 0
  end.

(** Truth value of the [None] that [reg_external_url] returns. *)
Definition truthy (j : json) : bool :=
  match j with
  | JNone => false
  | JInt z => negb (z =? 0)
  | JStr s => futils.nonempty_str s
  | JList l => futils.nonempty l
  | JDict d => futils.nonempty d
  end.

(** The [for tweet in api_response["data"]] loop of
    [process_response_for_imgs]; the result is [(halt, img_count,
    tweet_count)]. *)
Fixpoint tweets_loop (usr_id : string) (id2usr media2url : list (string * string))
    (ignore_processed : bool) (tweets : list item) (img_count tweet_count : Z)
    : Py (Z * Z * Z) :=
  match tweets with
  | [] => ret (0, img_count, tweet_count)
  | tweet :: rest =>
      match attachments_media_keys tweet with
      | None => tweets_loop usr_id id2usr media2url ignore_processed rest img_count tweet_count
      | Some _ =>
          let tweet_id := item_id tweet in
          known <- gets (fun w => processed_tweets (w_dlt w)) ;;
          if negb ignore_processed && bool_decide (tweet_id ∈ known)
          then ret (2, img_count, tweet_count)
          else
            imgs <- process_tweet_for_media tweet id2usr media2url ;;
            modify (set_dlt (fun g =>
              {| is_verbose := is_verbose g; processed_tweets := processed_tweets g;
                 new_processed_tweets := new_processed_tweets g ++ [tweet_id] |})) ;;
            (match entities_urls tweet with
             | Some _ =>
                 r <- twab.reg_external_url usr_id tweet id2usr ;;
                 if truthy r
                 then pd.set_data (Id usr_id) "liked_tweets.with_external_urls" JNone None
                        (Some mutils.add_one) ;; ret tt
                 else ret tt
             | None => ret tt
             end) ;;
            tweets_loop usr_id id2usr media2url ignore_processed rest
              (img_count + imgs) (tweet_count + 1)
      end
  end.

(** [process_response_for_imgs]: a response without ["data"] gives the
    two-element tuple [(0, 0)], written [(0, 0, None)] here. *)
Definition process_response_for_imgs (usr_id : string) (api_response_ : api_response)
    (ignore_processed : bool) : Py (Z * Z * option Z) :=
  match data api_response_ with
  | None => ret (0, 0, None)
  | Some tweets =>
      let id2usr := gen_id2usr api_response_ in
      media2url <- lift (gen_media2url api_response_) ;;
      '(halt, img_count, tweet_count) <-
        tweets_loop usr_id id2usr media2url ignore_processed tweets 0 0 ;;
      ret (halt, img_count, Some tweet_count)
  end.

Definition is_unsuccessful (e : exn) : bool :=
  match e with UnsuccessfulRequestError => true | _ => false end.

(** The [while] loop of [process_usr_for_liked] inside its [try].  The
    [except] clause sees the counters as they stood before the call of
    [next] that raised.  Every round that does not end the loop makes a
    successful request, so [max_requests + 1] rounds of fuel are enough. *)
Fixpoint liked_loop (fuel : nat) (usr_id : string) (ignore_processed : bool)
    (liked_tweets : twab.generator) (halt img_count tweet_count : Z) : Py (Z * Z * Z) :=
  match fuel with
  | O => raise OutOfFuel
  | S fuel' =>
      try_except
        (nx <- twab.next usr_id (Some "author_id,attachments.media_keys")
                 (Some "created_at,entities") None (Some "url") liked_tweets ;;
         match nx with
         | (None, _) => ret (halt, img_count, tweet_count)
         | (Some api_response_, liked_tweets) =>
             r <- process_response_for_imgs usr_id api_response_ ignore_processed ;;
             match r with
             | (_, _, None) => raise ValueError
             | (halt, imgs, Some tweets) =>
                 verbose <- gets (fun w => is_verbose (w_dlt w)) ;;
                 (if (verbose : bool)
                  then match meta api_response_ with
                       | None => raise KeyError
                       | Some _ => ret tt
                       end
                  else ret tt) ;;
                 let img_count := img_count + imgs in
                 let tweet_count := tweet_count + tweets in
                 if 0 <? halt then ret (halt, img_count, tweet_count)
                 else liked_loop fuel' usr_id ignore_processed liked_tweets
                        halt img_count tweet_count
             end
         end)
        is_unsuccessful
        (fun _ => ret (1, img_count, tweet_count))
  end.

Definition process_usr_for_liked (usr_id : string) (page_token : option string)
    (ignore_processed : bool) : Py (Z * Z * Z) :=
  count <- gets (fun w => requests_count (w_twab w)) ;;
  liked_loop (S (Z.to_nat (twab.max_requests - count) + 1)) usr_id ignore_processed
    (twab.GenStart page_token) 0 0 0.

Definition add_to (n : Z) (x : json) : res json :=
  (x <- as_int x ;; Ok (JInt (x + n)))%res.

(** [main]; what it prints is left out.  [id] in its three calls of
    [pd.set_data] is the builtin function. *)
Definition main (username : string) (folder : option string) (page_token : option string)
    (ignore_processed verbose : bool) : Py unit :=
  modify (set_dlt (fun g =>
    {| is_verbose := verbose; processed_tweets := processed_tweets g;
       new_processed_tweets := new_processed_tweets g |})) ;;
  ids <- twab.fetch_user_ids [username] ;;
  usr_id <- lift (py_index ids 0) ;;
  known <- kth.load_from_file usr_id 3000 None ;;
  modify (set_dlt (fun g =>
    {| is_verbose := is_verbose g; processed_tweets := known;
       new_processed_tweets := new_processed_tweets g |})) ;;
  let folder := default "downloaded images" folder in
  futils.assemble_dir [usr_id; folder] true ;;
  '(halt, img_count, tweet_count) <- process_usr_for_liked usr_id page_token ignore_processed ;;
  pd.set_data BuiltinId "liked_tweets.count" JNone None (Some (add_to tweet_count)) ;;
  pd.set_data BuiltinId "imgs_downloaded" JNone None (Some (add_to img_count)) ;;
  requests_count_ <- gets (fun w => requests_count (w_twab w)) ;;
  pd.set_data BuiltinId "requests_made" JNone None (Some (add_to requests_count_)) ;;
  twab.dump_external_urls_for_usr usr_id.

End dlt.

(** * Properties *)

(** ** Reasoning about computations *)

Lemma bind_ok {A B} (m : Py A) (k : A -> Py B) w a w' :
  m w = (Ok a, w') -> bind m k w = k a w'.
Proof. intros H. unfold bind. rewrite H. reflexivity. Qed.

Lemma bind_raise {A B} (m : Py A) (k : A -> Py B) w e w' :
  m w = (Raise e, w') -> bind m k w = (Raise e, w').
Proof. intros H. unfold bind. rewrite H. reflexivity. Qed.

(** A computation preserves [P] when it leaves every world that satisfies
    [P] in a world that satisfies [P], whatever its result. *)
Definition preserves {A} (P : world -> Prop) (m : Py A) : Prop :=
  forall w, P w -> P (snd (m w)).

Lemma preserves_ret {A} P (a : A) : preserves P (ret a).
Proof. intros w H. exact H. Qed.

Lemma preserves_raise {A} P e : preserves P (@raise A e).
Proof. intros w H. exact H. Qed.

Lemma preserves_lift {A} P (r : res A) : preserves P (lift r).
Proof. intros w H. exact H. Qed.

Lemma preserves_gets {A} P (f : world -> A) : preserves P (gets f).
Proof. intros w H. exact H. Qed.

Lemma preserves_modify P f :
  (forall w, P w -> P (f w)) -> preserves P (modify f).
Proof. intros Hf w H. apply Hf, H. Qed.

Lemma preserves_bind {A B} P (m : Py A) (k : A -> Py B) :
  preserves P m -> (forall a, preserves P (k a)) -> preserves P (bind m k).
Proof.
  intros Hm Hk w H. unfold bind.
  specialize (Hm w H). destruct (m w) as [[a|e] w']; simpl in *.
  - apply Hk, Hm.
  - exact Hm.
Qed.

Lemma preserves_try_except {A} P (m : Py A) c h :
  preserves P m -> (forall e, preserves P (h e)) -> preserves P (try_except m c h).
Proof.
  intros Hm Hh w H. unfold try_except.
  specialize (Hm w H). destruct (m w) as [[a|e] w']; simpl in *.
  - exact Hm.
  - destruct (c e); [apply Hh, Hm | exact Hm].
Qed.

Lemma preserves_for_each {A} P (xs : list A) body :
  (forall x, preserves P (body x)) -> preserves P (for_each xs body).
Proof.
  intros Hb. induction xs as [|x xs IH]; simpl.
  - apply preserves_ret.
  - apply preserves_bind; [apply Hb|]. intros []; [exact IH | apply preserves_ret].
Qed.

(** Breaks a goal [preserves P m] down along the structure of [m]. *)
Ltac pres_step :=
  match goal with
  | |- preserves _ (bind _ _) => apply preserves_bind; [|intros]
  | |- preserves _ (ret _) => apply preserves_ret
  | |- preserves _ (raise _) => apply preserves_raise
  | |- preserves _ (lift _) => apply preserves_lift
  | |- preserves _ (gets _) => apply preserves_gets
  | |- preserves _ (try_except _ _ _) => apply preserves_try_except; [|intros]
  | |- preserves _ (for_each _ _) => apply preserves_for_each; intros
  | |- preserves _ (match ?x with _ => _ end) => destruct x
  | |- preserves _ (let '(_, _) := ?x in _) => destruct x
  | |- preserves _ (if ?b then _ else _) => destruct b
  end.

Ltac pres := repeat pres_step.

(** ** The request budget *)

Definition budget_ok (w : world) : Prop :=
  requests_count (w_twab w) <= twab.max_requests.

(** Only the [twab] globals matter for the budget. *)
Lemma budget_ok_same_twab w w' :
  w_twab w' = w_twab w -> budget_ok w -> budget_ok w'.
Proof. unfold budget_ok. intros ->. auto. Qed.

Lemma preserves_budget_modify f :
  (forall w, requests_count (w_twab (f w)) = requests_count (w_twab w)) ->
  preserves budget_ok (modify f).
Proof.
  intros Hf. apply preserves_modify. intros w H. unfold budget_ok in *. rewrite Hf. exact H.
Qed.

Ltac budget :=
  repeat first
    [ pres_step
    | apply preserves_budget_modify; intros; reflexivity
    | apply preserves_budget_modify; intros [? ? ? ? ?]; simpl; try case_bool_decide; reflexivity ].

Lemma connect_to_endpoint_budget url : preserves budget_ok (twab.connect_to_endpoint url).
Proof.
  intros w H. unfold twab.connect_to_endpoint, twab.requests_request, bind, gets, modify, ret.
  simpl. unfold budget_ok in *.
  destruct (twab.max_requests <=? requests_count (w_twab w)) eqn:E; simpl; [exact H|].
  destruct (status_code _ =? 200); simpl; [|exact H].
  apply Z.leb_gt in E. lia.
Qed.

(** Nothing but [connect_to_endpoint] writes [requests_count]. *)
Lemma os_path_exists_budget p : preserves budget_ok (os_path_exists p).
Proof. unfold os_path_exists. budget. Qed.

Lemma os_mkdir_budget p : preserves budget_ok (os_mkdir p).
Proof. unfold os_mkdir. budget. Qed.

Lemma write_file_budget p b : preserves budget_ok (write_file p b).
Proof. unfold write_file. budget. Qed.

Lemma append_file_budget p b : preserves budget_ok (append_file p b).
Proof. unfold append_file. budget. Qed.

Lemma read_file_budget p : preserves budget_ok (read_file p).
Proof. unfold read_file. budget. Qed.

Lemma shutil_rmtree_budget p : preserves budget_ok (shutil_rmtree p).
Proof. unfold shutil_rmtree. budget. Qed.

Lemma assemble_dir_loop_budget final dirs create :
  preserves budget_ok (futils.assemble_dir_loop final dirs create).
Proof.
  revert final. induction dirs as [|d dirs IH]; intros final; simpl.
  - budget.
  - unfold futils.create_folder. budget;
      try first [apply os_path_exists_budget | apply os_mkdir_budget | apply IH].
Qed.

Lemma assemble_dir_budget dirs create :
  preserves budget_ok (futils.assemble_dir dirs create).
Proof. apply assemble_dir_loop_budget. Qed.

Lemma readline_reverse_budget p : preserves budget_ok (futils.readline_reverse p).
Proof. unfold futils.readline_reverse. budget; try apply read_file_budget. Qed.

Lemma _set_as_modified_budget id : preserves budget_ok (pd._set_as_modified id).
Proof. unfold pd._set_as_modified. budget. Qed.

Lemma put_loaded_budget id d : preserves budget_ok (pd.put_loaded id d).
Proof. unfold pd.put_loaded. budget. Qed.

Lemma _default_if_nonexistent_budget id : preserves budget_ok (pd._default_if_nonexistent id).
Proof.
  unfold pd._default_if_nonexistent. budget;
    try first [apply put_loaded_budget | apply _set_as_modified_budget].
Qed.

Lemma on_loaded_budget {A} id (method : json -> json * res A) :
  preserves budget_ok (pd.on_loaded id method).
Proof. unfold pd.on_loaded. budget; try apply put_loaded_budget. Qed.

Lemma get_data_budget id key index default :
  preserves budget_ok (pd.get_data id key index default).
Proof.
  unfold pd.get_data. budget;
    try first [apply _default_if_nonexistent_budget | apply on_loaded_budget].
Qed.

Lemma set_data_budget id key val index set_func :
  preserves budget_ok (pd.set_data id key val index set_func).
Proof.
  unfold pd.set_data. budget;
    try first [apply _default_if_nonexistent_budget | apply on_loaded_budget
          | apply _set_as_modified_budget].
Qed.

Lemma load_from_file_at_budget n id limit :
  preserves budget_ok (kth.load_from_file_at n id limit).
Proof.
  revert limit. induction n as [|n IH]; intros limit; simpl.
  - budget.
  - budget; try first [apply assemble_dir_budget | apply os_path_exists_budget
                  | apply readline_reverse_budget | apply IH].
Qed.

Lemma kth_load_from_file_budget id limit fnum :
  preserves budget_ok (kth.load_from_file id limit fnum).
Proof.
  unfold kth.load_from_file. budget;
    try first [apply get_data_budget | apply load_from_file_at_budget].
Qed.

Lemma reg_external_url_budget id tweet usr_dict :
  preserves budget_ok (twab.reg_external_url id tweet usr_dict).
Proof. unfold twab.reg_external_url. budget. Qed.

Lemma dump_external_urls_for_usr_budget id :
  preserves budget_ok (twab.dump_external_urls_for_usr id).
Proof. unfold twab.dump_external_urls_for_usr. budget; try apply append_file_budget. Qed.

Lemma fetch_user_ids_budget us : preserves budget_ok (twab.fetch_user_ids us).
Proof. unfold twab.fetch_user_ids. budget; try apply connect_to_endpoint_budget. Qed.

Lemma fetch_round_budget u a b c d e : preserves budget_ok (twab.fetch_round u a b c d e).
Proof. unfold twab.fetch_round. budget; try apply connect_to_endpoint_budget. Qed.

Lemma next_budget u a b c d g : preserves budget_ok (twab.next u a b c d g).
Proof. unfold twab.next. budget; try apply fetch_round_budget. Qed.

Lemma media_loop_budget keys m2u n : preserves budget_ok (dlt.media_loop keys m2u n).
Proof.
  revert n. induction keys as [|k keys IH]; intros n; simpl.
  - budget.
  - unfold dlt.download_img. budget; try apply IH.
Qed.

Lemma process_tweet_for_media_budget t a b :
  preserves budget_ok (dlt.process_tweet_for_media t a b).
Proof. unfold dlt.process_tweet_for_media. budget; try apply media_loop_budget. Qed.

Lemma tweets_loop_budget u a b ig ts i n :
  preserves budget_ok (dlt.tweets_loop u a b ig ts i n).
Proof.
  revert i n. induction ts as [|t ts IH]; intros i n; simpl.
  - budget.
  - budget; try first [apply IH | apply process_tweet_for_media_budget
                  | apply reg_external_url_budget | apply set_data_budget].
Qed.

Lemma process_response_for_imgs_budget u r ig :
  preserves budget_ok (dlt.process_response_for_imgs u r ig).
Proof. unfold dlt.process_response_for_imgs. budget; try apply tweets_loop_budget. Qed.

Lemma liked_loop_budget fuel u ig g h i n :
  preserves budget_ok (dlt.liked_loop fuel u ig g h i n).
Proof.
  revert g h i n. induction fuel as [|fuel IH]; intros g h i n; simpl.
  - budget.
  - budget; try first [apply next_budget | apply process_response_for_imgs_budget | apply IH].
Qed.

Lemma process_usr_for_liked_budget u tok ig :
  preserves budget_ok (dlt.process_usr_for_liked u tok ig).
Proof. unfold dlt.process_usr_for_liked. budget; try apply liked_loop_budget. Qed.

Lemma main_budget username folder tok ig verbose :
  preserves budget_ok (dlt.main username folder tok ig verbose).
Proof.
  unfold dlt.main. budget;
    try first [apply fetch_user_ids_budget | apply kth_load_from_file_budget
          | apply assemble_dir_budget | apply process_usr_for_liked_budget
          | apply set_data_budget | apply dump_external_urls_for_usr_budget].
Qed.

(** ** Example worlds *)

Definition no_data : api_response := {| data := None; meta := None; includes := None |}.

Definition not_found : response := {| status_code := 404; response_json := no_data |}.

(** A world as the program finds it when it first starts in an empty
    working directory, talking to [srv]. *)
Definition init_world (srv : nat -> string -> response) : world :=
  {| w_fs := {| fs_dirs := ∅; fs_files := ∅; st_blksize := 4096 |};
     w_net := {| server := srv; sent := []; img_status := fun _ => 200;
                 today := "2022-06-01" |};
     w_pd := {| _loaded_data := ∅; _data_modified := [] |};
     w_twab := {| requests_count := 0; external_urls := ∅ |};
     w_dlt := {| is_verbose := false; processed_tweets := [];
                 new_processed_tweets := [] |} |}.

(** C10. The request budget: in a world where [requests_count] does not
    exceed [max_requests], a call of [connect_to_endpoint] leaves it so; once
    the count has reached [max_requests] the call raises [RequestCountError]
    and leaves the world as it was, so no request is sent; otherwise the
    request is sent, and the count goes up by one exactly when the status is
    200, while any other status raises [UnsuccessfulRequestError] with the
    count as it was.  A whole run of [main] keeps the count within the
    budget too. *)
Theorem request_budget_invariant (w : world) (url : string) :
  budget_ok w ->
  let r := twab.connect_to_endpoint url w in
  let response := server (w_net w) (length (sent (w_net w))) url in
  budget_ok (snd r) /\
  (if twab.max_requests <=? requests_count (w_twab w)
   then r = (Raise RequestCountError, w)
   else sent (w_net (snd r)) = sent (w_net w) ++ [url] /\
        if status_code response =? 200
        then fst r = Ok (response_json response) /\
             requests_count (w_twab (snd r)) = requests_count (w_twab w) + 1
        else fst r = Raise UnsuccessfulRequestError /\
             requests_count (w_twab (snd r)) = requests_count (w_twab w)) /\
  (forall username folder page_token ignore_processed verbose,
      budget_ok (snd (dlt.main username folder page_token ignore_processed verbose w))).
Proof.
  intros Hw. cbv zeta. split; [|split].
  - apply connect_to_endpoint_budget, Hw.
  - unfold twab.connect_to_endpoint, twab.requests_request, bind, gets, modify, ret, raise.
    simpl.
    destruct (twab.max_requests <=? requests_count (w_twab w)); [reflexivity|].
    simpl. destruct (status_code _ =? 200); simpl; repeat split; reflexivity.
  - intros. apply main_budget, Hw.
Qed.

Lemma request_budget_invariant_witness :
  budget_ok (init_world (fun _ _ => not_found)) /\
  budget_ok (snd (twab.connect_to_endpoint "https://api.twitter.com/2/users/by?usernames=a"
                    (init_world (fun _ _ => not_found)))).
Proof.
  assert (H : budget_ok (init_world (fun _ _ => not_found))).
  { unfold budget_ok. simpl. unfold twab.max_requests. lia. }
  split; [exact H|].
  apply (request_budget_invariant (init_world (fun _ _ => not_found)) _ H).
Defined.

(** A tweet with one photo attached, by the author with ID ["900"]. *)
Definition photo_tweet (id : string) : item :=
  {| item_id := id; author_id := "900"; created_at := "2022-05-01T10:00:00.000Z";
     attachments_media_keys := Some ["3_" +:+ id]; entities_urls := None |}.

(** A tweet with no media attached. *)
Definition text_tweet (id : string) : item :=
  {| item_id := id; author_id := "900"; created_at := "2022-05-01T10:00:00.000Z";
     attachments_media_keys := None; entities_urls := None |}.

Definition photo_of (t : item) : media :=
  {| media_key := "3_" +:+ item_id t; media_type := "photo";
     media_url := "https://pbs.twimg.com/media/" +:+ item_id t +:+ ".jpg" |}.

(** A page of liked tweets as the API sends it. *)
Definition page (tweets : list item) (next_token : option string) : api_response :=
  {| data := Some tweets; meta := Some next_token;
     includes := Some {| users := Some [("900", "artist")];
                         media_list := Some (map photo_of tweets) |} |}.

(** The answer to the lookup of a user name. *)
Definition user_lookup (usr_id : string) : api_response :=
  {| data := Some [text_tweet usr_id]; meta := None; includes := None |}.

Definition ok_response (body : api_response) : response :=
  {| status_code := 200; response_json := body |}.

(** A server for a user with more liked tweets than one run may fetch:
    the first request is the lookup of the user, every later one gets a
    page of one new tweet and a token for the next page. *)
Definition endless_server (n : nat) (url : string) : response :=
  match n with
  | O => ok_response (user_lookup "12345")
  | _ => ok_response (page [photo_tweet (pretty (Z.of_nat (5000 - n)))] (Some "7140dibdnow9c7btw"))
  end.

(** A server that answers the lookup and then fails every request. *)
Definition failing_server (n : nat) (url : string) : response :=
  match n with
  | O => ok_response (user_lookup "12345")
  | _ => not_found
  end.

(** A server for a user with a single liked tweet, ["7"]. *)
Definition one_tweet_server (n : nat) (url : string) : response :=
  match n with
  | O => ok_response (user_lookup "12345")
  | _ => ok_response (page [photo_tweet "7"] None)
  end.

(** ** What a run of [main] does *)

(** Once the budget is used up, the sync loop does not end with a halt
    reason: the [RequestCountError] of [connect_to_endpoint] is not the
    class its [except] clause names, and leaves [process_usr_for_liked]
    as an exception, the world untouched. *)
Lemma process_usr_for_liked_budget_exhausted usr_id page_token ignore_processed w :
  twab.max_requests <= requests_count (w_twab w) ->
  dlt.process_usr_for_liked usr_id page_token ignore_processed w = (Raise RequestCountError, w).
Proof.
  intros H. unfold dlt.process_usr_for_liked, bind, gets. simpl.
  unfold try_except, bind, twab.next, twab.fetch_round, twab.connect_to_endpoint, bind, gets.
  apply Z.leb_le in H. rewrite H. reflexivity.
Qed.

(** C2. With a server that always has one more page, a run of [main] makes
    its fifty requests (the user lookup and 49 pages) and then ends with
    the exception [RequestCountError] instead of the halt reason 1; the
    steps of [main] after the sync loop are not reached.  A request that
    fails is what the loop turns into halt reason 1. *)
Theorem request_count_error_escapes :
  let run := dlt.main "someone" None None false false (init_world endless_server) in
  fst run = Raise RequestCountError /\
  requests_count (w_twab (snd run)) = twab.max_requests /\
  length (new_processed_tweets (w_dlt (snd run))) = 49%nat /\
  _loaded_data (w_pd (snd run)) !! BuiltinId = None /\
  fst (dlt.process_usr_for_liked "12345" None false (init_world (fun _ _ => not_found)))
  = Ok (1, 0, 0).
Proof. vm_compute. repeat split; reflexivity. Qed.

(** C1. A run of [main] for a user with one new liked tweet ends normally
    with the tweet's ID in [new_processed_tweets], but nothing is written to
    the user's log: no file exists afterwards, a load of the log gives the
    empty list, the record of the user still holds the default counters, and
    the counters of the run are in a record kept under the builtin function
    [id]. *)
Theorem main_loses_accumulated_ids :
  let run := dlt.main "someone" None None false false (init_world one_tweet_server) in
  fst run = Ok tt /\
  new_processed_tweets (w_dlt (snd run)) = ["7"] /\
  fs_files (w_fs (snd run)) = ∅ /\
  fst (kth.load_from_file "12345" 3000 None (snd run)) = Ok [] /\
  _loaded_data (w_pd (snd run)) !! Id "12345" = Some pd.default_vals /\
  _loaded_data (w_pd (snd run)) !! BuiltinId =
    Some (JDict [("twt_db", JDict [("file_num", JInt 1); ("line_count", JList [])]);
                 ("liked_tweets", JDict [("count", JInt 1); ("with_external_urls", JInt 0)]);
                 ("imgs_downloaded", JInt 1);
                 ("requests_made", JInt 2)]).
Proof. vm_compute. repeat split; reflexivity. Qed.

(** ** The duplicate check of the sync loop *)

(** Proves [preserves P m] for a [P] that looks at one component of the
    world and an [m] that only writes other components. *)
Ltac frame :=
  repeat first
    [ pres_step
    | apply preserves_modify; intros ? HP; exact HP ].

Definition dlt_is (g : dlt_globals) (w : world) : Prop := w_dlt w = g.

Lemma on_loaded_dlt {A} g id (method : json -> json * res A) :
  preserves (dlt_is g) (pd.on_loaded id method).
Proof. unfold pd.on_loaded, pd.put_loaded. frame. Qed.

Lemma _default_if_nonexistent_dlt g id : preserves (dlt_is g) (pd._default_if_nonexistent id).
Proof. unfold pd._default_if_nonexistent, pd.put_loaded, pd._set_as_modified. frame. Qed.

Lemma set_data_dlt g id key val index set_func :
  preserves (dlt_is g) (pd.set_data id key val index set_func).
Proof.
  unfold pd.set_data, pd._set_as_modified. frame;
    try first [apply _default_if_nonexistent_dlt | apply on_loaded_dlt].
Qed.

Lemma media_loop_dlt g keys m2u n : preserves (dlt_is g) (dlt.media_loop keys m2u n).
Proof.
  revert n. induction keys as [|k keys IH]; intros n; simpl.
  - frame.
  - unfold dlt.download_img. frame; try apply IH.
Qed.

Lemma process_tweet_for_media_dlt g t a b :
  preserves (dlt_is g) (dlt.process_tweet_for_media t a b).
Proof. unfold dlt.process_tweet_for_media. frame. apply media_loop_dlt. Qed.

Lemma reg_external_url_dlt g id tweet usr_dict :
  preserves (dlt_is g) (twab.reg_external_url id tweet usr_dict).
Proof. unfold twab.reg_external_url. frame. Qed.

Definition has_media (t : item) : bool :=
  match attachments_media_keys t with Some _ => true | None => false end.

(** One round of the [for] loop for a tweet with media that is not a
    duplicate: everything between the duplicate check and the next round. *)
Definition take_tweet (usr_id : string) (id2usr media2url : list (string * string))
    (tweet : item) : Py Z :=
  imgs <- dlt.process_tweet_for_media tweet id2usr media2url ;;
  modify (set_dlt (fun g =>
    {| is_verbose := is_verbose g; processed_tweets := processed_tweets g;
       new_processed_tweets := new_processed_tweets g ++ [item_id tweet] |})) ;;
  (match entities_urls tweet with
   | Some _ =>
       r <- twab.reg_external_url usr_id tweet id2usr ;;
       if dlt.truthy r
       then pd.set_data (Id usr_id) "liked_tweets.with_external_urls" JNone None
              (Some mutils.add_one) ;; ret tt
       else ret tt
   | None => ret tt
   end) ;;
  ret imgs.

Lemma take_tweet_dlt usr_id id2usr m2u tweet w imgs w' :
  take_tweet usr_id id2usr m2u tweet w = (Ok imgs, w') ->
  is_verbose (w_dlt w') = is_verbose (w_dlt w) /\
  processed_tweets (w_dlt w') = processed_tweets (w_dlt w) /\
  new_processed_tweets (w_dlt w') = new_processed_tweets (w_dlt w) ++ [item_id tweet].
Proof.
  unfold take_tweet. intros H.
  unfold bind at 1 in H.
  pose proof (process_tweet_for_media_dlt (w_dlt w) tweet id2usr m2u w eq_refl) as H1.
  destruct (dlt.process_tweet_for_media tweet id2usr m2u w) as [[n|e] w1]; [|discriminate].
  unfold dlt_is in H1. simpl in H1.
  unfold bind at 1 in H. unfold modify at 1 in H.
  set (w2 := set_dlt _ w1) in H.
  assert (H2 : preserves (dlt_is (w_dlt w2))
                 (match entities_urls tweet with
                  | Some _ =>
                      r <- twab.reg_external_url usr_id tweet id2usr ;;
                      if dlt.truthy r
                      then pd.set_data (Id usr_id) "liked_tweets.with_external_urls" JNone None
                             (Some mutils.add_one) ;; ret tt
                      else ret tt
                  | None => ret tt
                  end)).
  { frame; try first [apply reg_external_url_dlt | apply set_data_dlt]. }
  specialize (H2 w2 eq_refl). unfold bind at 1 in H.
  match type of H2 with
  | dlt_is _ (snd ?c) => destruct c as [[[]|e] w3]; [|discriminate]
  end.
  unfold ret in H. injection H as <- <-. unfold dlt_is in H2. simpl in H2.
  rewrite H2. subst w2. simpl. rewrite H1. repeat split; reflexivity.
Qed.

(** The loop, one round at a time. *)
Lemma tweets_loop_cons usr_id id2usr m2u ig t rest i n w :
  dlt.tweets_loop usr_id id2usr m2u ig (t :: rest) i n w =
  if has_media t then
    if negb ig && bool_decide (item_id t ∈ processed_tweets (w_dlt w))
    then (Ok (2, i, n), w)
    else match take_tweet usr_id id2usr m2u t w with
         | (Ok imgs, w') => dlt.tweets_loop usr_id id2usr m2u ig rest (i + imgs) (n + 1) w'
         | (Raise e, w') => (Raise e, w')
         end
  else dlt.tweets_loop usr_id id2usr m2u ig rest i n w.
Proof.
  simpl. unfold has_media. destruct (attachments_media_keys t); [|reflexivity].
  unfold bind at 1. unfold gets at 1.
  destruct (negb ig && _); [reflexivity|].
  unfold take_tweet.
  set (P := dlt.process_tweet_for_media t id2usr m2u).
  match goal with |- context [bind (modify ?f)] => set (M := modify f) end.
  match goal with
  | |- context [bind ?e (fun _ => dlt.tweets_loop _ _ _ _ _ _ _)] => set (E := e)
  end.
  unfold bind, ret.
  destruct (P w) as [[imgs|e] w1]; [|reflexivity].
  destruct (M w1) as [[[]|e] w2]; [|reflexivity].
  destruct (E w2) as [[[]|e] w3]; reflexivity.
Qed.

(** A stretch of items that the loop gets through without halting. *)
Lemma tweets_loop_prefix usr_id id2usr m2u ig pre rest i n w i' n' w' :
  dlt.tweets_loop usr_id id2usr m2u ig pre i n w = (Ok (0, i', n'), w') ->
  dlt.tweets_loop usr_id id2usr m2u ig (pre ++ rest) i n w =
    dlt.tweets_loop usr_id id2usr m2u ig rest i' n' w' /\
  is_verbose (w_dlt w') = is_verbose (w_dlt w) /\
  processed_tweets (w_dlt w') = processed_tweets (w_dlt w) /\
  new_processed_tweets (w_dlt w') =
    new_processed_tweets (w_dlt w) ++ map item_id (filter (fun t => has_media t = true) pre).
Proof.
  revert i n w. induction pre as [|t pre IH]; intros i n w H.
  - simpl in H. unfold ret in H. injection H as <- <- <-.
    simpl. rewrite app_nil_r. auto.
  - rewrite <- app_comm_cons. rewrite tweets_loop_cons in *.
    rewrite filter_cons. destruct (has_media t) eqn:Hm.
    + destruct (negb ig && _); [discriminate|].
      destruct (take_tweet usr_id id2usr m2u t w) as [[imgs|e] w1] eqn:Ht; [|discriminate].
      apply take_tweet_dlt in Ht as (Hv & Hp & Hn).
      destruct (IH _ _ _ H) as (-> & Hv' & Hp' & Hn').
      rewrite decide_True by reflexivity.
      rewrite Hv', Hp', Hn', Hv, Hp, Hn. simpl. rewrite <- app_assoc. auto.
    + rewrite decide_False by discriminate. apply IH, H.
Qed.

(** A world in which the IDs 5, 4 and 3 have been loaded as known. *)
Definition known_world : world :=
  set_dlt (fun g => {| is_verbose := is_verbose g; processed_tweets := ["5"; "4"; "3"];
                       new_processed_tweets := new_processed_tweets g |})
          (init_world (fun _ _ => not_found)).

(** C3, as stated, fails: a tweet without media is passed over before its
    ID is looked at.  On the page 7, 6, 5, 4, 3 of tweets without media the
    known ID 5 (and 4, and 3) does not halt the run, and nothing is marked
    newly seen. *)
Lemma dedup_halt_counterexample :
  let api_response_ := page (map text_tweet ["7"; "6"; "5"; "4"; "3"]) None in
  let run := dlt.process_response_for_imgs "12345" api_response_ false known_world in
  "5" ∈ processed_tweets (w_dlt known_world) /\
  fst run = Ok (0, 0, Some 0) /\
  new_processed_tweets (w_dlt (snd run)) = [].
Proof.
  cbv zeta. split; [|split].
  - apply (bool_decide_unpack _). vm_compute. exact I.
  - vm_compute. reflexivity.
  - vm_compute. reflexivity.
Qed.

(** C3, amended.  Let [t] be an item of a page that carries media
    ([attachments.media_keys]) and whose ID is in the known set, and let the
    loop get through the items [pre] before it without halting.  Then, with
    [ignore_processed] false, the page ends with halt reason 2 in the world
    the items before [t] left: the IDs marked newly seen are those of the
    items of [pre] that carry media, and neither [t] nor the items [post]
    after it add anything.  The sync loop that got the page from the
    generator returns with halt reason 2 at once, in that same world, so no
    further page is requested. *)
Theorem duplicate_with_media_halts (w w' : world) (usr_id : string)
    (api_response_ : api_response) (pre post : list item) (t : item)
    (media2url : list (string * string)) (imgs n : Z) :
  data api_response_ = Some (pre ++ t :: post) ->
  meta api_response_ <> None ->
  dlt.gen_media2url api_response_ = Ok media2url ->
  has_media t = true ->
  item_id t ∈ processed_tweets (w_dlt w) ->
  dlt.tweets_loop usr_id (dlt.gen_id2usr api_response_) media2url false pre 0 0 w
    = (Ok (0, imgs, n), w') ->
  dlt.process_response_for_imgs usr_id api_response_ false w = (Ok (2, imgs, Some n), w') /\
  new_processed_tweets (w_dlt w') =
    new_processed_tweets (w_dlt w) ++ map item_id (filter (fun t => has_media t = true) pre) /\
  (forall fuel liked_tweets liked_tweets' w0 halt img_count tweet_count,
      twab.next usr_id (Some "author_id,attachments.media_keys") (Some "created_at,entities")
        None (Some "url") liked_tweets w0 = (Ok (Some api_response_, liked_tweets'), w) ->
      dlt.liked_loop (S fuel) usr_id false liked_tweets halt img_count tweet_count w0
      = (Ok (2, img_count + imgs, tweet_count + n), w')).
Proof.
  intros Hdata Hmeta Hm2u Hmedia Hknown Hpre.
  destruct (tweets_loop_prefix _ _ _ _ _ (t :: post) _ _ _ _ _ _ Hpre) as (Happ & Hv & Hp & Hn).
  assert (Hrun : dlt.process_response_for_imgs usr_id api_response_ false w
                 = (Ok (2, imgs, Some n), w')).
  { unfold dlt.process_response_for_imgs. rewrite Hdata, Hm2u.
    unfold lift. unfold bind at 1. unfold bind at 1.
    rewrite Happ, tweets_loop_cons, Hmedia. simpl negb. rewrite andb_true_l.
    rewrite bool_decide_eq_true_2 by (rewrite Hp; exact Hknown). reflexivity. }
  split; [exact Hrun|]. split; [exact Hn|].
  intros fuel g g' w0 halt i c Hnext. simpl. unfold try_except.
  rewrite (bind_ok _ _ _ _ _ Hnext). rewrite (bind_ok _ _ _ _ _ Hrun).
  unfold bind, gets. destruct (is_verbose (w_dlt w')).
  - destruct (meta api_response_); [reflexivity | congruence].
  - reflexivity.
Qed.

Lemma duplicate_with_media_halts_witness :
  let api_response_ := page (map photo_tweet ["7"; "6"; "5"; "4"; "3"]) None in
  let run := dlt.process_response_for_imgs "12345" api_response_ false known_world in
  "5" ∈ processed_tweets (w_dlt known_world) /\
  fst run = Ok (2, 2, Some 2) /\
  new_processed_tweets (w_dlt (snd run)) = ["7"; "6"].
Proof.
  cbv zeta.
  assert (Hin : "5" ∈ processed_tweets (w_dlt known_world)).
  { apply (bool_decide_unpack _). vm_compute. exact I. }
  split; [exact Hin|].
  pose (api_response_ := page (map photo_tweet ["7"; "6"; "5"; "4"; "3"]) None).
  pose (m2u := [("3_7", "https://pbs.twimg.com/media/7.jpg");
                ("3_6", "https://pbs.twimg.com/media/6.jpg");
                ("3_5", "https://pbs.twimg.com/media/5.jpg");
                ("3_4", "https://pbs.twimg.com/media/4.jpg");
                ("3_3", "https://pbs.twimg.com/media/3.jpg")]).
  pose (w' := snd (dlt.tweets_loop "12345" (dlt.gen_id2usr api_response_) m2u false
                     (map photo_tweet ["7"; "6"]) 0 0 known_world)).
  destruct (duplicate_with_media_halts known_world w' "12345" api_response_
              (map photo_tweet ["7"; "6"]) (map photo_tweet ["4"; "3"]) (photo_tweet "5")
              m2u 2 2) as (Hrun & Hnew & _).
  - reflexivity.
  - discriminate.
  - vm_compute. reflexivity.
  - reflexivity.
  - exact Hin.
  - vm_compute. reflexivity.
  - fold api_response_. rewrite Hrun. split; [reflexivity|].
    simpl snd. rewrite Hnew. vm_compute. reflexivity.
Defined.

(** ** The flush of the metadata store *)

(** The file system stays a file system when one of its files is written. *)
Lemma fs_is_dir_put p q b fs : fs_is_dir p (fs_put q b fs) = fs_is_dir p fs.
Proof. reflexivity. Qed.


Lemma write_file_spec p b w :
  fs_is_dir p (w_fs w) = false ->
  fs_is_dir (parent p) (w_fs w) = true ->
  write_file p b w = (Ok tt, set_fs (fs_put p b) w).
Proof.
  intros Hf Hp. unfold write_file, bind, gets. rewrite Hf, Hp. reflexivity.
Qed.




(** A world with a directory ["abc"] in which the record of the user
    ["abc"] has just been created, and so is marked as modified. *)
Definition dirty_world : world :=
  snd (pd.get_data (Id "abc") None None JNone
         (snd (os_mkdir ["abc"] (init_world (fun _ _ => not_found))))).





(** ** Lines of a file *)

Section Split.
Variable sep : ascii.

Lemma split_on_nonempty l : split_on sep l <> [].
Proof.
  destruct l as [|c l]; simpl; [discriminate|].
  destruct (Ascii.eqb c sep); [discriminate|].
  destruct (split_on sep l); discriminate.
Qed.

Lemma split_on_sep_free l : Forall (fun c => c <> sep) l -> split_on sep l = [l].
Proof.
  induction 1 as [|c l Hc _ IH]; simpl; [reflexivity|].
  apply Ascii.eqb_neq in Hc. rewrite Hc, IH. reflexivity.
Qed.

Lemma add_to_last_nil ls : futils.add_to_last ls [] = ls.
Proof.
  induction ls as [|l ls IH]; simpl; [reflexivity|].
  destruct ls; [rewrite app_nil_r; reflexivity|]. rewrite IH. reflexivity.
Qed.

Lemma add_to_last_cons l ls lo :
  ls <> [] -> futils.add_to_last (l :: ls) lo = l :: futils.add_to_last ls lo.
Proof. destruct ls; [congruence | reflexivity]. Qed.

Lemma add_to_last_nonempty ls lo : ls <> [] -> futils.add_to_last ls lo <> [].
Proof. destruct ls as [|l [|l' ls]]; simpl; congruence. Qed.

(** Splitting a concatenation: the last piece of the front joins the first
    piece of the back. *)
Lemma split_on_app a b h T :
  split_on sep b = h :: T ->
  split_on sep (a ++ b) = futils.add_to_last (split_on sep a) h ++ T.
Proof.
  intros Hb. induction a as [|c a IH]; simpl.
  - exact Hb.
  - destruct (Ascii.eqb c sep).
    + rewrite IH. rewrite add_to_last_cons by apply split_on_nonempty. reflexivity.
    + rewrite IH. pose proof (split_on_nonempty a) as Hne.
      destruct (split_on sep a) as [|w [|w2 ws]]; [congruence | reflexivity | reflexivity].
Qed.

Lemma split_on_app_free a lo :
  Forall (fun c => c <> sep) lo ->
  split_on sep (a ++ lo) = futils.add_to_last (split_on sep a) lo.
Proof.
  intros Hlo. rewrite (split_on_app a lo lo []) by (apply split_on_sep_free, Hlo).
  apply app_nil_r.
Qed.

Lemma split_on_pieces_free l : Forall (Forall (fun c => c <> sep)) (split_on sep l).
Proof.
  induction l as [|c l IH]; simpl.
  - repeat constructor.
  - destruct (Ascii.eqb c sep) eqn:E.
    + constructor; [constructor | exact IH].
    + apply Ascii.eqb_neq in E.
      destruct (split_on sep l) as [|w ws]; [repeat constructor; exact E|].
      inversion IH; subst. constructor; [constructor; assumption | assumption].
Qed.

End Split.

Lemma yield_lines_eq ls :
  futils.yield_lines ls =
  filter (fun l => futils.nonempty_str l = true)
         (map (fun l => futils.str_strip (decode l)) ls).
Proof.
  unfold futils.yield_lines. f_equal.
Qed.

Lemma yield_lines_app xs ys :
  futils.yield_lines (xs ++ ys) = futils.yield_lines xs ++ futils.yield_lines ys.
Proof. rewrite !yield_lines_eq, map_app, filter_app. reflexivity. Qed.

(** What the end of [readline_reverse] yields for the last [leftover]. *)
Definition final_line (leftover : option bytes) : list string :=
  match futils._decode_and_strip leftover with
  | Some l => if futils.nonempty_str l then [l] else []
  | None => []
  end.

Lemma final_line_some lo : final_line (Some lo) = futils.yield_lines [lo].
Proof.
  unfold final_line. rewrite yield_lines_eq. simpl. rewrite filter_cons, filter_nil.
  destruct (futils.nonempty_str _); [rewrite decide_True by reflexivity
                                    | rewrite decide_False by discriminate]; reflexivity.
Qed.

Lemma yield_lines_empty : futils.yield_lines [[]] = [].
Proof. reflexivity. Qed.

(** The chunked loop: with [k] bytes of the file still to read and the
    unfinished line [leftover] in hand, the lines yet to come are those of
    the first [k] bytes followed by [leftover], last line first. *)
Lemma readline_reverse_loop_spec sep content buff_size :
  0 < buff_size ->
  forall fuel k r_size leftover,
    (k <= length content)%nat -> (k < fuel)%nat ->
    (k = 0%nat -> r_size <= 0) -> (k <> 0%nat -> r_size = Z.of_nat k) ->
    Forall (fun c => c <> sep) (default [] leftover) ->
    let n := Z.of_nat (length content) in
    let '(ys, lo) := futils.readline_reverse_loop fuel sep content buff_size n
                       (n - Z.of_nat k) r_size leftover in
    ys ++ final_line lo =
    futils.yield_lines (rev (split_on sep (take k content ++ default [] leftover))).
Proof.
  intros HB. induction fuel as [|fuel IH]; intros k r leftover Hk Hfuel Hr0 Hr Hlo; [lia|].
  cbv zeta. simpl futils.readline_reverse_loop.
  destruct (Nat.eq_dec k 0%nat) as [->|Hk0].
  - specialize (Hr0 eq_refl). replace (0 <? r) with false by (symmetry; apply Z.ltb_ge; lia).
    simpl. destruct leftover as [lo|]; simpl.
    + rewrite final_line_some, split_on_sep_free by exact Hlo. reflexivity.
    + reflexivity.
  - specialize (Hr Hk0). subst r.
    replace (0 <? Z.of_nat k) with true by (symmetry; apply Z.ltb_lt; lia).
    set (n := Z.of_nat (length content)).
    set (k' := (k - Z.to_nat (Z.min (Z.of_nat k) buff_size))%nat).
    assert (Hoff : n - Z.min n (n - Z.of_nat k + buff_size) = Z.of_nat k') by (subst n k'; lia).
    rewrite Hoff. rewrite Nat2Z.id.
    set (buffer := take (Z.to_nat (Z.min (Z.of_nat k) buff_size)) (drop k' content)).
    assert (Htake : take k content = take k' content ++ buffer).
    { subst buffer. rewrite take_take_drop. f_equal. subst k'. lia. }
    set (lo := default [] leftover) in *.
    match goal with
    | |- context [head ?lines] =>
        assert (Hlines : lines = split_on sep (buffer ++ lo));
          [|rewrite Hlines; clear Hlines]
    end.
    { rewrite split_on_app_free by exact Hlo. subst lo.
      destruct leftover as [[|c lo0]|]; simpl; rewrite ?add_to_last_nil; reflexivity. }
    pose proof (split_on_nonempty sep (buffer ++ lo)) as Hne.
    pose proof (split_on_pieces_free sep (buffer ++ lo)) as Hfree.
    destruct (split_on sep (buffer ++ lo)) as [|h T] eqn:Hsplit; [congruence|].
    change (head (h :: T)) with (Some h). change (tail (h :: T)) with T.
    assert (Hoff' : Z.min n (n - Z.of_nat k + buff_size) = n - Z.of_nat k') by lia.
    rewrite Hoff'.
    specialize (IH k' (Z.of_nat k - buff_size) (Some h)).
    cbv zeta in IH. fold n in IH.
    destruct (futils.readline_reverse_loop fuel sep content buff_size n
                (n - Z.of_nat k') (Z.of_nat k - buff_size) (Some h)) as [rest lo'].
    rewrite <- app_assoc. rewrite IH.
    + simpl default. rewrite Htake, <- app_assoc.
      rewrite (split_on_app sep (take k' content) (buffer ++ lo) h T Hsplit).
      rewrite <- split_on_app_free by (inversion Hfree; assumption).
      rewrite rev_app_distr, yield_lines_app. reflexivity.
    + subst k'. lia.
    + subst k'. lia.
    + subst k'. lia.
    + subst k'. lia.
    + simpl. inversion Hfree; assumption.
Qed.

(** [readline_reverse] yields the lines of the file from the last to the
    first, whatever the size of the chunks it reads. *)
Lemma reverse_lines_spec sep blk content :
  futils.reverse_lines sep blk content = futils.yield_lines (rev (split_on sep content)).
Proof.
  unfold futils.reverse_lines.
  set (B := Z.min (Z.max futils.MIN_BUFF_SIZE blk) futils.MAX_BUFF_SIZE).
  assert (HB : 0 < B) by (subst B; unfold futils.MIN_BUFF_SIZE, futils.MAX_BUFF_SIZE; lia).
  pose proof (readline_reverse_loop_spec sep content B HB (S (length content))
                (length content) (Z.of_nat (length content)) None) as H.
  cbv zeta in H. rewrite Z.sub_diag in H.
  destruct (futils.readline_reverse_loop _ _ _ _ _ _ _ _) as [ys lo].
  fold (final_line lo). rewrite H; try lia.
  - simpl default. rewrite app_nil_r, firstn_all. reflexivity.
  - constructor.
Qed.

(** An ID the log can hold: not empty and free of white space. *)
Definition is_id (s : string) : bool :=
  futils.nonempty_str s && forallb (fun c => negb (is_space c)) (encode s).

Lemma decode_encode s : decode (encode s) = s.
Proof. apply string_of_list_ascii_of_string. Qed.

Lemma encode_decode l : encode (decode l) = l.
Proof. apply list_ascii_of_string_of_list_ascii. Qed.

Lemma lstrip_no_space l : forallb (fun c => negb (is_space c)) l = true -> lstrip l = l.
Proof.
  destruct l as [|c l]; simpl; [reflexivity|].
  intros H. apply andb_true_iff in H as [Hc _]. apply negb_true_iff in Hc. rewrite Hc.
  reflexivity.
Qed.

Lemma forallb_rev {A} (f : A -> bool) l : forallb f (rev l) = forallb f l.
Proof.
  induction l as [|x l IH]; simpl; [reflexivity|].
  rewrite forallb_app, IH. simpl. rewrite andb_true_r. apply andb_comm.
Qed.

Lemma strip_no_space l : forallb (fun c => negb (is_space c)) l = true -> strip l = l.
Proof.
  intros H. unfold strip. rewrite (lstrip_no_space l H).
  rewrite lstrip_no_space by (rewrite forallb_rev; exact H). apply rev_involutive.
Qed.

Lemma str_strip_id s : is_id s = true -> futils.str_strip (decode (encode s)) = s.
Proof.
  intros H. apply andb_true_iff in H as [_ H].
  unfold futils.str_strip. rewrite decode_encode, strip_no_space by exact H.
  apply decode_encode.
Qed.

Lemma is_id_no (sep : ascii) s :
  is_space sep = true -> is_id s = true -> Forall (fun c => c <> sep) (encode s).
Proof.
  intros Hsep H. apply andb_true_iff in H as [_ H].
  rewrite forallb_forall in H. apply Forall_forall. intros c Hc ->.
  apply list_elem_of_In, H in Hc. rewrite Hsep in Hc. discriminate.
Qed.

Lemma split_on_line sep l rest :
  Forall (fun c => c <> sep) l ->
  split_on sep (l ++ sep :: rest) = l :: split_on sep rest.
Proof.
  induction 1 as [|c l Hc _ IH]; simpl.
  - rewrite Ascii.eqb_refl. reflexivity.
  - apply Ascii.eqb_neq in Hc. rewrite Hc, IH. reflexivity.
Qed.

Lemma split_id_lines ids :
  Forall (fun s => is_id s = true) ids ->
  split_on LF (kth.id_lines ids) = map encode ids ++ [[]].
Proof.
  induction 1 as [|t ids Ht _ IH]; [reflexivity|].
  unfold kth.id_lines in *. simpl. rewrite <- app_assoc. simpl.
  rewrite split_on_line by (apply is_id_no; [reflexivity | exact Ht]).
  rewrite IH. reflexivity.
Qed.

Lemma yield_lines_ids ids :
  Forall (fun s => is_id s = true) ids ->
  futils.yield_lines (map encode ids) = ids.
Proof.
  rewrite yield_lines_eq. induction 1 as [|t ids Ht _ IH]; [reflexivity|].
  simpl. rewrite filter_cons, IH, str_strip_id by exact Ht.
  apply andb_true_iff in Ht as [Ht _]. rewrite decide_True by exact Ht. reflexivity.
Qed.

(** Reading a segment file back gives its IDs, newest first. *)
Lemma reverse_lines_id_lines blk ids :
  Forall (fun s => is_id s = true) ids ->
  futils.reverse_lines LF blk (kth.id_lines ids) = rev ids.
Proof.
  intros H. rewrite reverse_lines_spec, split_id_lines by exact H.
  rewrite rev_app_distr. simpl rev at 1. simpl app at 1.
  change ([] :: rev (map encode ids)) with ([[]] ++ rev (map encode ids)).
  rewrite yield_lines_app, yield_lines_empty, <- map_rev. simpl.
  apply yield_lines_ids. apply Forall_rev. exact H.
Qed.

Lemma universal_newlines_no_cr b :
  Forall (fun c => c <> CR) b -> kth.universal_newlines b = b.
Proof.
  induction 1 as [|c b Hc _ IH]; simpl; [reflexivity|].
  apply Ascii.eqb_neq in Hc. rewrite Hc, IH. reflexivity.
Qed.

Lemma id_lines_no_cr ids :
  Forall (fun s => is_id s = true) ids -> Forall (fun c => c <> CR) (kth.id_lines ids).
Proof.
  induction 1 as [|t ids Ht _ IH]; [constructor|].
  unfold kth.id_lines in *. simpl. rewrite <- app_assoc.
  apply Forall_app. split; [apply is_id_no; [reflexivity | exact Ht]|].
  constructor; [discriminate | exact IH].
Qed.

(** Reading a temp file back gives its IDs in the order written. *)
Lemma temp_lines_id_lines ids :
  Forall (fun s => is_id s = true) ids -> kth.temp_lines (kth.id_lines ids) = ids.
Proof.
  intros H. unfold kth.temp_lines.
  rewrite universal_newlines_no_cr by (apply id_lines_no_cr, H).
  rewrite split_id_lines by exact H.
  pose proof (yield_lines_ids ids H) as Hy. rewrite yield_lines_eq in Hy.
  rewrite map_app, filter_app, Hy. simpl. rewrite app_nil_r. reflexivity.
Qed.

(** ** What a load returns, as a function of the lines on disk *)

(** [load_from_file] clamps its limit first. *)
Definition clamp_limit (limit : Z) : Z :=
  if (limit <? 1) || (10000 <? limit) then 10000 else limit.

Lemma clamp_limit_range limit : 1 <= clamp_limit limit <= 10000.
Proof.
  unfold clamp_limit.
  destruct (limit <? 1) eqn:E1; simpl; [lia|].
  destruct (10000 <? limit) eqn:E2; [lia|].
  apply Z.ltb_ge in E1, E2. lia.
Qed.

Lemma clamp_limit_id limit : 1 <= limit <= 10000 -> clamp_limit limit = limit.
Proof.
  intros H. unfold clamp_limit.
  replace (limit <? 1) with false by (symmetry; apply Z.ltb_ge; lia).
  replace (10000 <? limit) with false by (symmetry; apply Z.ltb_ge; lia).
  reflexivity.
Qed.


(** The lines [load_from_file] returns when the segment files, from the
    head segment back to segment 1, yield the lines [segs], each segment
    from its last line to its first. *)
Fixpoint load_lines (limit : Z) (segs : list (list string)) : list string :=
  let limit := clamp_limit limit in
  match segs with
  | [] => []
  | lines :: older =>
      let '(twts, count) := kth.collect limit lines [] 0 in
      if limit <? 1 then twts ++ load_lines limit older
      else if count <? limit then twts ++ load_lines (limit - count) older
      else twts
  end.


(** The loop over one segment: it adds lines that are not in [twts] yet,
    in order, and counts them. *)
Lemma collect_spec limit lines : 0 < limit ->
  forall twts count,
    count = Z.of_nat (length twts) -> count <= limit -> NoDup twts ->
    exists added,
      kth.collect limit lines twts count = (twts ++ added, count + Z.of_nat (length added)) /\
      NoDup (twts ++ added) /\
      count + Z.of_nat (length added) <= limit /\
      (forall x, x ∈ added -> x ∈ lines) /\
      (count + Z.of_nat (length added) < limit -> forall x, x ∈ lines -> x ∈ twts ++ added) /\
      (NoDup (twts ++ take (Z.to_nat (limit - count)) lines) ->
       added = take (Z.to_nat (limit - count)) lines).
Proof.
  intros Hlim. induction lines as [|l lines IH]; intros twts count Hc Hle Hnd.
  - exists []. simpl. rewrite app_nil_r, Z.add_0_r. repeat split; try assumption.
    + intros x Hx. inversion Hx.
    + intros _ x Hx. inversion Hx.
    + intros _. rewrite take_nil. reflexivity.
  - simpl. destruct (limit <=? count) eqn:E.
    + apply Z.leb_le in E. replace (0 <? limit) with true by (symmetry; apply Z.ltb_lt; lia).
      simpl. exists []. simpl. rewrite app_nil_r, Z.add_0_r. repeat split; try assumption.
      * intros x Hx. inversion Hx.
      * lia.
      * intros _. replace (Z.to_nat (limit - count)) with 0%nat by lia. reflexivity.
    + apply Z.leb_gt in E. simpl. case_bool_decide as Hin.
      * destruct (IH twts count Hc Hle Hnd) as (added & Hrun & Hnd' & Hle' & Hsub & Hall & Htake).
        exists added. repeat split; try assumption.
        -- intros x Hx. right. apply Hsub, Hx.
        -- intros Hlt x Hx. apply elem_of_cons in Hx as [->|Hx];
             [apply elem_of_app; left; exact Hin | apply Hall; assumption].
        -- intros Hnd2. exfalso.
           destruct (Z.to_nat (limit - count)) as [|m] eqn:Em; [lia|].
           simpl in Hnd2. apply NoDup_app in Hnd2 as (_ & Hdisj & _).
           apply (Hdisj l Hin). left.
      * destruct (IH (twts ++ [l]) (count + 1)) as (added & Hrun & Hnd' & Hle' & Hsub & Hall & Htake).
        -- rewrite length_app. simpl. lia.
        -- lia.
        -- apply NoDup_app. repeat split; [exact Hnd | | apply NoDup_singleton].
           intros x Hx Hx'. apply list_elem_of_singleton in Hx'. subst. contradiction.
        -- exists (l :: added). rewrite <- app_assoc in Hrun, Hnd', Hall, Htake.
           simpl app in Hrun, Hnd', Hall, Htake.
           assert (E1 : count + Z.of_nat (length (l :: added))
                        = count + 1 + Z.of_nat (length added)) by (simpl length; lia).
           rewrite E1.
           split; [exact Hrun|]. split; [exact Hnd'|]. split; [exact Hle'|]. split; [|split].
           ++ intros x Hx. apply elem_of_cons in Hx as [->|Hx]; [left | right; apply Hsub, Hx].
           ++ intros Hlt x Hx. apply elem_of_cons in Hx as [->|Hx].
              ** apply elem_of_app. right. left.
              ** apply Hall; assumption.
           ++ intros Hnd2.
              replace (Z.to_nat (limit - count)) with (S (Z.to_nat (limit - (count + 1))))
                in * by lia.
              simpl in *. f_equal. apply Htake. exact Hnd2.
Qed.

(** One segment of a load. *)
Lemma load_lines_cons limit lines older :
  exists added,
    let L := clamp_limit limit in
    let count := Z.of_nat (length added) in
    load_lines limit (lines :: older) =
      (if count <? L then added ++ load_lines (L - count) older else added) /\
    NoDup added /\ count <= L /\
    (forall x, x ∈ added -> x ∈ lines) /\
    (count < L -> forall x, x ∈ lines -> x ∈ added) /\
    (NoDup (take (Z.to_nat L) lines) -> added = take (Z.to_nat L) lines).
Proof.
  pose proof (clamp_limit_range limit) as HL.
  destruct (collect_spec (clamp_limit limit) lines ltac:(lia) [] 0 eq_refl ltac:(lia)
              NoDup_nil_2) as (added & Hrun & Hnd & Hle & Hsub & Hall & Htake).
  simpl in Hrun, Hnd, Hle, Hall, Htake. rewrite Z.sub_0_r in Htake.
  exists added. cbv zeta. simpl load_lines. rewrite Hrun.
  replace (clamp_limit limit <? 1) with false by (symmetry; apply Z.ltb_ge; lia).
  repeat split; assumption.
Qed.






(** When the newest [limit] lines are distinct, they are what is returned. *)
Lemma load_lines_take limit segs :
  1 <= limit <= 10000 ->
  NoDup (take (Z.to_nat limit) (concat segs)) ->
  load_lines limit segs = take (Z.to_nat limit) (concat segs).
Proof.
  revert limit. induction segs as [|lines older IH]; intros limit Hlim Hnd.
  - simpl. rewrite take_nil. reflexivity.
  - destruct (load_lines_cons limit lines older) as (added & -> & _ & _ & _ & _ & Htake).
    rewrite clamp_limit_id in * by exact Hlim.
    simpl concat in *. rewrite take_app in Hnd.
    apply NoDup_app in Hnd as (Hnd1 & _ & Hnd2).
    rewrite (Htake Hnd1). rewrite length_take.
    destruct (Z.of_nat (Z.to_nat limit `min` length lines) <? limit) eqn:E.
    + apply Z.ltb_lt in E. assert (Hshort : (length lines < Z.to_nat limit)%nat) by lia.
      rewrite take_app. rewrite (take_ge lines) by lia. f_equal.
      rewrite Nat.min_r by lia.
      replace (Z.to_nat limit - length lines)%nat
        with (Z.to_nat (limit - Z.of_nat (length lines))) in * by lia.
      apply IH; [lia | exact Hnd2].
    + apply Z.ltb_ge in E. rewrite take_app_le by lia. reflexivity.
Qed.

(** ** Directories *)

(** What [create_folder] does to the file system when it succeeds. *)
Definition ensure_dir (p : path) (fs : filesystem) : filesystem :=
  if fs_exists p fs then fs else fs_add_dir p fs.

Lemma set_fs_id w : set_fs (fun fs => fs) w = w.
Proof. destruct w. reflexivity. Qed.

Lemma create_folder_inv p w r w' :
  futils.create_folder p w = (Ok r, w') ->
  r = p /\ w' = set_fs (ensure_dir p) w /\ fs_exists p (w_fs w') = true.
Proof.
  unfold futils.create_folder, os_path_exists, os_mkdir, bind, gets, ret, raise, modify.
  unfold ensure_dir. destruct (fs_exists p (w_fs w)) eqn:E; simpl.
  - intros H. injection H as <- <-.
    split; [reflexivity|]. split; [|exact E]. destruct w as [fs ? ? ? ?]. simpl in *.
    unfold set_fs. simpl. rewrite E. reflexivity.
  - rewrite E. destruct (negb (fs_is_dir (parent p) (w_fs w))); [discriminate|].
    intros H. injection H as <- <-. split; [reflexivity|]. split.
    + destruct w as [fs ? ? ? ?]. unfold set_fs. simpl in *. rewrite E. reflexivity.
    + unfold fs_exists, fs_is_dir, fs_add_dir. simpl.
      rewrite (bool_decide_eq_true_2 (p ∈ {[p]} ∪ _)) by set_solver.
      rewrite orb_true_r. reflexivity.
Qed.

Lemma create_folder_exists p w :
  fs_exists p (w_fs w) = true -> futils.create_folder p w = (Ok p, w).
Proof.
  intros E. unfold futils.create_folder, os_path_exists, bind, gets, ret. rewrite E.
  reflexivity.
Qed.

Lemma create_folder_new p w :
  fs_exists p (w_fs w) = false -> fs_is_dir (parent p) (w_fs w) = true ->
  futils.create_folder p w = (Ok p, set_fs (fs_add_dir p) w).
Proof.
  intros E Hp. unfold futils.create_folder, os_path_exists, os_mkdir, bind, gets, ret, modify.
  rewrite E. simpl. rewrite E, Hp. reflexivity.
Qed.

Lemma fs_exists_ensure_dir q p fs :
  fs_exists q fs = true -> fs_exists q (ensure_dir p fs) = true.
Proof.
  unfold ensure_dir. destruct (fs_exists p fs); [auto|].
  unfold fs_exists, fs_is_dir, fs_add_dir. simpl. intros H.
  apply orb_true_iff in H as [H|H]; [|rewrite H; apply orb_true_r].
  apply orb_true_iff in H as [H|H]; [rewrite H; reflexivity|].
  apply bool_decide_eq_true in H.
  rewrite (bool_decide_eq_true_2 (q ∈ {[p]} ∪ _)) by set_solver.
  rewrite orb_true_r. reflexivity.
Qed.

(** A world that differs from another in its directories only, and has
    all of the other's. *)
Definition more_dirs (w w' : world) : Prop :=
  w_net w' = w_net w /\ w_pd w' = w_pd w /\ w_twab w' = w_twab w /\ w_dlt w' = w_dlt w /\
  fs_files (w_fs w') = fs_files (w_fs w) /\ st_blksize (w_fs w') = st_blksize (w_fs w) /\
  fs_dirs (w_fs w) ⊆ fs_dirs (w_fs w').

Lemma more_dirs_refl w : more_dirs w w.
Proof. unfold more_dirs. repeat split; reflexivity. Qed.

Lemma more_dirs_trans w1 w2 w3 : more_dirs w1 w2 -> more_dirs w2 w3 -> more_dirs w1 w3.
Proof.
  unfold more_dirs. intros (?&?&?&?&?&?&?) (?&?&?&?&?&?&?).
  repeat split; try congruence. set_solver.
Qed.

Lemma more_dirs_ensure_dir p w : more_dirs w (set_fs (ensure_dir p) w).
Proof.
  unfold more_dirs, ensure_dir. destruct w as [fs ? ? ? ?]. simpl.
  destruct (fs_exists p fs); simpl; repeat split; try reflexivity. set_solver.
Qed.

(** If [assemble_dir] succeeds, it has only added directories, and a
    second call in the world it leaves gives the same path and changes
    nothing. *)
Lemma assemble_dir_loop_inv dirs : forall final w p w1,
  futils.assemble_dir_loop final dirs true w = (Ok p, w1) ->
  more_dirs w w1 /\
  (forall q, fs_exists q (w_fs w) = true -> fs_exists q (w_fs w1) = true) /\
  futils.assemble_dir_loop final dirs true w1 = (Ok p, w1).
Proof.
  induction dirs as [|d dirs IH]; intros final w p w1 H; simpl in *.
  - unfold ret in H. injection H as <- <-. split; [apply more_dirs_refl|]. auto.
  - unfold bind at 1 in H. unfold lift at 1 in H.
    unfold bind at 1. unfold lift at 1.
    destruct (futils.verify_dir_name d) as [name|e]; [|discriminate].
    unfold bind at 1 in H.
    destruct (futils.create_folder (final ++ [name]) w) as [[r|e] w'] eqn:Hc; [|discriminate].
    apply create_folder_inv in Hc as (-> & -> & Hex).
    destruct (IH _ _ _ _ H) as (Hmore & Hmono & Hagain).
    split; [eapply more_dirs_trans; [apply more_dirs_ensure_dir | exact Hmore]|].
    split.
    + intros q Hq. apply Hmono. simpl. apply fs_exists_ensure_dir, Hq.
    + unfold bind at 1. rewrite create_folder_exists by (apply Hmono, Hex). exact Hagain.
Qed.

Lemma assemble_dir_inv dirs w p w1 :
  futils.assemble_dir dirs true w = (Ok p, w1) ->
  more_dirs w w1 /\ futils.assemble_dir dirs true w1 = (Ok p, w1).
Proof.
  intros H. apply assemble_dir_loop_inv in H as (Hm & _ & Ha). split; assumption.
Qed.

(** ** Loading the log *)

Definition log_dir (id : string) : list string := [id; "known_tweets"].

(** One call of [load_from_file] whose segment file is missing; [w1] is
    the world once the directory of the log has been assembled. *)
Lemma load_from_file_at_missing n id limit w w1 dir :
  futils.assemble_dir (log_dir id) true w = (Ok dir, w1) ->
  fs_exists (kth.segment_file dir (Z.of_nat (S n))) (w_fs w1) = false ->
  kth.load_from_file_at (S n) id limit w =
    (if 1 <? Z.of_nat (S n) then Raise RuntimeError else Ok [], w1).
Proof.
  intros Ha He. cbn [kth.load_from_file_at].
  rewrite (bind_ok _ _ _ _ _ Ha). unfold os_path_exists, bind, gets. rewrite He. simpl.
  destruct (1 <? Z.of_nat (S n)); reflexivity.
Qed.

(** One call of [load_from_file] whose segment file is there. *)
Lemma load_from_file_at_present n id limit w w1 dir c :
  futils.assemble_dir (log_dir id) true w = (Ok dir, w1) ->
  fs_is_dir (kth.segment_file dir (Z.of_nat (S n))) (w_fs w1) = false ->
  fs_files (w_fs w1) !! kth.segment_file dir (Z.of_nat (S n)) = Some c ->
  kth.load_from_file_at (S n) id limit w =
    let L := clamp_limit limit in
    let '(twts, count) :=
      kth.collect L (futils.reverse_lines LF (st_blksize (w_fs w1)) c) [] 0 in
    if L <? 1 then (more <- kth.load_from_file_at n id L ;; ret (twts ++ more)) w1
    else if count <? L then
      (more <- kth.load_from_file_at n id (L - count) ;; ret (twts ++ more)) w1
    else (Ok twts, w1).
Proof.
  intros Ha Hd Hf. cbn [kth.load_from_file_at].
  rewrite (bind_ok _ _ _ _ _ Ha). unfold os_path_exists. unfold bind at 1. unfold gets at 1.
  assert (He : fs_exists (kth.segment_file dir (Z.of_nat (S n))) (w_fs w1) = true).
  { unfold fs_exists. rewrite Hf. apply orb_true_iff. right.
    apply bool_decide_eq_true. eauto. }
  rewrite He. change (negb true) with false. cbv iota.
  assert (Hr : futils.readline_reverse (kth.segment_file dir (Z.of_nat (S n))) w1
               = (Ok (futils.reverse_lines LF (st_blksize (w_fs w1)) c), w1)).
  { unfold futils.readline_reverse, read_file, bind, gets, ret. rewrite Hd, Hf. reflexivity. }
  rewrite (bind_ok _ _ _ _ _ Hr). fold (clamp_limit limit). cbv zeta.
  destruct (kth.collect _ _ _ _) as [twts count].
  destruct (clamp_limit limit <? 1); [reflexivity|].
  destruct (count <? clamp_limit limit); reflexivity.
Qed.

(** The segment files 1, 2, ... of [dir] hold the bytes [contents]. *)
Definition segments_hold (w : world) (dir : path) (contents : list bytes) : Prop :=
  forall i c, contents !! i = Some c ->
    fs_is_dir (kth.segment_file dir (Z.of_nat (S i))) (w_fs w) = false /\
    fs_files (w_fs w) !! kth.segment_file dir (Z.of_nat (S i)) = Some c.

(** The lines of the segments as a load meets them: head segment first,
    last line first. *)
Definition lines_newest_first (w : world) (contents : list bytes) : list (list string) :=
  rev (map (futils.reverse_lines LF (st_blksize (w_fs w))) contents).

(** A load in a world in which the directory of the log is there. *)
Lemma load_from_file_at_spec contents : forall w id dir limit,
  futils.assemble_dir (log_dir id) true w = (Ok dir, w) ->
  segments_hold w dir contents ->
  kth.load_from_file_at (length contents) id limit w =
    (Ok (load_lines limit (lines_newest_first w contents)), w).
Proof.
  induction contents as [|c contents IH] using rev_ind; intros w id dir limit Ha Hs.
  - reflexivity.
  - rewrite length_app. simpl length. rewrite Nat.add_1_r.
    destruct (Hs (length contents) c) as [Hd Hf].
    { rewrite lookup_app_r by lia. rewrite Nat.sub_diag. reflexivity. }
    rewrite (load_from_file_at_present _ _ _ _ _ _ c Ha Hd Hf). cbv zeta.
    assert (Hs' : segments_hold w dir contents).
    { intros i c' Hi. apply Hs. rewrite lookup_app_l; [exact Hi|].
      apply lookup_lt_Some in Hi. exact Hi. }
    unfold lines_newest_first. rewrite map_app, rev_app_distr. simpl rev. simpl app.
    cbn [load_lines].
    destruct (kth.collect _ _ _ _) as [twts count].
    pose proof (clamp_limit_range limit) as HL.
    replace (clamp_limit limit <? 1) with false by (symmetry; apply Z.ltb_ge; lia).
    destruct (count <? clamp_limit limit); [|reflexivity].
    rewrite (bind_ok _ _ _ _ _ (IH w id dir _ Ha Hs')). reflexivity.
Qed.

(** A load of a log with at least one segment, from a world in which the
    directory of the log may have to be made first. *)
Lemma load_from_file_at_spec' contents w w1 id dir limit :
  contents <> [] ->
  futils.assemble_dir (log_dir id) true w = (Ok dir, w1) ->
  segments_hold w1 dir contents ->
  kth.load_from_file_at (length contents) id limit w =
    (Ok (load_lines limit (lines_newest_first w1 contents)), w1).
Proof.
  intros Hne Ha Hs. destruct (assemble_dir_inv _ _ _ _ Ha) as [_ Ha1].
  destruct contents as [|c contents _] using rev_ind; [congruence|].
  rewrite <- (load_from_file_at_spec _ _ _ _ limit Ha1 Hs).
  rewrite length_app. simpl length. rewrite Nat.add_1_r.
  destruct (Hs (length contents) c) as [Hd Hf].
  { rewrite lookup_app_r by lia. rewrite Nat.sub_diag. reflexivity. }
  rewrite (load_from_file_at_present _ _ _ _ _ _ c Ha Hd Hf).
  rewrite (load_from_file_at_present _ _ _ _ _ _ c Ha1 Hd Hf). reflexivity.
Qed.

(** ** Reading and writing a record *)

Section Dict.
Context {V : Type}.
Implicit Types (d : list (string * V)) (k : string) (v : V).

Lemma dict_get_set_eq k v d : dict_get k (dict_set k v d) = Some v.
Proof.
  induction d as [|[k' v'] d IH]; simpl.
  - rewrite String.eqb_refl. reflexivity.
  - destruct (String.eqb k k') eqn:E; simpl; rewrite E; [reflexivity | exact IH].
Qed.

Lemma dict_get_set_ne k k' v d : k <> k' -> dict_get k (dict_set k' v d) = dict_get k d.
Proof.
  intros Hne. induction d as [|[k2 v2] d IH]; simpl.
  - apply String.eqb_neq in Hne. rewrite Hne. reflexivity.
  - destruct (String.eqb k' k2) eqn:E; simpl.
    + apply String.eqb_eq in E. subst k2. apply String.eqb_neq in Hne. rewrite Hne.
      reflexivity.
    + rewrite IH. reflexivity.
Qed.

Lemma dict_set_same k v d : dict_get k d = Some v -> dict_set k v d = d.
Proof.
  induction d as [|[k' v'] d IH]; simpl; [discriminate|].
  destruct (String.eqb k k') eqn:E.
  - intros H. injection H as ->. reflexivity.
  - intros H. rewrite IH by exact H. reflexivity.
Qed.

Lemma dict_set_set k v v' d : dict_set k v (dict_set k v' d) = dict_set k v d.
Proof.
  induction d as [|[k' v2] d IH]; simpl.
  - rewrite String.eqb_refl. reflexivity.
  - destruct (String.eqb k k') eqn:E; simpl; rewrite E; [reflexivity|]. rewrite IH. reflexivity.
Qed.

Lemma dict_get_del_eq k d : dict_get k (dict_del k d) = None.
Proof.
  induction d as [|[k' v'] d IH]; simpl; [reflexivity|].
  destruct (String.eqb k k') eqn:E; simpl; [exact IH|]. rewrite E. exact IH.
Qed.

Lemma dict_get_del_ne k k' d : k <> k' -> dict_get k (dict_del k' d) = dict_get k d.
Proof.
  intros Hne. induction d as [|[k2 v2] d IH]; simpl; [reflexivity|].
  destruct (String.eqb k' k2) eqn:E; simpl.
  - apply String.eqb_eq in E. subst k2. apply String.eqb_neq in Hne. rewrite Hne. exact IH.
  - rewrite IH. reflexivity.
Qed.

Lemma dict_del_absent k d : dict_get k d = None -> dict_del k d = d.
Proof.
  induction d as [|[k' v'] d IH]; simpl; [reflexivity|].
  destruct (String.eqb k k'); [discriminate|]. intros H. rewrite IH by exact H. reflexivity.
Qed.

Lemma dict_mem_get k d : dict_mem k d = bool_decide (is_Some (dict_get k d)).
Proof.
  unfold dict_mem. destruct (dict_get k d).
  - symmetry. apply bool_decide_eq_true. eauto.
  - symmetry. apply bool_decide_eq_false. intros [? ?]. discriminate.
Qed.

End Dict.

(** The world after [_loaded_data[id]] is set to [d], and after [id] is put
    on the dirty list. *)
Definition w_put (id : pyid) (d : json) (w : world) : world :=
  set_pd (fun g => {| _loaded_data := <[id := d]> (_loaded_data g);
                      _data_modified := _data_modified g |}) w.

Definition w_mark (id : pyid) (w : world) : world :=
  set_pd (fun g => if bool_decide (id ∈ _data_modified g) then g
                   else {| _loaded_data := _loaded_data g;
                           _data_modified := _data_modified g ++ [id] |}) w.

Lemma w_put_same id d w : _loaded_data (w_pd w) !! id = Some d -> w_put id d w = w.
Proof.
  intros H. destruct w as [? ? [ld dm] ? ?]. unfold w_put, set_pd. simpl in *.
  rewrite (insert_id _ _ _ H). reflexivity.
Qed.

Lemma _default_if_nonexistent_loaded id d w :
  _loaded_data (w_pd w) !! id = Some d -> pd._default_if_nonexistent id w = (Ok tt, w).
Proof. intros H. unfold pd._default_if_nonexistent, bind, gets. rewrite H. reflexivity. Qed.

Lemma on_loaded_spec {A} id (method : json -> json * res A) self self' r w :
  _loaded_data (w_pd w) !! id = Some self -> method self = (self', r) ->
  pd.on_loaded id method w = (r, w_put id self' w).
Proof.
  intros H Hm. unfold pd.on_loaded, bind, gets. rewrite H, Hm.
  unfold pd.put_loaded, modify, lift. reflexivity.
Qed.

(** A key of two parts, such as ["twt_db.file_num"]. *)
Definition key2 (key k1 k2 : string) : Prop :=
  pd.key_prefix key = [k1] /\ pd.key_last key = k2.

Lemma key2_twt_file_num : key2 "twt_db.file_num" "twt_db" "file_num".
Proof. split; reflexivity. Qed.
Lemma key2_twt_line_count : key2 "twt_db.line_count" "twt_db" "line_count".
Proof. split; reflexivity. Qed.
Lemma key2_temp_file_num : key2 "temp_db.file_num" "temp_db" "file_num".
Proof. split; reflexivity. Qed.

Section Key2.
Variables (key k1 k2 : string).
Hypothesis Hkey : key2 key k1 k2.

Lemma _get_2 d t v default :
  dict_get k1 d = Some (JDict t) -> dict_get k2 t = Some v ->
  pd._get key default (JDict d) = (JDict d, Ok v).
Proof.
  intros H1 H2. unfold pd._get. destruct Hkey as [-> ->]. simpl.
  rewrite H1. simpl. rewrite H2. simpl. rewrite (dict_set_same _ _ _ H1). reflexivity.
Qed.

Lemma _get_2_missing d default :
  dict_get k1 d = None -> not_none default = true ->
  pd._get key default (JDict d) = (JDict d, Ok default).
Proof.
  intros H1 Hd. unfold pd._get. destruct Hkey as [-> ->]. simpl.
  rewrite H1. simpl. rewrite Hd. reflexivity.
Qed.

Lemma _get_in_list_2 d t lc i default :
  dict_get k1 d = Some (JDict t) -> dict_get k2 t = Some (JList lc) -> 0 <= i ->
  pd._get_in_list key i default (JDict d) =
    (JDict d, match lc !! Z.to_nat i with
              | Some x => Ok x
              | None => if not_none default then Ok default else Raise IndexError
              end).
Proof.
  intros H1 H2 Hi. unfold pd._get_in_list. destruct Hkey as [-> ->]. simpl.
  rewrite H1. simpl. rewrite H2. simpl.
  assert (Hix : py_index lc i = match lc !! Z.to_nat i with
                                | Some x => Ok x
                                | None => Raise IndexError
                                end).
  { unfold py_index. replace (i <? 0) with false by (symmetry; apply Z.ltb_ge; lia).
    destruct (Z.of_nat (length lc) <=? i) eqn:E.
    - apply Z.leb_le in E. rewrite orb_true_r.
      rewrite lookup_ge_None_2 by lia. reflexivity.
    - apply Z.leb_gt in E. replace (i <? 0) with false by (symmetry; apply Z.ltb_ge; lia).
      reflexivity. }
  rewrite Hix. destruct (lc !! Z.to_nat i); simpl; rewrite (dict_set_same _ _ _ H1);
    [|destruct (not_none default)]; reflexivity.
Qed.

(** Writing [k2] in the dict at [k1]. *)
Lemma _set_2 d t val set_func v :
  dict_get k1 d = Some (JDict t) ->
  pd.apply_set_func set_func val (default JNone (dict_get k2 t)) = Ok v ->
  pd._set key val set_func (JDict d) =
    if in_none_or v (default JNone (dict_get k2 t)) then (JDict d, Ok false)
    else (JDict (dict_set k1 (JDict (dict_set k2 v t)) d), Ok true).
Proof.
  intros H1 Hf. unfold pd._set. destruct Hkey as [-> ->]. simpl.
  rewrite dict_mem_get. rewrite bool_decide_eq_true_2 by (rewrite H1; eauto).
  simpl. rewrite H1. simpl.
  unfold dict_mem. destruct (dict_get k2 t) as [prev|] eqn:E2; simpl in *; rewrite Hf; simpl.
  - destruct (in_none_or v prev); [rewrite (dict_set_same _ _ _ H1)|]; reflexivity.
  - destruct (in_none_or v JNone); [rewrite (dict_set_same _ _ _ H1)|]; reflexivity.
Qed.

(** Writing [k2] when there is no dict at [k1] yet. *)
Lemma _set_2_new d val set_func v :
  dict_get k1 d = None ->
  pd.apply_set_func set_func val JNone = Ok v -> in_none_or v JNone = false ->
  pd._set key val set_func (JDict d) = (JDict (dict_set k1 (JDict [(k2, v)]) d), Ok true).
Proof.
  intros H1 Hf Hv. unfold pd._set. destruct Hkey as [-> ->]. simpl.
  unfold dict_mem. rewrite H1. simpl. rewrite dict_get_set_eq. simpl.
  rewrite Hf. simpl. rewrite Hv. simpl. rewrite dict_set_set. reflexivity.
Qed.

(** Writing index [i] of the list at [k2], within the list or right after
    its end. *)
Lemma _set_in_list_2 d t lc i val set_func v :
  dict_get k1 d = Some (JDict t) -> dict_get k2 t = Some (JList lc) ->
  0 <= i <= Z.of_nat (length lc) ->
  pd.apply_set_func set_func val (default JNone (lc !! Z.to_nat i)) = Ok v ->
  pd._set_in_list key i val set_func (JDict d) =
    if in_none_or v (default JNone (lc !! Z.to_nat i)) then (JDict d, Ok false)
    else (JDict (dict_set k1 (JDict (dict_set k2
             (JList (if Z.of_nat (length lc) <=? i then lc ++ [v]
                     else <[Z.to_nat i := v]> lc)) t)) d), Ok true).
Proof.
  intros H1 H2 Hi Hf. unfold pd._set_in_list. destruct Hkey as [-> ->]. simpl.
  rewrite dict_mem_get. rewrite bool_decide_eq_true_2 by (rewrite H1; eauto).
  simpl. rewrite H1. simpl.
  unfold dict_mem. rewrite H2. simpl.
  destruct (Z.of_nat (length lc) <=? i) eqn:E.
  - apply Z.leb_le in E. assert (i = Z.of_nat (length lc)) by lia. subst i.
    rewrite Nat2Z.id in *. rewrite lookup_ge_None_2 in * by lia. simpl in Hf.
    replace (Z.of_nat (length lc) - Z.of_nat (length lc) + 1) with 1 by lia.
    rewrite Z.sub_diag. simpl. rewrite Hf. simpl.
    destruct (in_none_or v JNone); [rewrite (dict_set_same _ _ _ H1)|]; reflexivity.
  - assert (Hneg : (i <? 0) = false) by (apply Z.ltb_ge; lia).
    unfold py_index, py_setindex. rewrite !Hneg, !E. simpl.
    apply Z.leb_gt in E. destruct (lc !! Z.to_nat i) as [cur|] eqn:El.
    + simpl in *. rewrite Hf. simpl.
      destruct (in_none_or v cur); [rewrite (dict_set_same _ _ _ H1)|]; reflexivity.
    + apply lookup_ge_None in El. lia.
Qed.

End Key2.

(** The record of [id] after [_default_if_nonexistent]. *)
Definition w_load (id : pyid) (w : world) : world :=
  match _loaded_data (w_pd w) !! id with
  | Some _ => w
  | None => w_mark id (w_put id pd.default_vals w)
  end.

Lemma _default_if_nonexistent_spec id w :
  pd._default_if_nonexistent id w = (Ok tt, w_load id w).
Proof.
  unfold pd._default_if_nonexistent, w_load, bind, gets.
  destruct (_loaded_data (w_pd w) !! id); reflexivity.
Qed.

Lemma w_load_loaded id w :
  exists d, _loaded_data (w_pd (w_load id w)) !! id = Some d /\
            (_loaded_data (w_pd w) !! id = None -> d = pd.default_vals) /\
            (forall d', _loaded_data (w_pd w) !! id = Some d' -> d = d').
Proof.
  unfold w_load. destruct (_loaded_data (w_pd w) !! id) as [d|] eqn:E.
  - exists d. rewrite E. split; [reflexivity|]. split; [discriminate|]. congruence.
  - exists pd.default_vals. split; [|split; [reflexivity | discriminate]].
    destruct w as [? ? [ld dm] ? ?]. unfold w_mark, w_put, set_pd. simpl.
    destruct (bool_decide _); simpl; apply lookup_insert_eq.
Qed.

Lemma w_load_idem id w : w_load id (w_load id w) = w_load id w.
Proof.
  destruct (w_load_loaded id w) as (d & Hd & _). unfold w_load at 1. rewrite Hd. reflexivity.
Qed.

Lemma get_data_key id key default w self r :
  _loaded_data (w_pd w) !! id = Some self ->
  pd._get key default self = (self, r) ->
  pd.get_data id (Some key) None default w = (r, w).
Proof.
  intros Hl Hm. unfold pd.get_data.
  rewrite (bind_ok _ _ _ _ _ (_default_if_nonexistent_loaded _ _ _ Hl)).
  rewrite (on_loaded_spec _ _ _ _ _ _ Hl Hm). rewrite (w_put_same _ _ _ Hl). reflexivity.
Qed.

Lemma get_data_index id key i default w self r :
  _loaded_data (w_pd w) !! id = Some self ->
  pd._get_in_list key i default self = (self, r) ->
  pd.get_data id (Some key) (Some i) default w = (r, w).
Proof.
  intros Hl Hm. unfold pd.get_data.
  rewrite (bind_ok _ _ _ _ _ (_default_if_nonexistent_loaded _ _ _ Hl)).
  rewrite (on_loaded_spec _ _ _ _ _ _ Hl Hm). rewrite (w_put_same _ _ _ Hl). reflexivity.
Qed.

Lemma set_data_spec id key val index set_func w self self' b :
  _loaded_data (w_pd w) !! id = Some self ->
  match index with
  | Some i => pd._set_in_list key i val set_func self
  | None => pd._set key val set_func self
  end = (self', Ok b) ->
  pd.set_data id key val index set_func w =
    (Ok b, if b then w_mark id (w_put id self' w) else w_put id self' w).
Proof.
  intros Hl Hm. unfold pd.set_data.
  rewrite (bind_ok _ _ _ _ _ (_default_if_nonexistent_loaded _ _ _ Hl)).
  assert (Hon : match index with
                | Some i => pd.on_loaded id (pd._set_in_list key i val set_func)
                | None => pd.on_loaded id (pd._set key val set_func)
                end w = (Ok b, w_put id self' w)).
  { destruct index; apply (on_loaded_spec _ _ _ _ _ _ Hl Hm). }
  rewrite (bind_ok _ _ _ _ _ Hon). destruct b; reflexivity.
Qed.

(** ** Paths of the log and of the temp buffer *)

Definition seg_path (name : string) (k : Z) : path :=
  kth.segment_file [name; "known_tweets"] k.

Definition temp_dir (name : string) : path := [name; "known_tweets"; "temp"].

Definition temp_path (name : string) (k : Z) : path :=
  kth.segment_file (temp_dir name) k.

Lemma string_length_app (s t : string) :
  String.length (s +:+ t) = (String.length s + String.length t)%nat.
Proof.
  induction s as [|c s IH]; [reflexivity|].
  change (S (String.length (s +:+ t)) = S (String.length s + String.length t)).
  rewrite IH. reflexivity.
Qed.

Lemma string_app_inj_r (s1 s2 t : string) : s1 +:+ t = s2 +:+ t -> s1 = s2.
Proof.
  revert s2. induction s1 as [|c s1 IH]; intros [|c2 s2] H.
  - reflexivity.
  - apply (f_equal String.length) in H. rewrite !string_length_app in H. simpl in H. lia.
  - apply (f_equal String.length) in H. rewrite !string_length_app in H. simpl in H. lia.
  - change (String c (s1 +:+ t) = String c2 (s2 +:+ t)) in H.
    injection H as -> H. f_equal. apply IH, H.
Qed.

Lemma txt_name_inj (k k' : Z) : pretty k +:+ ".txt" = pretty k' +:+ ".txt" -> k = k'.
Proof. intros H. apply string_app_inj_r in H. apply (inj pretty), H. Qed.

Lemma txt_name_not_temp (k : Z) : pretty k +:+ ".txt" <> "temp".
Proof.
  intros H. apply (f_equal (fun s => List.last (encode s) "a"%char)) in H.
  unfold encode in H. simpl in H.
  assert (Hl : forall s, List.last (list_ascii_of_string (s +:+ ".txt")) "a"%char = "t"%char).
  { induction s as [|c s IH]; [reflexivity|].
    change (list_ascii_of_string (String c s +:+ ".txt"))
      with (c :: list_ascii_of_string (s +:+ ".txt")).
    destruct (list_ascii_of_string (s +:+ ".txt")) eqn:E; [|exact IH].
    destruct s; discriminate. }
  rewrite Hl in H. discriminate.
Qed.

Lemma seg_path_inj name k k' : seg_path name k = seg_path name k' -> k = k'.
Proof. unfold seg_path, kth.segment_file. simpl. intros H. injection H as H. apply txt_name_inj, H. Qed.

Lemma temp_path_inj name k k' : temp_path name k = temp_path name k' -> k = k'.
Proof.
  unfold temp_path, kth.segment_file. simpl. intros H. injection H as H. apply txt_name_inj, H.
Qed.

Lemma seg_path_not_temp_dir name k : seg_path name k <> temp_dir name.
Proof.
  unfold seg_path, kth.segment_file, temp_dir. simpl. intros H. injection H as H.
  exact (txt_name_not_temp k H).
Qed.

Lemma seg_not_under_temp name k : under (temp_dir name) (seg_path name k) = false.
Proof.
  unfold under. apply bool_decide_eq_false. simpl. apply seg_path_not_temp_dir.
Qed.

Lemma temp_path_under name k : under (temp_dir name) (temp_path name k) = true.
Proof. unfold under. apply bool_decide_eq_true. reflexivity. Qed.

(** ** A missing segment file *)

(** C8. Let [w1] be the world once [load_from_file] has assembled the
    directory of the log, and let the file of segment [fnum] be missing in
    it.  A load that addresses segment [fnum], because it was passed as
    [fnum] or is the [twt_db.file_num] of the record, returns the empty list
    when [fnum] is 1 and raises [RuntimeError] when [fnum] is greater than
    1.  A load that starts at segment [fnum + 1] and has collected [twts]
    there returns [twts] when it needs no more lines or [fnum] is 1, and
    raises [RuntimeError] when it needs more and [fnum] is greater than 1. *)
Theorem missing_segment (w w1 : world) (id : string) (dir : path) (limit fnum : Z) :
  futils.assemble_dir (log_dir id) true w = (Ok dir, w1) ->
  1 <= fnum ->
  fs_exists (kth.segment_file dir fnum) (w_fs w1) = false ->
  kth.load_from_file id limit (Some fnum) w =
    (if 1 <? fnum then Raise RuntimeError else Ok [], w1) /\
  (forall d t,
     _loaded_data (w_pd w) !! Id id = Some (JDict d) ->
     dict_get "twt_db" d = Some (JDict t) ->
     dict_get "file_num" t = Some (JInt fnum) ->
     kth.load_from_file id limit None w =
       (if 1 <? fnum then Raise RuntimeError else Ok [], w1)) /\
  (forall content,
     fs_is_dir (kth.segment_file dir (fnum + 1)) (w_fs w1) = false ->
     fs_files (w_fs w1) !! kth.segment_file dir (fnum + 1) = Some content ->
     let '(twts, count) :=
       kth.collect (clamp_limit limit)
         (futils.reverse_lines LF (st_blksize (w_fs w1)) content) [] 0 in
     kth.load_from_file id limit (Some (fnum + 1)) w =
       (if count <? clamp_limit limit
        then if 1 <? fnum then Raise RuntimeError else Ok twts
        else Ok twts, w1)).
Proof.
  intros Ha Hfnum Hmiss.
  destruct (assemble_dir_inv _ _ _ _ Ha) as [_ Ha1].
  assert (Hn : exists n, fnum = Z.of_nat (S n)) by (exists (Z.to_nat (fnum - 1)); lia).
  destruct Hn as [n ->].
  assert (Hdirect : forall w0, futils.assemble_dir (log_dir id) true w0 = (Ok dir, w1) ->
            kth.load_from_file id limit (Some (Z.of_nat (S n))) w0 =
            (if 1 <? Z.of_nat (S n) then Raise RuntimeError else Ok [], w1)).
  { intros w0 Ha0. unfold kth.load_from_file. unfold bind at 1. unfold ret at 1.
    replace (Z.of_nat (S n) <? 1) with false by (symmetry; apply Z.ltb_ge; lia).
    rewrite Nat2Z.id. apply (load_from_file_at_missing _ _ _ _ _ _ Ha0 Hmiss). }
  split; [apply Hdirect, Ha|]. split.
  - intros d t Hl Ht Hf. unfold kth.load_from_file.
    rewrite (bind_ok _ _ _ _ _
               (bind_ok _ _ _ _ _
                  (get_data_key _ _ JNone _ _ _ Hl
                     (_get_2 _ _ _ key2_twt_file_num _ _ _ JNone Ht Hf)))).
    unfold lift.
    replace (Z.of_nat (S n) <? 1) with false by (symmetry; apply Z.ltb_ge; lia).
    rewrite Nat2Z.id. apply (load_from_file_at_missing _ _ _ _ _ _ Ha Hmiss).
  - intros content Hd Hf.
    replace (Z.of_nat (S n) + 1) with (Z.of_nat (S (S n))) in * by lia.
    unfold kth.load_from_file. unfold bind at 1. unfold ret at 1.
    replace (Z.of_nat (S (S n)) <? 1) with false by (symmetry; apply Z.ltb_ge; lia).
    rewrite Nat2Z.id.
    rewrite (load_from_file_at_present _ _ _ _ _ _ content Ha Hd Hf). cbv zeta.
    destruct (kth.collect _ _ _ _) as [twts count].
    pose proof (clamp_limit_range limit) as HL.
    replace (clamp_limit limit <? 1) with false by (symmetry; apply Z.ltb_ge; lia).
    destruct (count <? clamp_limit limit); [|reflexivity].
    destruct (1 <? Z.of_nat (S n)) eqn:E.
    + unfold bind. rewrite (load_from_file_at_missing _ _ _ _ _ _ Ha1 Hmiss), E. reflexivity.
    + unfold bind. rewrite (load_from_file_at_missing _ _ _ _ _ _ Ha1 Hmiss), E.
      unfold ret. rewrite app_nil_r. reflexivity.
Qed.

Lemma missing_segment_witness :
  let w := init_world (fun _ _ => not_found) in
  fst (kth.load_from_file "test_id" 3000 (Some 1) w) = Ok [] /\
  fst (kth.load_from_file "test_id" 3000 (Some 2) w) = Raise RuntimeError.
Proof.
  cbv zeta.
  pose (w := init_world (fun _ _ => not_found)).
  pose (w1 := snd (futils.assemble_dir (log_dir "test_id") true w)).
  assert (Ha : futils.assemble_dir (log_dir "test_id") true w
               = (Ok ["test_id"; "known_tweets"], w1)) by (vm_compute; reflexivity).
  split.
  - destruct (missing_segment w w1 "test_id" _ 3000 1 Ha) as (H & _).
    + lia.
    + vm_compute. reflexivity.
    + fold w. rewrite H. reflexivity.
  - destruct (missing_segment w w1 "test_id" _ 3000 2 Ha) as (H & _).
    + lia.
    + vm_compute. reflexivity.
    + fold w. rewrite H. reflexivity.
Defined.

(** ** The store of one user: what is on disk and what is recorded *)

Definition all_ids (batches : list (list string)) : Prop :=
  Forall (Forall (fun s => is_id s = true)) batches.

Definition seg_counts (segs : list (list string)) : list json :=
  map (fun s => JInt (Z.of_nat (length s))) segs.

(** The log has the segments [segs], oldest first.  [born] is the number
    of segments whose file has been written: all of them, or all but a
    head segment that was just started and is still empty. *)
Record log_shape (segs : list (list string)) (born : nat) : Prop := {
  ls_len : (1 <= length segs)%nat;
  ls_born : born = length segs \/ (S born = length segs /\ last segs = Some []);
  ls_ids : all_ids segs
}.

Record log_fs (fs : filesystem) (name : string) (segs : list (list string)) (born : nat)
  : Prop := {
  lf_user_free : fs_files fs !! [name] = None;
  lf_dir_free : fs_files fs !! [name; "known_tweets"] = None;
  lf_seg_not_dir : forall k, fs_is_dir (seg_path name k) fs = false;
  lf_segs : forall i s, (i < born)%nat -> segs !! i = Some s ->
            fs_files fs !! seg_path name (Z.of_nat (S i)) = Some (kth.id_lines s);
  lf_fresh : forall k, Z.of_nat born < k -> fs_files fs !! seg_path name k = None
}.

Definition log_rec (d : list (string * json)) (segs : list (list string)) (born : nat)
  : Prop :=
  exists t, dict_get "twt_db" d = Some (JDict t) /\
            dict_get "file_num" t = Some (JInt (Z.of_nat (length segs))) /\
            dict_get "line_count" t = Some (JList (seg_counts (take born segs))).

(** The temp buffer holds the batches [temps], oldest first. *)
Record temp_fs (fs : filesystem) (name : string) (temps : list (list string)) : Prop := {
  tf_free : fs_files fs !! temp_dir name = None;
  tf_dir : temps <> [] -> fs_is_dir (temp_dir name) fs = true;
  tf_not_dir : forall k, fs_is_dir (temp_path name k) fs = false;
  tf_files : forall i b, temps !! i = Some b ->
             fs_files fs !! temp_path name (Z.of_nat (S i)) = Some (kth.id_lines b);
  tf_fresh : forall k, Z.of_nat (length temps) < k -> fs_files fs !! temp_path name k = None;
  tf_none : temps = [] -> forall p, under (temp_dir name) p = true -> fs_files fs !! p = None;
  tf_ids : all_ids temps
}.

Definition temp_rec (d : list (string * json)) (temps : list (list string)) : Prop :=
  match temps with
  | [] => dict_get "temp_db" d = None
  | _ => exists t, dict_get "temp_db" d = Some (JDict t) /\
                   dict_get "file_num" t = Some (JInt (Z.of_nat (length temps) + 1))
  end.

(** The record of the user, if it is loaded, agrees with the segments and
    the batches; if it is not loaded, nothing has been written yet. *)
Definition store_rec (r : option json) (segs : list (list string)) (born : nat)
    (temps : list (list string)) : Prop :=
  match r with
  | Some (JDict d) => log_rec d segs born /\ temp_rec d temps
  | Some _ => False
  | None => segs = [[]] /\ born = 0%nat /\ temps = []
  end.

Record store_inv (fs : filesystem) (r : option json) (name : string)
    (segs : list (list string)) (born : nat) (temps : list (list string)) : Prop := {
  si_shape : log_shape segs born;
  si_log : log_fs fs name segs born;
  si_temp : temp_fs fs name temps;
  si_rec : store_rec r segs born temps
}.

Definition store_ok (w : world) (id name : string) (segs : list (list string)) (born : nat)
    (temps : list (list string)) : Prop :=
  futils.verify_dir_name id = Ok name /\
  store_inv (w_fs w) (_loaded_data (w_pd w) !! Id id) name segs born temps.

(** The store of a user the program has never seen. *)
Lemma store_ok_init srv id name :
  futils.verify_dir_name id = Ok name -> store_ok (init_world srv) id name [[]] 0 [].
Proof.
  intros Hn. split; [exact Hn|]. simpl. split.
  - split; [simpl; lia | right; split; reflexivity | repeat constructor].
  - split; try reflexivity. intros i s Hi. lia.
  - split; try reflexivity.
    + intros H. congruence.
    + intros i b Hb. inversion Hb.
    + constructor.
  - rewrite lookup_empty. simpl. auto.
Qed.

Lemma default_vals_rec : store_rec (Some pd.default_vals) [[]] 0 [].
Proof. simpl. split; [|reflexivity]. exists [("file_num", JInt 1); ("line_count", JList [])]. auto. Qed.

(** Looking at the record loads it. *)
Lemma w_load_fs id w : w_fs (w_load id w) = w_fs w.
Proof. unfold w_load. destruct (_ !! _); reflexivity. Qed.

Lemma store_ok_load w id name segs born temps :
  store_ok w id name segs born temps ->
  store_ok (w_load (Id id) w) id name segs born temps /\
  exists d, _loaded_data (w_pd (w_load (Id id) w)) !! Id id = Some (JDict d).
Proof.
  intros [Hn [Hs Hl Ht Hr]].
  destruct (w_load_loaded (Id id) w) as (d & Hd & Hnone & Hsome).
  destruct (_loaded_data (w_pd w) !! Id id) as [r|] eqn:E.
  - specialize (Hsome r eq_refl). subst d.
    destruct r; simpl in Hr; try contradiction.
    split; [|eauto]. split; [exact Hn|]. rewrite w_load_fs, Hd. split; assumption.
  - specialize (Hnone eq_refl). subst d. destruct Hr as (-> & -> & ->).
    split; [|eexists; exact Hd]. split; [exact Hn|]. rewrite w_load_fs, Hd.
    split; try assumption. apply default_vals_rec.
Qed.

(** *** Directories of the store *)

Lemma fs_files_ensure p fs : fs_files (ensure_dir p fs) = fs_files fs.
Proof. unfold ensure_dir. destruct (fs_exists p fs); reflexivity. Qed.

Lemma st_blksize_ensure p fs : st_blksize (ensure_dir p fs) = st_blksize fs.
Proof. unfold ensure_dir. destruct (fs_exists p fs); reflexivity. Qed.

Lemma fs_is_dir_ensure_ne q p fs : q <> p -> fs_is_dir q (ensure_dir p fs) = fs_is_dir q fs.
Proof.
  intros Hne. unfold ensure_dir. destruct (fs_exists p fs); [reflexivity|].
  unfold fs_is_dir, fs_add_dir. simpl. f_equal.
  apply bool_decide_ext. rewrite elem_of_union, elem_of_singleton. tauto.
Qed.

Lemma fs_is_dir_ensure_eq p fs :
  fs_files fs !! p = None -> fs_is_dir p (ensure_dir p fs) = true.
Proof.
  intros Hf. unfold ensure_dir. destruct (fs_exists p fs) eqn:E.
  - unfold fs_exists in E. rewrite Hf in E.
    rewrite (bool_decide_eq_false_2 (is_Some None)) in E by (intros [? ?]; discriminate).
    rewrite orb_false_r in E. exact E.
  - unfold fs_is_dir, fs_add_dir. simpl.
    rewrite (bool_decide_eq_true_2 (p ∈ {[p]} ∪ _)) by set_solver. apply orb_true_r.
Qed.

Lemma fs_is_dir_ensure_mono q p fs :
  fs_is_dir q fs = true -> fs_is_dir q (ensure_dir p fs) = true.
Proof.
  intros H. destruct (decide (q = p)) as [->|Hne]; [|rewrite fs_is_dir_ensure_ne; assumption].
  unfold ensure_dir. destruct (fs_exists p fs) eqn:E; [exact H|].
  unfold fs_exists in E. rewrite H in E. discriminate.
Qed.

Lemma create_folder_spec p w :
  fs_exists p (w_fs w) = true \/ fs_is_dir (parent p) (w_fs w) = true ->
  futils.create_folder p w = (Ok p, set_fs (ensure_dir p) w).
Proof.
  intros H. destruct (fs_exists p (w_fs w)) eqn:E.
  - rewrite create_folder_exists by exact E. f_equal.
    destruct w as [fs ? ? ? ?]. unfold set_fs, ensure_dir. simpl in *. rewrite E. reflexivity.
  - destruct H as [H|H]; [discriminate|]. rewrite create_folder_new by assumption. f_equal.
    destruct w as [fs ? ? ? ?]. unfold set_fs, ensure_dir. simpl in *. rewrite E. reflexivity.
Qed.

(** The directories [assemble_dir] makes for the log and for the temp
    buffer. *)
Definition log_dirs (name : string) (fs : filesystem) : filesystem :=
  ensure_dir [name; "known_tweets"] (ensure_dir [name] fs).

Definition temp_dirs (name : string) (fs : filesystem) : filesystem :=
  ensure_dir (temp_dir name) (log_dirs name fs).

Lemma verify_known_tweets : futils.verify_dir_name "known_tweets" = Ok "known_tweets".
Proof. reflexivity. Qed.

Lemma verify_temp : futils.verify_dir_name "temp" = Ok "temp".
Proof. reflexivity. Qed.

Lemma fs_is_dir_root fs : fs_is_dir [] fs = true.
Proof. reflexivity. Qed.

Lemma assemble_log_dir id name w :
  futils.verify_dir_name id = Ok name ->
  fs_files (w_fs w) !! [name] = None ->
  fs_files (w_fs w) !! [name; "known_tweets"] = None ->
  futils.assemble_dir (log_dir id) true w = (Ok [name; "known_tweets"], set_fs (log_dirs name) w).
Proof.
  intros Hn H1 H2. unfold futils.assemble_dir, log_dir. cbn [futils.assemble_dir_loop].
  rewrite Hn, verify_known_tweets. unfold lift, bind, ret. simpl app.
  rewrite (create_folder_spec [name] w) by (right; reflexivity).
  rewrite (create_folder_spec [name; "known_tweets"]).
  - reflexivity.
  - right. simpl. apply fs_is_dir_ensure_eq, H1.
Qed.

Lemma assemble_temp_dir id name w :
  futils.verify_dir_name id = Ok name ->
  fs_files (w_fs w) !! [name] = None ->
  fs_files (w_fs w) !! [name; "known_tweets"] = None ->
  futils.assemble_dir [id; "known_tweets"; "temp"] true w
  = (Ok (temp_dir name), set_fs (temp_dirs name) w).
Proof.
  intros Hn H1 H2. unfold futils.assemble_dir. cbn [futils.assemble_dir_loop].
  rewrite Hn, verify_known_tweets, verify_temp. unfold lift, bind, ret. simpl app.
  rewrite (create_folder_spec [name] w) by (right; reflexivity).
  rewrite (create_folder_spec [name; "known_tweets"])
    by (right; simpl; apply fs_is_dir_ensure_eq, H1).
  rewrite (create_folder_spec [name; "known_tweets"; "temp"]).
  - reflexivity.
  - right. simpl. apply fs_is_dir_ensure_eq. rewrite fs_files_ensure. exact H2.
Qed.

Lemma fs_files_log_dirs name fs : fs_files (log_dirs name fs) = fs_files fs.
Proof. unfold log_dirs. rewrite !fs_files_ensure. reflexivity. Qed.

Lemma fs_is_dir_log_dirs q name fs :
  q <> [name] -> q <> [name; "known_tweets"] ->
  fs_is_dir q (log_dirs name fs) = fs_is_dir q fs.
Proof. intros H1 H2. unfold log_dirs. rewrite !fs_is_dir_ensure_ne by assumption. reflexivity. Qed.

Lemma fs_is_dir_log_dirs_kt name fs :
  fs_files fs !! [name; "known_tweets"] = None ->
  fs_is_dir [name; "known_tweets"] (log_dirs name fs) = true.
Proof. intros H. apply fs_is_dir_ensure_eq. rewrite fs_files_ensure. exact H. Qed.

(** A file system that differs from another only in that the user's
    directory and the log's directory may have been made. *)
Definition same_but_log_dirs (name : string) (fs fs' : filesystem) : Prop :=
  fs_files fs' = fs_files fs /\
  forall q, q <> [name] -> q <> [name; "known_tweets"] -> fs_is_dir q fs' = fs_is_dir q fs.

Lemma log_fs_dirs name fs fs' segs born :
  same_but_log_dirs name fs fs' -> log_fs fs name segs born -> log_fs fs' name segs born.
Proof.
  intros [Hf Hd] [H1 H2 H3 H4 H5]. split; rewrite ?Hf; try assumption.
  intros k. rewrite Hd; [apply H3 | discriminate | discriminate].
Qed.

Lemma temp_fs_dirs name fs fs' temps :
  same_but_log_dirs name fs fs' -> temp_fs fs name temps -> temp_fs fs' name temps.
Proof.
  intros [Hf Hd] [H1 H2 H3 H4 H5 H6 H7]. split; rewrite ?Hf; try assumption.
  - intros Hne. rewrite Hd; [exact (H2 Hne) | discriminate | discriminate].
  - intros k. rewrite Hd; [apply H3 | discriminate | discriminate].
Qed.

Lemma same_but_log_dirs_log_dirs name fs : same_but_log_dirs name fs (log_dirs name fs).
Proof. split; [apply fs_files_log_dirs|]. intros. apply fs_is_dir_log_dirs; assumption. Qed.

(** *** The steps of an append, on the record *)

Lemma seg_counts_app a b : seg_counts (a ++ b) = seg_counts a ++ seg_counts b.
Proof. apply map_app. Qed.

Lemma length_seg_counts a : length (seg_counts a) = length a.
Proof. apply length_map. Qed.

Lemma temp_rec_ext d d' temps :
  dict_get "temp_db" d' = dict_get "temp_db" d -> temp_rec d temps -> temp_rec d' temps.
Proof. intros H. unfold temp_rec. rewrite H. auto. Qed.

(** What [born] can be for the segments [older ++ [head]]. *)
Definition born_ok (older : list (list string)) (head : list string) (born : nat) : Prop :=
  born = S (length older) \/ (born = length older /\ head = []).

Lemma log_shape_born older head born :
  log_shape (older ++ [head]) born -> born_ok older head born.
Proof.
  intros [_ Hb _]. rewrite length_app in Hb. simpl in Hb. unfold born_ok.
  destruct Hb as [->|[Hb Hl]]; [left; lia|]. right. split; [lia|].
  rewrite last_snoc in Hl. congruence.
Qed.

Lemma take_born older head born :
  born_ok older head born ->
  seg_counts (take born (older ++ [head])) =
    seg_counts older ++ (if (born =? length older)%nat then []
                         else [JInt (Z.of_nat (length head))]).
Proof.
  intros [->|[-> ->]].
  - rewrite take_ge by (rewrite length_app; simpl; lia).
    rewrite seg_counts_app. replace (S (length older) =? length older)%nat with false
      by (symmetry; apply Nat.eqb_neq; lia). reflexivity.
  - rewrite take_app_length, Nat.eqb_refl, app_nil_r. reflexivity.
Qed.

(** The recorded line count of the head segment. *)
Lemma get_head_count d older head born :
  log_rec d (older ++ [head]) born -> born_ok older head born ->
  pd._get_in_list "twt_db.line_count" (Z.of_nat (length (older ++ [head])) - 1) (JInt 0)
    (JDict d) = (JDict d, Ok (JInt (Z.of_nat (length head)))).
Proof.
  intros (t & Ht & _ & Hlc) Hb.
  rewrite (_get_in_list_2 _ _ _ key2_twt_line_count _ _ _ _ _ Ht Hlc)
    by (rewrite length_app; simpl; lia).
  f_equal. rewrite take_born by exact Hb.
  replace (Z.to_nat (Z.of_nat (length (older ++ [head])) - 1)) with (length older)
    by (rewrite length_app; simpl; lia).
  destruct Hb as [->|[-> ->]].
  - replace (S (length older) =? length older)%nat with false
      by (symmetry; apply Nat.eqb_neq; lia).
    rewrite lookup_app_r by (rewrite length_seg_counts; lia).
    rewrite length_seg_counts, Nat.sub_diag. reflexivity.
  - rewrite Nat.eqb_refl, app_nil_r.
    rewrite lookup_ge_None_2 by (rewrite length_seg_counts; lia). reflexivity.
Qed.

(** The function [_save_explicit] passes to [set_data] for the line count. *)
Definition add_count (count : Z) (x : json) : res json :=
  if json_eqb x JNone then Ok (JInt count)
  else (x <- as_int x ;; Ok (JInt (x + count)))%res.

(** Recording [count > 0] more lines for the head segment. *)
Lemma set_head_count d older head born added temps :
  log_rec d (older ++ [head]) born -> born_ok older head born -> temp_rec d temps ->
  added <> [] ->
  exists d',
    pd._set_in_list "twt_db.line_count" (Z.of_nat (length (older ++ [head])) - 1) JNone
      (Some (add_count (Z.of_nat (length added)))) (JDict d) = (JDict d', Ok true) /\
    log_rec d' (older ++ [head ++ added]) (S (length older)) /\ temp_rec d' temps.
Proof.
  intros (t & Ht & Hfn & Hlc) Hb Htemp Hadd.
  assert (Hi : Z.to_nat (Z.of_nat (length (older ++ [head])) - 1) = length older)
    by (rewrite length_app; simpl; lia).
  rewrite take_born in Hlc by exact Hb.
  set (lc := seg_counts older ++
             (if (born =? length older)%nat then [] else [JInt (Z.of_nat (length head))])) in *.
  set (v := JInt (Z.of_nat (length (head ++ added)))).
  assert (Hlen : length added <> 0%nat) by (destruct added; simpl; congruence).
  assert (Hcur : pd.apply_set_func (Some (add_count (Z.of_nat (length added)))) JNone
                   (default JNone (lc !! Z.to_nat (Z.of_nat (length (older ++ [head])) - 1)))
                 = Ok v /\
                 in_none_or v (default JNone
                   (lc !! Z.to_nat (Z.of_nat (length (older ++ [head])) - 1))) = false /\
                 (if Z.of_nat (length lc) <=? Z.of_nat (length (older ++ [head])) - 1
                  then lc ++ [v]
                  else <[Z.to_nat (Z.of_nat (length (older ++ [head])) - 1) := v]> lc)
                 = seg_counts (older ++ [head ++ added])).
  { rewrite Hi. unfold lc, v. clear lc Hlc v. rewrite seg_counts_app.
    destruct Hb as [->|[-> ->]].
    - replace (S (length older) =? length older)%nat with false
        by (symmetry; apply Nat.eqb_neq; lia).
      rewrite lookup_app_r by (rewrite length_seg_counts; lia).
      rewrite length_seg_counts, Nat.sub_diag. simpl.
      rewrite !length_app, length_seg_counts. simpl length.
      replace (Z.of_nat (length older + 1) <=? Z.of_nat (length older + 1) - 1) with false
        by (symmetry; apply Z.leb_gt; lia).
      split; [unfold add_count; simpl; f_equal; f_equal; lia|]. split.
      + unfold in_none_or. simpl. apply Z.eqb_neq. lia.
      + rewrite insert_app_r_alt by (rewrite length_seg_counts; lia).
        rewrite length_seg_counts, Nat.sub_diag. reflexivity.
    - rewrite Nat.eqb_refl, app_nil_r.
      rewrite lookup_ge_None_2 by (rewrite length_seg_counts; lia). simpl.
      rewrite length_seg_counts, length_app. simpl length.
      replace (Z.of_nat (length older) <=? Z.of_nat (length older + 1) - 1) with true
        by (symmetry; apply Z.leb_le; lia).
      repeat split; reflexivity. }
  destruct Hcur as (Hf & Hne & Hnew).
  assert (Hrange : 0 <= Z.of_nat (length (older ++ [head])) - 1 <= Z.of_nat (length lc)).
  { unfold lc. rewrite !length_app, length_seg_counts. simpl.
    destruct Hb as [->|[-> ->]].
    - replace (S (length older) =? length older)%nat with false
        by (symmetry; apply Nat.eqb_neq; lia). simpl. lia.
    - rewrite Nat.eqb_refl. simpl. lia. }
  rewrite (_set_in_list_2 _ _ _ key2_twt_line_count _ _ _ _ _ _ _ Ht Hlc Hrange Hf).
  rewrite Hne, Hnew. eexists. split; [reflexivity|]. split.
  - eexists. split; [apply dict_get_set_eq|]. split.
    + rewrite dict_get_set_ne by discriminate. rewrite Hfn. rewrite !length_app. reflexivity.
    + rewrite dict_get_set_eq. f_equal. f_equal.
      rewrite take_ge by (rewrite length_app; simpl; lia). reflexivity.
  - eapply temp_rec_ext; [|exact Htemp]. apply dict_get_set_ne. discriminate.
Qed.

(** Recording no more lines for a head segment that has its file. *)
Lemma set_head_count_zero d older head :
  log_rec d (older ++ [head]) (S (length older)) ->
  pd._set_in_list "twt_db.line_count" (Z.of_nat (length (older ++ [head])) - 1) JNone
    (Some (add_count 0)) (JDict d) = (JDict d, Ok false).
Proof.
  intros (t & Ht & Hfn & Hlc).
  rewrite take_ge in Hlc by (rewrite length_app; simpl; lia).
  assert (Hi : Z.to_nat (Z.of_nat (length (older ++ [head])) - 1) = length older)
    by (rewrite length_app; simpl; lia).
  assert (Hcur : seg_counts (older ++ [head]) !! length older
                 = Some (JInt (Z.of_nat (length head)))).
  { rewrite seg_counts_app, lookup_app_r by (rewrite length_seg_counts; lia).
    rewrite length_seg_counts, Nat.sub_diag. reflexivity. }
  rewrite (_set_in_list_2 _ _ _ key2_twt_line_count _ _ _ _ _ _
             (JInt (Z.of_nat (length head))) Ht Hlc).
  - rewrite Hi, Hcur. simpl. unfold in_none_or. simpl. rewrite Z.eqb_refl. reflexivity.
  - rewrite length_seg_counts, length_app. simpl. lia.
  - rewrite Hi, Hcur. simpl. unfold add_count. simpl. rewrite Z.add_0_r. reflexivity.
Qed.

(** Starting a new head segment. *)
Lemma set_file_num_next d segs temps :
  log_rec d segs (length segs) -> temp_rec d temps ->
  exists d',
    pd._set "twt_db.file_num" (JInt (Z.of_nat (length segs) + 1)) None (JDict d)
    = (JDict d', Ok true) /\
    log_rec d' (segs ++ [[]]) (length segs) /\ temp_rec d' temps.
Proof.
  intros (t & Ht & Hfn & Hlc) Htemp.
  rewrite (_set_2 _ _ _ key2_twt_file_num _ _ _ _ (JInt (Z.of_nat (length segs) + 1)) Ht)
    by reflexivity.
  rewrite Hfn. simpl. unfold in_none_or. simpl.
  replace (Z.of_nat (length segs) + 1 =? Z.of_nat (length segs)) with false
    by (symmetry; apply Z.eqb_neq; lia).
  eexists. split; [reflexivity|]. split.
  - eexists. split; [apply dict_get_set_eq|]. split.
    + rewrite dict_get_set_eq. rewrite length_app. simpl. f_equal. f_equal. lia.
    + rewrite dict_get_set_ne by discriminate. rewrite Hlc.
      rewrite take_app_length. rewrite firstn_all. reflexivity.
  - eapply temp_rec_ext; [|exact Htemp]. apply dict_get_set_ne. discriminate.
Qed.

(** *** The steps of an append, on the file system *)

Lemma id_lines_app a b : kth.id_lines (a ++ b) = kth.id_lines a ++ kth.id_lines b.
Proof. unfold kth.id_lines. rewrite map_app, concat_app. reflexivity. Qed.

Lemma write_loop_spec twts lcount limit : forall count out,
  kth.write_loop twts lcount limit count out =
    let c := Nat.min (length twts) (Z.to_nat (limit - (count + lcount))) in
    (out ++ kth.id_lines (take c twts), count + Z.of_nat c).
Proof.
  induction twts as [|t twts IH]; intros count out; cbv zeta.
  - simpl. rewrite app_nil_r, Z.add_0_r. reflexivity.
  - simpl kth.write_loop. destruct (limit <=? count + lcount) eqn:E.
    + apply Z.leb_le in E. replace (Z.to_nat (limit - (count + lcount))) with 0%nat by lia.
      rewrite Nat.min_0_r. simpl. rewrite app_nil_r, Z.add_0_r. reflexivity.
    + apply Z.leb_gt in E. rewrite IH. cbv zeta.
      replace (Z.to_nat (limit - (count + lcount)))
        with (S (Z.to_nat (limit - (count + 1 + lcount)))) by lia.
      simpl length. rewrite <- Nat.succ_min_distr. simpl take.
      change (kth.id_lines (t :: ?l)) with ((encode t ++ [LF]) ++ kth.id_lines l).
      rewrite <- !app_assoc. f_equal. lia.
Qed.

Lemma append_file_spec p b w :
  fs_is_dir p (w_fs w) = false -> fs_is_dir (parent p) (w_fs w) = true ->
  append_file p b w
  = (Ok tt, set_fs (fs_put p (default [] (fs_files (w_fs w) !! p) ++ b)) w).
Proof.
  intros Hf Hp. unfold append_file, bind, gets. rewrite Hf, Hp. reflexivity.
Qed.

Lemma store_inv_log_dirs fs r name segs born temps :
  store_inv fs r name segs born temps -> store_inv (log_dirs name fs) r name segs born temps.
Proof.
  intros [Hs Hl Ht Hr]. split; try assumption.
  - eapply log_fs_dirs; [apply same_but_log_dirs_log_dirs | exact Hl].
  - eapply temp_fs_dirs; [apply same_but_log_dirs_log_dirs | exact Ht].
Qed.

(** The bytes of the head segment's file, if it has one. *)
Lemma head_file fs name older head born :
  log_fs fs name (older ++ [head]) born -> born_ok older head born ->
  default [] (fs_files fs !! seg_path name (Z.of_nat (S (length older)))) = kth.id_lines head.
Proof.
  intros Hl [->|[-> ->]].
  - rewrite (lf_segs _ _ _ _ Hl (length older) head); [reflexivity | lia |].
    rewrite lookup_app_r by lia. rewrite Nat.sub_diag. reflexivity.
  - rewrite (lf_fresh _ _ _ _ Hl) by lia. reflexivity.
Qed.

Lemma parent_seg_path name k : parent (seg_path name k) = [name; "known_tweets"].
Proof. reflexivity. Qed.

(** After lines were added to the head segment and recorded. *)
Lemma store_inv_append fs d d1 name older head born added temps :
  store_inv fs (Some (JDict d)) name (older ++ [head]) born temps ->
  log_rec d1 (older ++ [head ++ added]) (S (length older)) -> temp_rec d1 temps ->
  Forall (fun s => is_id s = true) added ->
  store_inv (fs_put (seg_path name (Z.of_nat (S (length older))))
                    (kth.id_lines (head ++ added)) fs)
            (Some (JDict d1)) name (older ++ [head ++ added]) (S (length older)) temps.
Proof.
  intros [Hs Hl Ht Hr] Hrec Htemp Hadd.
  pose proof (log_shape_born _ _ _ Hs) as Hb.
  destruct Hs as [Hlen _ Hids]. apply Forall_app in Hids as [Hold Hhead].
  inversion Hhead as [|? ? Hh _]; subst.
  split.
  - split.
    + rewrite length_app. simpl. lia.
    + left. rewrite length_app. simpl. lia.
    + apply Forall_app. split; [exact Hold|]. constructor; [|constructor].
      apply Forall_app. split; assumption.
  - destruct Hl as [H1 H2 H3 H4 H5]. split; simpl.
    + rewrite lookup_insert_ne by discriminate. exact H1.
    + rewrite lookup_insert_ne by discriminate. exact H2.
    + exact H3.
    + intros i s Hi Hsi. destruct (decide (i = length older)) as [->|Hne].
      * rewrite lookup_app_r in Hsi by lia. rewrite Nat.sub_diag in Hsi.
        injection Hsi as <-. apply lookup_insert_eq.
      * rewrite lookup_insert_ne by (intros Heq; apply seg_path_inj in Heq; lia).
        apply H4.
        -- destruct Hb as [->|[-> _]]; lia.
        -- rewrite lookup_app_l in Hsi by lia. rewrite lookup_app_l by lia. exact Hsi.
    + intros k Hk. rewrite lookup_insert_ne by (intros Heq; apply seg_path_inj in Heq; lia).
      apply H5. destruct Hb as [->|[-> _]]; lia.
  - destruct Ht as [H1 H2 H3 H4 H5 H6 H7]. split; simpl; try assumption.
    + rewrite lookup_insert_ne by (apply seg_path_not_temp_dir). exact H1.
    + intros i b Hb'. rewrite lookup_insert_ne by discriminate. apply H4, Hb'.
    + intros k Hk. rewrite lookup_insert_ne by discriminate. apply H5, Hk.
    + intros He p Hp. rewrite lookup_insert_ne; [apply H6; assumption|].
      intros <-. rewrite seg_not_under_temp in Hp. discriminate.
  - simpl. split; assumption.
Qed.

(** After a new head segment was started. *)
Lemma store_inv_rotate fs d d2 name segs temps :
  store_inv fs (Some (JDict d)) name segs (length segs) temps ->
  log_rec d2 (segs ++ [[]]) (length segs) -> temp_rec d2 temps ->
  store_inv fs (Some (JDict d2)) name (segs ++ [[]]) (length segs) temps.
Proof.
  intros [Hs Hl Ht Hr] Hrec Htemp. split; try assumption.
  - destruct Hs as [Hlen _ Hids]. split.
    + rewrite length_app. simpl. lia.
    + right. rewrite length_app. simpl. split; [lia|]. apply last_snoc.
    + apply Forall_app. split; [exact Hids|]. repeat constructor.
  - destruct Hl as [H1 H2 H3 H4 H5]. split; try assumption.
    intros i s Hi Hsi. apply H4; [exact Hi|]. rewrite lookup_app_l in Hsi by lia. exact Hsi.
  - simpl. split; assumption.
Qed.

(** The worlds the steps lead to. *)
Lemma w_mark_fs id w : w_fs (w_mark id w) = w_fs w.
Proof. reflexivity. Qed.

Lemma w_mark_loaded id w : _loaded_data (w_pd (w_mark id w)) = _loaded_data (w_pd w).
Proof. unfold w_mark, set_pd. simpl. destruct (bool_decide _); reflexivity. Qed.

Lemma w_put_loaded id d w : _loaded_data (w_pd (w_put id d w)) !! id = Some d.
Proof. unfold w_put, set_pd. simpl. apply lookup_insert_eq. Qed.

(** *** An append *)

(** The rotation property: every segment but the head holds exactly [C]
    IDs, the head at most [C]. *)
Definition rotated (C : Z) (segs : list (list string)) : Prop :=
  exists older head,
    segs = older ++ [head] /\
    Forall (fun s => Z.of_nat (length s) = C) older /\ Z.of_nat (length head) <= C.

Lemma rotated_snoc C older head :
  rotated C (older ++ [head]) <->
  Forall (fun s => Z.of_nat (length s) = C) older /\ Z.of_nat (length head) <= C.
Proof.
  split.
  - intros (o & h & Heq & Ho & Hh). apply app_inj_tail in Heq as [-> ->]. auto.
  - intros [Ho Hh]. exists older, head. auto.
Qed.

Lemma _save_explicit_rec_S fuel id twts limit fnum twtslen :
  kth._save_explicit_rec (S fuel) id twts limit fnum twtslen =
  (fnum <- match fnum with
           | Some f => ret f
           | None => pd.get_data (Id id) (Some "twt_db.file_num") None (JInt 1)
           end ;;
   let twtslen := match twtslen with
                  | Some n => n
                  | None => Z.of_nat (length twts)
                  end in
   if twtslen <=? 0 then ret tt
   else
     fnum <- lift (as_int fnum) ;;
     lcount <- pd.get_data (Id id) (Some "twt_db.line_count") (Some (fnum - 1)) (JInt 0) ;;
     dir <- futils.assemble_dir [id; "known_tweets"] true ;;
     let fname := kth.segment_file dir fnum in
     lcount <- lift (as_int lcount) ;;
     count <- (if 0 + lcount <? limit
               then let '(out, count) := kth.write_loop twts lcount limit 0 [] in
                    append_file fname out ;; ret count
               else ret 0) ;;
     pd.set_data (Id id) "twt_db.line_count" JNone (Some (fnum - 1))
       (Some (add_count count)) ;;
     if limit <? lcount + twtslen then
       let fnum_next := fnum + 1 in
       pd.set_data (Id id) "twt_db.file_num" (JInt fnum_next) None None ;;
       kth._save_explicit_rec fuel id (drop (Z.to_nat count) twts) limit
         (Some (JInt fnum_next)) (Some (twtslen - count))
     else ret tt).
Proof. reflexivity. Qed.

(** One call of [_save_explicit] on a store that is in order, and all the
    calls it makes of itself. *)
Lemma _save_explicit_rec_spec id name limit temps :
  futils.verify_dir_name id = Ok name -> 1 <= limit ->
  forall fuel twts older head born w d fnum twtslen,
    _loaded_data (w_pd w) !! Id id = Some (JDict d) ->
    store_inv (w_fs w) (Some (JDict d)) name (older ++ [head]) born temps ->
    Forall (fun s => is_id s = true) twts ->
    fnum = None \/ fnum = Some (JInt (Z.of_nat (length (older ++ [head])))) ->
    twtslen = None \/ twtslen = Some (Z.of_nat (length twts)) ->
    (length twts + (if (limit <=? Z.of_nat (length head))%Z then 1 else 0) < fuel)%nat ->
    exists w' segs' born' d',
      kth._save_explicit_rec fuel id twts limit fnum twtslen w = (Ok tt, w') /\
      _loaded_data (w_pd w') !! Id id = Some (JDict d') /\
      store_inv (w_fs w') (Some (JDict d')) name segs' born' temps /\
      concat segs' = concat (older ++ [head]) ++ twts /\
      (rotated limit (older ++ [head]) -> rotated limit segs') /\
      (twts <> [] \/ born = length (older ++ [head]) -> born' = length segs').
Proof.
  intros Hname Hlim. induction fuel as [|fuel IH];
    intros twts older head born w d fnum twtslen Hload Hinv Hids Hfnum Htl Hfuel; [lia|].
  set (N := Z.of_nat (length (older ++ [head]))) in *.
  pose proof (log_shape_born _ _ _ (si_shape _ _ _ _ _ _ Hinv)) as Hb.
  destruct (si_rec _ _ _ _ _ _ Hinv) as [Hrec Htemp]. simpl in Hrec, Htemp.
  rewrite _save_explicit_rec_S.
  assert (Hfn : match fnum with
                | Some f => ret f
                | None => pd.get_data (Id id) (Some "twt_db.file_num") None (JInt 1)
                end w = (Ok (JInt N), w)).
  { destruct Hfnum as [->| ->]; [|reflexivity].
    destruct Hrec as (t & Ht & Hf & _).
    apply (get_data_key _ _ _ _ _ _ Hload).
    apply (_get_2 _ _ _ key2_twt_file_num _ _ _ _ Ht Hf). }
  rewrite (bind_ok _ _ _ _ _ Hfn). clear Hfn.
  replace (match twtslen with Some n => n | None => Z.of_nat (length twts) end)
    with (Z.of_nat (length twts)) by (destruct Htl as [->| ->]; reflexivity).
  cbv zeta.
  destruct twts as [|t0 twts0] eqn:Etw.
  { (* nothing to append *)
    simpl. exists w, (older ++ [head]), born, d. rewrite app_nil_r.
    split; [reflexivity|]. split; [exact Hload|]. split; [exact Hinv|].
    split; [reflexivity|]. split; [auto|]. intros [H|H]; [congruence | exact H]. }
  rewrite <- Etw in *. assert (Hpos : (0 < length twts)%nat) by (subst twts; simpl; lia).
  clear Etw t0 twts0.
  replace (Z.of_nat (length twts) <=? 0) with false by (symmetry; apply Z.leb_gt; lia).
  unfold lift at 1. unfold bind at 1. simpl as_int. cbv iota.
  rewrite (bind_ok _ _ _ _ _ (get_data_index _ _ _ _ _ _ _ Hload
                                (get_head_count _ _ _ _ Hrec Hb))).
  pose proof (si_log _ _ _ _ _ _ Hinv) as Hlog.
  rewrite (bind_ok _ _ _ _ _ (assemble_log_dir _ _ w Hname
                                (lf_user_free _ _ _ _ Hlog) (lf_dir_free _ _ _ _ Hlog))).
  set (w2 := set_fs (log_dirs name) w).
  assert (Hinv2 : store_inv (w_fs w2) (Some (JDict d)) name (older ++ [head]) born temps)
    by (apply store_inv_log_dirs, Hinv).
  assert (Hload2 : _loaded_data (w_pd w2) !! Id id = Some (JDict d)) by exact Hload.
  unfold lift at 1. unfold bind at 1. simpl as_int. cbv iota.
  rewrite Z.add_0_l.
  assert (Hlen1 : forall x : list string, length (older ++ [x]) = S (length older))
    by (intros x; rewrite length_app; simpl; lia).
  assert (HN : N = Z.of_nat (S (length older))) by (subst N; rewrite Hlen1; reflexivity).
  change (kth.segment_file [name; "known_tweets"] N) with (seg_path name N).
  destruct (Z.of_nat (length head) <? limit) eqn:Elt.
  - (* the head segment has room *)
    apply Z.ltb_lt in Elt.
    rewrite write_loop_spec. cbv zeta. rewrite Z.add_0_l. rewrite app_nil_l.
    set (c := Nat.min (length twts) (Z.to_nat (limit - Z.of_nat (length head)))).
    set (added := take c twts).
    assert (Hc : (1 <= c <= length twts)%nat) by (subst c; lia).
    assert (Hlen_added : length added = c) by (subst added; rewrite length_take; lia).
    assert (Hadd : added <> []) by (intros E; rewrite E in Hlen_added; simpl in *; lia).
    assert (Hadd_ids : Forall (fun s => is_id s = true) added)
      by (subst added; apply Forall_take, Hids).
    assert (Happ : append_file (seg_path name N) (kth.id_lines added) w2
                   = (Ok tt, set_fs (fs_put (seg_path name N) (kth.id_lines (head ++ added)))
                               w2)).
    { rewrite append_file_spec.
      - rewrite HN. rewrite (head_file _ _ _ _ _ (si_log _ _ _ _ _ _ Hinv2) Hb).
        rewrite id_lines_app. reflexivity.
      - apply (lf_seg_not_dir _ _ _ _ (si_log _ _ _ _ _ _ Hinv2)).
      - rewrite parent_seg_path. apply fs_is_dir_log_dirs_kt.
        apply (lf_dir_free _ _ _ _ Hlog). }
    unfold bind at 1. unfold bind at 1. rewrite Happ. unfold ret at 1. clear Happ.
    set (w3 := set_fs (fs_put (seg_path name N) (kth.id_lines (head ++ added))) w2).
    destruct (set_head_count d older head born added temps Hrec Hb Htemp Hadd)
      as (d1 & Hset & Hrec1 & Htemp1).
    rewrite Hlen_added in Hset. fold N in Hset.
    assert (Hload3 : _loaded_data (w_pd w3) !! Id id = Some (JDict d)) by exact Hload.
    rewrite (bind_ok _ _ _ _ _
               (set_data_spec (Id id) "twt_db.line_count" JNone (Some (N - 1)) _ w3
                  (JDict d) (JDict d1) true Hload3 Hset)).
    set (w4 := w_mark (Id id) (w_put (Id id) (JDict d1) w3)).
    assert (Hload4 : _loaded_data (w_pd w4) !! Id id = Some (JDict d1)).
    { subst w4. rewrite w_mark_loaded. apply w_put_loaded. }
    assert (Hinv4 : store_inv (w_fs w4) (Some (JDict d1)) name (older ++ [head ++ added])
                      (S (length older)) temps).
    { pose proof (store_inv_append _ _ _ _ _ _ _ _ _ Hinv2 Hrec1 Htemp1 Hadd_ids) as H.
      rewrite <- HN in H. exact H. }
    assert (Hcat : concat (older ++ [head ++ added]) = concat (older ++ [head]) ++ added).
    { rewrite !concat_app. simpl. rewrite !app_nil_r. apply app_assoc. }
    replace (Z.to_nat (0 + Z.of_nat c)) with c by lia.
    destruct (limit <? Z.of_nat (length head) + Z.of_nat (length twts)) eqn:Erot.
    + (* the batch does not fit: start a new segment and go on *)
      apply Z.ltb_lt in Erot.
      assert (Hc' : c = Z.to_nat (limit - Z.of_nat (length head))) by (subst c; lia).
      assert (Hrec4 : log_rec d1 (older ++ [head ++ added]) (length (older ++ [head ++ added])))
        by (rewrite Hlen1; exact Hrec1).
      destruct (set_file_num_next d1 _ temps Hrec4 Htemp1) as (d2 & Hset2 & Hrec2 & Htemp2).
      rewrite Hlen1 in Hset2, Hrec2. rewrite <- HN in Hset2.
      rewrite (bind_ok _ _ _ _ _
                 (set_data_spec (Id id) "twt_db.file_num" (JInt (N + 1)) None None w4
                    (JDict d1) (JDict d2) true Hload4 Hset2)).
      set (w5 := w_mark (Id id) (w_put (Id id) (JDict d2) w4)).
      assert (Hload5 : _loaded_data (w_pd w5) !! Id id = Some (JDict d2)).
      { subst w5. rewrite w_mark_loaded. apply w_put_loaded. }
      assert (Hinv5 : store_inv (w_fs w5) (Some (JDict d2)) name
                        ((older ++ [head ++ added]) ++ [[]]) (S (length older)) temps).
      { pose proof (store_inv_rotate (w_fs w4) d1 d2 name (older ++ [head ++ added]) temps) as H.
        rewrite Hlen1 in H. apply H; assumption. }
      destruct (IH (drop c twts) (older ++ [head ++ added]) [] (S (length older)) w5 d2
                  (Some (JInt (N + 1))) (Some (Z.of_nat (length twts) - (0 + Z.of_nat c)))
                  Hload5 Hinv5)
        as (w' & segs' & born' & d' & Hrun & Hload' & Hinv' & Hcat' & Hrot' & Hborn').
      * apply Forall_drop, Hids.
      * right. f_equal. f_equal. rewrite length_app, Hlen1. simpl. lia.
      * right. f_equal. rewrite length_drop. lia.
      * rewrite length_drop. simpl length.
        destruct (limit <=? Z.of_nat 0)%Z eqn:E0; [apply Z.leb_le in E0; simpl in E0; lia|].
        destruct (limit <=? Z.of_nat (length head))%Z; lia.
      * exists w', segs', born', d'. split; [exact Hrun|]. split; [exact Hload'|].
        split; [exact Hinv'|]. split; [|split].
        -- rewrite Hcat'. rewrite concat_app. simpl. rewrite app_nil_r, Hcat.
           rewrite <- app_assoc. f_equal. apply take_drop.
        -- intros Hr. apply Hrot'. apply rotated_snoc in Hr as [Ho Hh].
           apply rotated_snoc. split; [|simpl; lia].
           apply Forall_app. split; [exact Ho|]. constructor; [|constructor].
           rewrite length_app, Hlen_added. lia.
        -- intros _. apply Hborn'. left. intros Hd.
           apply (f_equal (@length string)) in Hd. rewrite length_drop in Hd. simpl in Hd. lia.
    + (* the batch fits *)
      apply Z.ltb_ge in Erot.
      assert (Hall : added = twts) by (subst added; apply take_ge; lia).
      exists w4, (older ++ [head ++ added]), (S (length older)), d1.
      split; [reflexivity|]. split; [exact Hload4|]. split; [exact Hinv4|].
      split; [rewrite Hcat, Hall; reflexivity|]. split.
      * intros Hr. apply rotated_snoc in Hr as [Ho Hh]. apply rotated_snoc.
        split; [exact Ho|]. rewrite length_app, Hall. lia.
      * intros _. rewrite Hlen1. reflexivity.
  - (* the head segment is full *)
    apply Z.ltb_ge in Elt.
    assert (Hborn : born = S (length older)).
    { destruct Hb as [->|[_ ->]]; [reflexivity|]. simpl in Elt. lia. }
    subst born.
    unfold bind at 1. unfold ret at 1.
    pose proof (set_head_count_zero _ _ _ Hrec) as Hset. fold N in Hset.
    rewrite (bind_ok _ _ _ _ _
               (set_data_spec (Id id) "twt_db.line_count" JNone (Some (N - 1)) _ w2
                  (JDict d) (JDict d) false Hload2 Hset)).
    rewrite (w_put_same _ _ _ Hload2).
    replace (limit <? Z.of_nat (length head) + Z.of_nat (length twts)) with true
      by (symmetry; apply Z.ltb_lt; lia).
    assert (Hrec' : log_rec d (older ++ [head]) (length (older ++ [head])))
      by (rewrite Hlen1; exact Hrec).
    destruct (set_file_num_next d _ temps Hrec' Htemp) as (d2 & Hset2 & Hrec2 & Htemp2).
    rewrite Hlen1 in Hset2, Hrec2. rewrite <- HN in Hset2.
    rewrite (bind_ok _ _ _ _ _
               (set_data_spec (Id id) "twt_db.file_num" (JInt (N + 1)) None None w2
                  (JDict d) (JDict d2) true Hload2 Hset2)).
    set (w5 := w_mark (Id id) (w_put (Id id) (JDict d2) w2)).
    assert (Hload5 : _loaded_data (w_pd w5) !! Id id = Some (JDict d2)).
    { subst w5. rewrite w_mark_loaded. apply w_put_loaded. }
    assert (Hinv5 : store_inv (w_fs w5) (Some (JDict d2)) name
                      ((older ++ [head]) ++ [[]]) (S (length older)) temps).
    { pose proof (store_inv_rotate (w_fs w2) d d2 name (older ++ [head]) temps) as H.
      rewrite Hlen1 in H. apply H; assumption. }
    change (drop (Z.to_nat 0) twts) with twts. rewrite Z.sub_0_r.
    destruct (IH twts (older ++ [head]) [] (S (length older)) w5 d2
                (Some (JInt (N + 1))) (Some (Z.of_nat (length twts))) Hload5 Hinv5 Hids)
      as (w' & segs' & born' & d' & Hrun & Hload' & Hinv' & Hcat' & Hrot' & Hborn').
    + right. f_equal. f_equal. rewrite length_app, Hlen1. simpl. lia.
    + right. reflexivity.
    + simpl length.
      replace (limit <=? Z.of_nat (length head))%Z with true in Hfuel
        by (symmetry; apply Z.leb_le; lia).
      destruct (limit <=? Z.of_nat 0)%Z eqn:E0; [apply Z.leb_le in E0; simpl in E0; lia|]. lia.
    + exists w', segs', born', d'. split; [exact Hrun|]. split; [exact Hload'|].
      split; [exact Hinv'|]. split; [|split].
      * rewrite Hcat'. rewrite concat_app. simpl. rewrite app_nil_r. reflexivity.
      * intros Hr. apply Hrot'. apply rotated_snoc in Hr as [Ho Hh].
        apply rotated_snoc. split; [|simpl; lia].
        apply Forall_app. split; [exact Ho|]. constructor; [|constructor]. lia.
      * intros _. apply Hborn'. left. intros ->. simpl in Hpos. lia.
Qed.
(** Reading the record loads it first; a read of a world in which it is
    loaded already is the same read. *)
Lemma get_data_load id key index default w :
  pd.get_data id key index default w = pd.get_data id key index default (w_load id w).
Proof.
  unfold pd.get_data, bind.
  rewrite !_default_if_nonexistent_spec, w_load_idem. reflexivity.
Qed.

Lemma _save_explicit_rec_load fuel id twts limit twtslen w :
  kth._save_explicit_rec (S fuel) id twts limit None twtslen w =
  kth._save_explicit_rec (S fuel) id twts limit None twtslen (w_load (Id id) w).
Proof.
  rewrite _save_explicit_rec_S. unfold bind at 1. rewrite get_data_load. reflexivity.
Qed.

(** An append of [twts] to the log of a store. *)
Lemma _save_explicit_spec id name limit twts segs born temps w :
  store_ok w id name segs born temps -> 1 <= limit ->
  Forall (fun s => is_id s = true) twts ->
  exists w' segs' born' d',
    kth._save_explicit id twts limit w = (Ok tt, w') /\
    _loaded_data (w_pd w') !! Id id = Some (JDict d') /\
    store_ok w' id name segs' born' temps /\
    concat segs' = concat segs ++ twts /\
    (rotated limit segs -> rotated limit segs') /\
    (twts <> [] \/ born = length segs -> born' = length segs').
Proof.
  intros Hok Hlim Hids.
  destruct (store_ok_load _ _ _ _ _ _ Hok) as [[Hname Hinv] [d Hload]].
  rewrite Hload in Hinv.
  pose proof (ls_len _ _ (si_shape _ _ _ _ _ _ Hinv)) as Hlen.
  destruct (exists_last (l := segs)) as (older & head & ->);
    [intros ->; simpl in Hlen; lia|].
  unfold kth._save_explicit, bind at 1, gets.
  set (n := kth.line_count_len id w).
  replace (length twts + 2 * n + 2)%nat with (S (length twts + 2 * n + 1)) by lia.
  rewrite _save_explicit_rec_load.
  destruct (_save_explicit_rec_spec id name limit temps Hname Hlim
              (S (length twts + 2 * n + 1)) twts older head born (w_load (Id id) w) d
              None None Hload Hinv Hids)
    as (w' & segs' & born' & d' & Hrun & Hload' & Hinv' & Hrest); auto.
  { destruct (limit <=? Z.of_nat (length head))%Z; lia. }
  exists w', segs', born', d'. split; [exact Hrun|]. split; [exact Hload'|].
  split; [|exact Hrest]. split; [exact Hname|]. rewrite Hload'. exact Hinv'.
Qed.
(** *** Staging a batch *)

Lemma fs_files_temp_dirs name fs : fs_files (temp_dirs name fs) = fs_files fs.
Proof. unfold temp_dirs. rewrite fs_files_ensure. apply fs_files_log_dirs. Qed.

Lemma fs_is_dir_temp_dirs q name fs :
  q <> [name] -> q <> [name; "known_tweets"] -> q <> temp_dir name ->
  fs_is_dir q (temp_dirs name fs) = fs_is_dir q fs.
Proof.
  intros H1 H2 H3. unfold temp_dirs. rewrite fs_is_dir_ensure_ne by assumption.
  apply fs_is_dir_log_dirs; assumption.
Qed.

Lemma fs_is_dir_temp_dirs_temp name fs :
  fs_files fs !! temp_dir name = None -> fs_is_dir (temp_dir name) (temp_dirs name fs) = true.
Proof. intros H. apply fs_is_dir_ensure_eq. rewrite fs_files_log_dirs. exact H. Qed.

Lemma fs_is_dir_temp_dirs_mono q name fs :
  fs_is_dir q fs = true -> fs_is_dir q (temp_dirs name fs) = true.
Proof. intros H. unfold temp_dirs, log_dirs. repeat apply fs_is_dir_ensure_mono. exact H. Qed.

Lemma temp_path_not_temp_dir name k : temp_path name k <> temp_dir name.
Proof. discriminate. Qed.

Lemma store_inv_temp_dirs fs r name segs born temps :
  store_inv fs r name segs born temps -> store_inv (temp_dirs name fs) r name segs born temps.
Proof.
  intros [Hs [L1 L2 L3 L4 L5] [T1 T2 T3 T4 T5 T6 T7] Hr].
  split; [assumption | split | split | assumption]; rewrite ?fs_files_temp_dirs;
    try assumption.
  - intros k. rewrite fs_is_dir_temp_dirs;
      [apply L3 | discriminate | discriminate | apply seg_path_not_temp_dir].
  - intros Hne. apply fs_is_dir_temp_dirs_mono, T2, Hne.
  - intros k. rewrite fs_is_dir_temp_dirs;
      [apply T3 | discriminate | discriminate | apply temp_path_not_temp_dir].
Qed.

Lemma temp_rec_cons d b temps :
  temp_rec d (b :: temps) <->
  exists t, dict_get "temp_db" d = Some (JDict t) /\
            dict_get "file_num" t = Some (JInt (Z.of_nat (length (b :: temps)) + 1)).
Proof. reflexivity. Qed.

Lemma temp_rec_snoc d b temps :
  temp_rec d (temps ++ [b]) <->
  exists t, dict_get "temp_db" d = Some (JDict t) /\
            dict_get "file_num" t = Some (JInt (Z.of_nat (length temps) + 2)).
Proof.
  replace (Z.of_nat (length temps) + 2) with (Z.of_nat (length (temps ++ [b])) + 1)
    by (rewrite length_app; simpl; lia).
  destruct temps; reflexivity.
Qed.

(** The number of the next temp file, as the record has it. *)
Lemma get_temp_file_num d temps default :
  temp_rec d temps -> not_none default = true ->
  pd._get "temp_db.file_num" default (JDict d) =
    (JDict d, Ok (match temps with [] => default
                  | _ => JInt (Z.of_nat (length temps) + 1) end)).
Proof.
  intros Ht Hd. destruct temps as [|b temps].
  - apply (_get_2_missing _ _ _ key2_temp_file_num _ _ Ht Hd).
  - destruct Ht as (t & H1 & H2). apply (_get_2 _ _ _ key2_temp_file_num _ _ _ _ H1 H2).
Qed.

Lemma in_none_or_int a b : a <> b -> in_none_or (JInt a) (JInt b) = false.
Proof. intros H. unfold in_none_or. simpl. apply Z.eqb_neq, H. Qed.

(** The function [save_temp] passes to [set_data]. *)
Definition next_temp (x : json) : res json :=
  if json_eqb x JNone then Ok (JInt 2) else (x <- as_int x ;; Ok (JInt (x + 1)))%res.

Lemma set_temp_file_num d segs born temps b :
  log_rec d segs born -> temp_rec d temps ->
  exists d',
    pd._set "temp_db.file_num" JNone (Some next_temp) (JDict d) = (JDict d', Ok true) /\
    log_rec d' segs born /\ temp_rec d' (temps ++ [b]).
Proof.
  intros Hrec Ht. destruct temps as [|b0 temps].
  - simpl in Ht.
    rewrite (_set_2_new _ _ _ key2_temp_file_num d JNone (Some next_temp) (JInt 2) Ht)
      by reflexivity.
    eexists. split; [reflexivity|]. split.
    + destruct Hrec as (t & H1 & H2). exists t. rewrite dict_get_set_ne by discriminate. auto.
    + apply (temp_rec_snoc _ b []). eexists. rewrite dict_get_set_eq. split; reflexivity.
  - destruct Ht as (t & H1 & H2).
    set (T := b0 :: temps) in *. set (n := Z.of_nat (length T)) in *.
    assert (Hf : pd.apply_set_func (Some next_temp) JNone (default JNone (dict_get "file_num" t))
                 = Ok (JInt (n + 2))).
    { rewrite H2. simpl. unfold next_temp. simpl. f_equal. f_equal. lia. }
    rewrite (_set_2 _ _ _ key2_temp_file_num d t JNone (Some next_temp) _ H1 Hf).
    replace (in_none_or (JInt (n + 2)) (default JNone (dict_get "file_num" t))) with false.
    + eexists. split; [reflexivity|]. split.
      * destruct Hrec as (t' & H1' & H2'). exists t'.
        rewrite dict_get_set_ne by discriminate. auto.
      * apply temp_rec_snoc. eexists. rewrite dict_get_set_eq. split; [reflexivity|].
        rewrite dict_get_set_eq. reflexivity.
    + rewrite H2. symmetry. apply in_none_or_int. lia.
Qed.

(** After a batch was written to the next temp file and recorded. *)
Lemma store_inv_stage fs d d' name segs born temps b :
  store_inv fs (Some (JDict d)) name segs born temps ->
  fs_is_dir (temp_dir name) fs = true ->
  log_rec d' segs born -> temp_rec d' (temps ++ [b]) ->
  Forall (fun s => is_id s = true) b ->
  store_inv (fs_put (temp_path name (Z.of_nat (length temps) + 1)) (kth.id_lines b) fs)
            (Some (JDict d')) name segs born (temps ++ [b]).
Proof.
  intros [Hs [L1 L2 L3 L4 L5] [T1 T2 T3 T4 T5 T6 T7] Hr] Hdir Hrec Htemp Hb.
  split; [assumption | split | split | split; assumption]; simpl.
  - rewrite lookup_insert_ne by discriminate. exact L1.
  - rewrite lookup_insert_ne by discriminate. exact L2.
  - exact L3.
  - intros i s Hi Hsi. rewrite lookup_insert_ne by discriminate. apply L4; assumption.
  - intros k Hk. rewrite lookup_insert_ne by discriminate. apply L5, Hk.
  - rewrite lookup_insert_ne by (apply temp_path_not_temp_dir). exact T1.
  - intros _. exact Hdir.
  - exact T3.
  - intros i b' Hi. destruct (decide (i = length temps)) as [->|Hne].
    + rewrite lookup_app_r in Hi by lia. rewrite Nat.sub_diag in Hi. injection Hi as <-.
      replace (Z.of_nat (S (length temps))) with (Z.of_nat (length temps) + 1) by lia.
      apply lookup_insert_eq.
    + assert (Hlt : (i < length temps)%nat).
      { apply lookup_lt_Some in Hi. rewrite length_app in Hi. simpl in Hi. lia. }
      rewrite lookup_app_l in Hi by exact Hlt.
      rewrite lookup_insert_ne by (intros Heq; apply temp_path_inj in Heq; lia).
      apply T4, Hi.
  - intros k Hk. rewrite length_app in Hk. simpl in Hk.
    rewrite lookup_insert_ne by (intros Heq; apply temp_path_inj in Heq; lia).
    apply T5. lia.
  - intros He. destruct temps; discriminate.
  - apply Forall_app. split; [exact T7|]. constructor; [exact Hb | constructor].
Qed.

Lemma bind_get_data_load {A} id key index default (f : json -> Py A) w :
  bind (pd.get_data id key index default) f w =
  bind (pd.get_data id key index default) f (w_load id w).
Proof. unfold bind. rewrite <- get_data_load. reflexivity. Qed.

(** [save_temp] adds a batch to the temp buffer. *)
Lemma save_temp_spec id name twts segs born temps w :
  store_ok w id name segs born temps ->
  Forall (fun s => is_id s = true) twts ->
  exists w',
    kth.save_temp id twts w = (Ok tt, w') /\
    store_ok w' id name segs born (temps ++ [twts]) /\
    fs_is_dir (temp_dir name) (w_fs w') = true.
Proof.
  intros Hok Hids.
  destruct (store_ok_load _ _ _ _ _ _ Hok) as [[Hname Hinv] [d Hload]].
  rewrite Hload in Hinv. destruct (si_rec _ _ _ _ _ _ Hinv) as [Hrec Htemp].
  pose proof (si_log _ _ _ _ _ _ Hinv) as Hlog.
  unfold kth.save_temp. rewrite bind_get_data_load.
  set (w0 := w_load (Id id) w) in *.
  assert (Hnum : pd.get_data (Id id) (Some "temp_db.file_num") None (JInt 1) w0
                 = (Ok (JInt (Z.of_nat (length temps) + 1)), w0)).
  { apply (get_data_key _ _ _ _ _ _ Hload).
    rewrite (get_temp_file_num d temps (JInt 1) Htemp eq_refl). destruct temps; reflexivity. }
  rewrite (bind_ok _ _ _ _ _ Hnum).
  rewrite (bind_ok _ _ _ _ _ (assemble_temp_dir _ _ w0 Hname (lf_user_free _ _ _ _ Hlog)
                                (lf_dir_free _ _ _ _ Hlog))).
  set (w1 := set_fs (temp_dirs name) w0).
  assert (Hinv1 : store_inv (w_fs w1) (Some (JDict d)) name segs born temps)
    by (apply store_inv_temp_dirs, Hinv).
  assert (Hdir1 : fs_is_dir (temp_dir name) (w_fs w1) = true)
    by (apply fs_is_dir_temp_dirs_temp, (tf_free _ _ _ (si_temp _ _ _ _ _ _ Hinv))).
  unfold lift at 1. unfold bind at 1. simpl as_int. cbv iota.
  change (kth.segment_file (temp_dir name) ?k) with (temp_path name k).
  rewrite (bind_ok _ _ _ _ _
             (write_file_spec (temp_path name (Z.of_nat (length temps) + 1))
                (kth.id_lines twts) w1
                (tf_not_dir _ _ _ (si_temp _ _ _ _ _ _ Hinv1) _) Hdir1)).
  set (w2 := set_fs (fs_put _ _) w1).
  destruct (set_temp_file_num d segs born temps twts Hrec Htemp) as (d' & Hset & Hrec' & Htemp').
  assert (Hload2 : _loaded_data (w_pd w2) !! Id id = Some (JDict d)) by exact Hload.
  change (fun x : json => if json_eqb x JNone then Ok (JInt 2)
                          else (x <- as_int x ;; Ok (JInt (x + 1)))%res) with next_temp.
  rewrite (bind_ok _ _ _ _ _
             (set_data_spec (Id id) "temp_db.file_num" JNone None (Some next_temp) w2
                (JDict d) (JDict d') true Hload2 Hset)).
  eexists. split; [reflexivity|]. split; [|exact Hdir1].
  split; [exact Hname|]. rewrite w_mark_loaded, w_put_loaded.
  apply (store_inv_stage _ d); assumption.
Qed.
(** *** Consolidation *)

(** The loop of [_combine_saves_with_temp] from temp file [n] down to 1:
    each batch that is there is appended to the log, the newest first. *)
Lemma _revolve_loop_spec id name limit temps :
  1 <= limit ->
  forall n w segs born,
    store_ok w id name segs born temps ->
    exists w' segs' born',
      kth._revolve_loop n (temp_dir name) (fun l => kth._save_explicit id l limit) w
      = (Ok tt, w') /\
      store_ok w' id name segs' born' temps /\
      concat segs' = concat segs ++ concat (rev (take n temps)) /\
      (rotated limit segs -> rotated limit segs') /\
      (concat (rev (take n temps)) <> [] \/ born = length segs -> born' = length segs') /\
      (is_Some (_loaded_data (w_pd w) !! Id id) ->
       is_Some (_loaded_data (w_pd w') !! Id id)).
Proof.
  intros Hlim. induction n as [|n IH]; intros w segs born Hok.
  - exists w, segs, born. simpl. rewrite app_nil_r.
    split; [reflexivity|]. split; [exact Hok|]. split; [reflexivity|].
    split; [auto|]. split; [|auto]. intros [H|H]; [congruence | exact H].
  - cbn [kth._revolve_loop].
    change (kth.segment_file (temp_dir name) ?k) with (temp_path name k).
    pose proof (si_temp _ _ _ _ _ _ (proj2 Hok)) as Ht.
    destruct (temps !! n) as [b|] eqn:Eb.
    + (* temp file [n + 1] holds the batch [b] *)
      pose proof (tf_files _ _ _ Ht n b Eb) as Hfile.
      pose proof (tf_not_dir _ _ _ Ht (Z.of_nat (S n))) as Hnd.
      assert (Hb : Forall (fun s => is_id s = true) b).
      { pose proof (tf_ids _ _ _ Ht) as Hall. unfold all_ids in Hall.
        rewrite Forall_lookup in Hall. apply (Hall n b Eb). }
      unfold bind at 1. unfold os_path_exists, gets. unfold fs_exists. rewrite Hfile, Hnd.
      rewrite bool_decide_eq_true_2 by eauto. simpl orb. cbv iota.
      unfold bind at 1. unfold bind at 1. unfold read_file at 1. unfold bind at 1, gets.
      rewrite Hnd, Hfile. unfold ret at 1.
      rewrite (temp_lines_id_lines b Hb).
      destruct (_save_explicit_spec id name limit b segs born temps w Hok Hlim Hb)
        as (w1 & segs1 & born1 & d1 & Hrun & Hload1 & Hok1 & Hcat1 & Hrot1 & Hborn1).
      rewrite Hrun.
      destruct (IH w1 segs1 born1 Hok1)
        as (w' & segs' & born' & Hrun' & Hok' & Hcat' & Hrot' & Hborn' & Hl').
      exists w', segs', born'. split; [exact Hrun'|]. split; [exact Hok'|].
      rewrite (take_S_r _ _ _ Eb), rev_app_distr. simpl rev. simpl concat.
      split; [rewrite Hcat', Hcat1, <- app_assoc; reflexivity|].
      split; [auto|]. split.
      * intros H. apply Hborn'.
        destruct (decide (b = [])) as [->|Hne].
        -- simpl in H. destruct H as [H|H]; [left; exact H|]. right. apply Hborn1. auto.
        -- right. apply Hborn1. auto.
      * intros _. apply Hl'. rewrite Hload1. eauto.
    + (* there is no temp file [n + 1] *)
      apply lookup_ge_None_1 in Eb.
      pose proof (tf_fresh _ _ _ Ht (Z.of_nat (S n))) as Hfile.
      pose proof (tf_not_dir _ _ _ Ht (Z.of_nat (S n))) as Hnd.
      unfold bind at 1. unfold os_path_exists, gets. unfold fs_exists.
      rewrite Hfile, Hnd by lia.
      rewrite bool_decide_eq_false_2 by (intros [? ?]; discriminate). simpl orb. cbv iota.
      unfold bind at 1. unfold ret at 1.
      destruct (IH w segs born Hok)
        as (w' & segs' & born' & Hrun' & Hok' & Hcat' & Hrot' & Hborn' & Hl').
      exists w', segs', born'. split; [exact Hrun'|]. split; [exact Hok'|].
      rewrite !take_ge in * by lia. auto.
Qed.

(** What [shutil.rmtree] leaves. *)
Lemma fs_rmtree_files q p fs :
  fs_files (fs_rmtree q fs) !! p = if under q p then None else fs_files fs !! p.
Proof.
  unfold fs_rmtree. simpl. destruct (under q p) eqn:E.
  - apply map_lookup_filter_None. right. intros x _. simpl. rewrite E. discriminate.
  - destruct (fs_files fs !! p) as [x|] eqn:Ep.
    + apply map_lookup_filter_Some. split; [exact Ep | exact E].
    + apply map_lookup_filter_None. left. exact Ep.
Qed.

Lemma fs_is_dir_rmtree q p fs :
  p <> [] -> fs_is_dir p (fs_rmtree q fs) = fs_is_dir p fs && negb (under q p).
Proof.
  intros Hp. unfold fs_is_dir, fs_rmtree. simpl.
  rewrite !(bool_decide_eq_false_2 (p = [])) by exact Hp. simpl.
  destruct (under q p) eqn:E.
  - rewrite andb_false_r. apply bool_decide_eq_false. rewrite elem_of_filter.
    intros [H _]. congruence.
  - rewrite andb_true_r. apply bool_decide_ext. rewrite elem_of_filter. tauto.
Qed.

(** Deleting a key of the record itself. *)
Lemma _del_top key d :
  pd.key_prefix key = [] -> pd.key_last key = key ->
  pd._del key (JDict d) =
    (JDict (if dict_mem key d then dict_del key d else d), Ok (dict_mem key d)).
Proof.
  intros Hp Hl. unfold pd._del. rewrite Hp, Hl. simpl.
  destruct (dict_mem key d); reflexivity.
Qed.

(** After the temp buffer was removed and forgotten. *)
Lemma store_inv_cleanup fs d name segs born temps :
  store_inv fs (Some (JDict d)) name segs born temps ->
  store_inv (fs_rmtree (temp_dir name) fs) (Some (JDict (dict_del "temp_db" d)))
            name segs born [].
Proof.
  intros [Hs [L1 L2 L3 L4 L5] [T1 T2 T3 T4 T5 T6 T7] [Hrec Htemp]].
  split; [assumption | split | split | split].
  - rewrite fs_rmtree_files. destruct (under _ _); [reflexivity | exact L1].
  - rewrite fs_rmtree_files. destruct (under _ _); [reflexivity | exact L2].
  - intros k. rewrite fs_is_dir_rmtree by discriminate. rewrite L3. reflexivity.
  - intros i s Hi Hsi. rewrite fs_rmtree_files, seg_not_under_temp. apply L4; assumption.
  - intros k Hk. rewrite fs_rmtree_files, seg_not_under_temp. apply L5, Hk.
  - rewrite fs_rmtree_files. destruct (under _ _); [reflexivity | exact T1].
  - congruence.
  - intros k. rewrite fs_is_dir_rmtree by discriminate. rewrite T3. reflexivity.
  - intros i b Hb. inversion Hb.
  - intros k _. rewrite fs_rmtree_files, temp_path_under. reflexivity.
  - intros _ p Hp. rewrite fs_rmtree_files, Hp. reflexivity.
  - constructor.
  - destruct Hrec as (t & H1 & H2). exists t. rewrite dict_get_del_ne by discriminate. auto.
  - apply dict_get_del_eq.
Qed.

Lemma temp_dir_exists name w :
  fs_files (w_fs w) !! temp_dir name = None ->
  os_path_exists (temp_dir name) (set_fs (temp_dirs name) w)
  = (Ok true, set_fs (temp_dirs name) w).
Proof.
  intros H. unfold os_path_exists, gets, fs_exists.
  change (w_fs (set_fs (temp_dirs name) w)) with (temp_dirs name (w_fs w)).
  rewrite (fs_is_dir_temp_dirs_temp _ _ H). reflexivity.
Qed.

Lemma store_ok_temp_dirs w id name segs born temps :
  store_ok w id name segs born temps ->
  store_ok (set_fs (temp_dirs name) w) id name segs born temps.
Proof. intros [Hn Hinv]. split; [exact Hn|]. apply store_inv_temp_dirs, Hinv. Qed.

(** The number [_revolve_temp_files] starts its loop at. *)
Definition revolve_start (temps : list (list string)) : nat :=
  match temps with [] => 0 | _ => S (length temps) end.

Lemma take_revolve_start temps : take (revolve_start temps) temps = temps.
Proof. destruct temps; [reflexivity|]. apply take_ge. simpl. lia. Qed.

(** [_combine_saves_with_temp]: every staged batch is appended to the log,
    the batch staged last first. *)
Lemma _combine_saves_with_temp_spec id name limit segs born temps w d :
  1 <= limit ->
  store_ok w id name segs born temps ->
  _loaded_data (w_pd w) !! Id id = Some (JDict d) ->
  exists w' segs' born' d',
    kth._combine_saves_with_temp id limit w = (Ok tt, w') /\
    store_ok w' id name segs' born' temps /\
    _loaded_data (w_pd w') !! Id id = Some (JDict d') /\
    concat segs' = concat segs ++ concat (rev temps) /\
    (rotated limit segs -> rotated limit segs') /\
    (concat (rev temps) <> [] \/ born = length segs -> born' = length segs').
Proof.
  intros Hlim Hok Hload. destruct Hok as [Hname Hinv].
  pose proof (si_log _ _ _ _ _ _ Hinv) as Hlog.
  pose proof (si_temp _ _ _ _ _ _ Hinv) as Ht.
  unfold kth._combine_saves_with_temp, kth._revolve_temp_files.
  rewrite (bind_ok _ _ _ _ _ (assemble_temp_dir _ _ w Hname (lf_user_free _ _ _ _ Hlog)
                                (lf_dir_free _ _ _ _ Hlog))).
  rewrite (bind_ok _ _ _ _ _ (temp_dir_exists name w (tf_free _ _ _ Ht))).
  change (negb true) with false. cbv iota.
  set (w2 := set_fs (temp_dirs name) w).
  assert (Hok2 : store_ok w2 id name segs born temps)
    by (apply store_ok_temp_dirs; split; assumption).
  assert (Hload2 : _loaded_data (w_pd w2) !! Id id = Some (JDict d)) by exact Hload.
  rewrite Hload in Hinv. destruct (si_rec _ _ _ _ _ _ Hinv) as [_ Htemp].
  assert (Hnum : pd.get_data (Id id) (Some "temp_db.file_num") None (JInt 0) w2
                 = (Ok (JInt (Z.of_nat (revolve_start temps))), w2)).
  { apply (get_data_key _ _ _ _ _ _ Hload2).
    rewrite (get_temp_file_num d temps (JInt 0) Htemp eq_refl).
    destruct temps; [reflexivity|]. do 3 f_equal. unfold revolve_start. lia. }
  rewrite (bind_ok _ _ _ _ _ Hnum).
  unfold lift at 1. unfold bind at 1. simpl as_int. cbv iota. rewrite Nat2Z.id.
  destruct (_revolve_loop_spec id name limit temps Hlim (revolve_start temps) w2 segs born Hok2)
    as (w' & segs' & born' & Hrun & Hok' & Hcat & Hrot & Hborn & Hl).
  rewrite take_revolve_start in Hcat, Hborn.
  destruct Hl as [r Hr]; [rewrite Hload2; eauto|].
  pose proof (si_rec _ _ _ _ _ _ (proj2 Hok')) as Hrec'. rewrite Hr in Hrec'.
  destruct r as [| | | |d']; simpl in Hrec'; try contradiction.
  exists w', segs', born', d'. auto 10.
Qed.

(** The capacity [save_to_file] works with. *)
Definition capacity (limit : Z) : Z := Z.min (Z.max limit 1000) 10000.

Lemma capacity_range limit : 1000 <= capacity limit <= 10000.
Proof. unfold capacity. lia. Qed.

(** The last step of [save_to_file]: the temp buffer is removed and
    forgotten. *)
Definition cleanup (id name : string) (d : list (string * json)) (w : world) : world :=
  w_put (Id id) (JDict (dict_del "temp_db" d))
    (set_fs (fs_rmtree (temp_dir name)) (set_fs (temp_dirs name) w)).

Lemma del_temp_db d :
  pd._del "temp_db" (JDict d) = (JDict (dict_del "temp_db" d), Ok (dict_mem "temp_db" d)).
Proof.
  rewrite (_del_top "temp_db" d eq_refl eq_refl).
  destruct (dict_mem "temp_db" d) eqn:E; [reflexivity|].
  rewrite dict_del_absent; [reflexivity|].
  unfold dict_mem in E. destruct (dict_get "temp_db" d); [discriminate | reflexivity].
Qed.

Lemma cleanup_spec id name segs born temps w d :
  store_ok w id name segs born temps ->
  _loaded_data (w_pd w) !! Id id = Some (JDict d) ->
  (tmp_dirname <- futils.assemble_dir [id; "known_tweets"; "temp"] true ;;
   e <- os_path_exists tmp_dirname ;;
   if (e : bool) then
     shutil_rmtree tmp_dirname ;; pd.del_data (Id id) (Some "temp_db") ;; ret tt
   else ret tt) w = (Ok tt, cleanup id name d w) /\
  store_ok (cleanup id name d w) id name segs born [] /\
  fs_exists (temp_dir name) (w_fs (cleanup id name d w)) = false.
Proof.
  intros [Hname Hinv] Hload.
  pose proof (si_log _ _ _ _ _ _ Hinv) as Hlog.
  pose proof (si_temp _ _ _ _ _ _ Hinv) as Ht.
  split; [|split].
  - rewrite (bind_ok _ _ _ _ _ (assemble_temp_dir _ _ w Hname (lf_user_free _ _ _ _ Hlog)
                                  (lf_dir_free _ _ _ _ Hlog))).
    rewrite (bind_ok _ _ _ _ _ (temp_dir_exists name w (tf_free _ _ _ Ht))).
    cbv iota.
    set (w2 := set_fs (temp_dirs name) w).
    assert (Hrm : shutil_rmtree (temp_dir name) w2
                  = (Ok tt, set_fs (fs_rmtree (temp_dir name)) w2)).
    { unfold shutil_rmtree, bind, gets.
      change (w_fs w2) with (temp_dirs name (w_fs w)).
      rewrite (fs_is_dir_temp_dirs_temp _ _ (tf_free _ _ _ Ht)). reflexivity. }
    rewrite (bind_ok _ _ _ _ _ Hrm).
    set (w3 := set_fs (fs_rmtree (temp_dir name)) w2).
    assert (Hload3 : _loaded_data (w_pd w3) !! Id id = Some (JDict d)) by exact Hload.
    unfold pd.del_data.
    rewrite (bind_ok _ _ _ _ _ (on_loaded_spec _ _ _ _ _ _ Hload3 (del_temp_db d))).
    reflexivity.
  - split; [exact Hname|]. unfold cleanup.
    match goal with |- context [_loaded_data (w_pd (w_put ?i ?x ?w0)) !! ?i] =>
      rewrite (w_put_loaded i x w0) end.
    apply (store_inv_cleanup _ _ _ _ _ temps), store_inv_temp_dirs.
    rewrite Hload in Hinv. exact Hinv.
  - unfold fs_exists.
    change (w_fs (cleanup id name d w))
      with (fs_rmtree (temp_dir name) (temp_dirs name (w_fs w))).
    rewrite fs_is_dir_rmtree by discriminate. rewrite fs_rmtree_files.
    assert (Hu : under (temp_dir name) (temp_dir name) = true)
      by (apply bool_decide_eq_true; reflexivity).
    rewrite Hu, andb_false_r. reflexivity.
Qed.

(** [known_tweets_handler.save_to_file]: the batch is appended to the log,
    then the staged batches, newest first; the temp buffer is gone. *)
Lemma save_to_file_spec id name limit twts segs born temps w :
  store_ok w id name segs born temps ->
  Forall (fun s => is_id s = true) twts ->
  exists w' segs' born' d',
    kth.save_to_file id twts limit w = (Ok tt, w') /\
    store_ok w' id name segs' born' [] /\
    _loaded_data (w_pd w') !! Id id = Some (JDict d') /\
    concat segs' = concat segs ++ twts ++ concat (rev temps) /\
    (rotated (capacity limit) segs -> rotated (capacity limit) segs') /\
    (twts ++ concat (rev temps) <> [] \/ born = length segs -> born' = length segs') /\
    fs_exists (temp_dir name) (w_fs w') = false.
Proof.
  intros Hok Hids. pose proof (capacity_range limit) as HC.
  unfold kth.save_to_file. cbv zeta. fold (capacity limit).
  destruct (_save_explicit_spec id name (capacity limit) twts segs born temps w Hok
              ltac:(lia) Hids)
    as (w1 & segs1 & born1 & d1 & Hrun1 & Hload1 & Hok1 & Hcat1 & Hrot1 & Hborn1).
  rewrite (bind_ok _ _ _ _ _ Hrun1).
  destruct (_combine_saves_with_temp_spec id name (capacity limit) segs1 born1 temps w1 d1
              ltac:(lia) Hok1 Hload1)
    as (w2 & segs2 & born2 & d2 & Hrun2 & Hok2 & Hload2 & Hcat2 & Hrot2 & Hborn2).
  rewrite (bind_ok _ _ _ _ _ Hrun2).
  destruct (cleanup_spec id name segs2 born2 temps w2 d2 Hok2 Hload2) as (Hrun3 & Hok3 & Hgone).
  rewrite Hrun3.
  exists (cleanup id name d2 w2), segs2, born2, (dict_del "temp_db" d2).
  split; [reflexivity|]. split; [exact Hok3|]. split; [apply w_put_loaded|].
  split; [rewrite Hcat2, Hcat1, <- app_assoc; reflexivity|].
  split; [auto|]. split; [|exact Hgone].
  intros H. apply Hborn2.
  destruct (decide (concat (rev temps) = [])) as [He|Hne]; [|left; exact Hne].
  right. apply Hborn1. rewrite He, app_nil_r in H. exact H.
Qed.
(** ** A load from a store *)

(** The IDs of the segments as a load meets them. *)
Definition newest_first (segs : list (list string)) : list (list string) :=
  rev (map (@rev string) segs).

Lemma concat_newest_first segs : concat (newest_first segs) = rev (concat segs).
Proof.
  unfold newest_first. induction segs as [|s segs IH]; [reflexivity|].
  simpl. rewrite concat_app, IH, rev_app_distr. simpl. rewrite app_nil_r. reflexivity.
Qed.

Lemma store_segments_hold fs name segs born temps r :
  store_inv fs r name segs born temps -> born = length segs ->
  forall i c, map kth.id_lines segs !! i = Some c ->
    fs_is_dir (seg_path name (Z.of_nat (S i))) fs = false /\
    fs_files fs !! seg_path name (Z.of_nat (S i)) = Some c.
Proof.
  intros Hinv -> i c Hi. pose proof (si_log _ _ _ _ _ _ Hinv) as Hlog.
  split; [apply (lf_seg_not_dir _ _ _ _ Hlog)|].
  rewrite list_lookup_fmap in Hi. destruct (segs !! i) as [s|] eqn:Es; [|discriminate].
  injection Hi as <-. apply (lf_segs _ _ _ _ Hlog i s); [|exact Es].
  apply lookup_lt_Some in Es. exact Es.
Qed.

Lemma lines_newest_first_store w segs :
  all_ids segs ->
  lines_newest_first w (map kth.id_lines segs) = newest_first segs.
Proof.
  intros Hids. unfold lines_newest_first, newest_first. f_equal. rewrite map_map.
  induction Hids as [|s segs Hs _ IH]; [reflexivity|].
  simpl. rewrite (reverse_lines_id_lines _ _ Hs), IH. reflexivity.
Qed.

Lemma load_lines_unborn limit : load_lines limit (newest_first [[]]) = [].
Proof.
  unfold newest_first. simpl.
  destruct (clamp_limit limit <? 1); [reflexivity|].
  destruct (0 <? clamp_limit limit); reflexivity.
Qed.

(** A load from a store returns the newest lines of the log.  The world
    it leaves has the record loaded and the directory of the log made. *)
Lemma load_from_file_store id name segs born temps w limit :
  store_ok w id name segs born temps ->
  born = length segs \/ born = 0%nat ->
  kth.load_from_file id limit None w =
    (Ok (load_lines limit (newest_first segs)),
     set_fs (log_dirs name) (w_load (Id id) w)).
Proof.
  intros Hok Hborn.
  destruct (store_ok_load _ _ _ _ _ _ Hok) as [[Hname Hinv] [d Hload]].
  rewrite Hload in Hinv. destruct (si_rec _ _ _ _ _ _ Hinv) as [Hrec _].
  pose proof (si_log _ _ _ _ _ _ Hinv) as Hlog.
  pose proof (si_shape _ _ _ _ _ _ Hinv) as Hshape.
  set (w0 := w_load (Id id) w) in *.
  assert (Hnum : (v <- pd.get_data (Id id) (Some "twt_db.file_num") None JNone ;;
                  lift (as_int v)) w = (Ok (Z.of_nat (length segs)), w0)).
  { rewrite bind_get_data_load. fold w0.
    destruct Hrec as (t & Ht & Hf & _).
    rewrite (bind_ok _ _ _ _ _
               (get_data_key _ _ JNone _ _ _ Hload
                  (_get_2 _ _ _ key2_twt_file_num _ _ _ _ Ht Hf))).
    reflexivity. }
  unfold kth.load_from_file. rewrite (bind_ok _ _ _ _ _ Hnum).
  pose proof (ls_len _ _ Hshape) as Hlen.
  replace (Z.of_nat (length segs) <? 1) with false by (symmetry; apply Z.ltb_ge; lia).
  rewrite Nat2Z.id.
  pose proof (assemble_log_dir id name w0 Hname (lf_user_free _ _ _ _ Hlog)
                (lf_dir_free _ _ _ _ Hlog)) as Ha.
  set (w1 := set_fs (log_dirs name) w0) in *.
  assert (Hinv1 : store_inv (w_fs w1) (Some (JDict d)) name segs born temps)
    by (apply store_inv_log_dirs, Hinv).
  destruct (decide (born = length segs)) as [Hb|Hb].
  - rewrite <- (length_map kth.id_lines segs).
    rewrite (load_from_file_at_spec' (map kth.id_lines segs) w0 w1 id
               [name; "known_tweets"] limit).
    + rewrite (lines_newest_first_store _ _ (ls_ids _ _ Hshape)). reflexivity.
    + destruct segs; [simpl in Hlen; lia | discriminate].
    + exact Ha.
    + exact (store_segments_hold _ _ _ _ _ _ Hinv1 Hb).
  - destruct Hborn as [Hborn|Hborn]; [contradiction|]. subst born.
    destruct (ls_born _ _ Hshape) as [H0|[H1 Hlast]]; [lia|].
    destruct segs as [|s [|s' segs]]; simpl in H1; try lia.
    simpl in Hlast. injection Hlast as ->. simpl length.
    rewrite (load_from_file_at_missing 0 id limit w0 w1 [name; "known_tweets"] Ha).
    + symmetry. f_equal. f_equal. apply load_lines_unborn.
    + unfold fs_exists.
      change (kth.segment_file [name; "known_tweets"] ?k) with (seg_path name k).
      rewrite (lf_seg_not_dir _ _ _ _ (si_log _ _ _ _ _ _ Hinv1)).
      rewrite (lf_fresh _ _ _ _ (si_log _ _ _ _ _ _ Hinv1)) by (simpl; lia). reflexivity.
Qed.

(** ** What a store shows *)

(** A segment the file of which has not been written is empty. *)
Lemma unborn_empty segs born i s :
  log_shape segs born -> segs !! i = Some s -> (born <= i)%nat -> s = [].
Proof.
  intros [_ Hb _] Hs Hi. pose proof (lookup_lt_Some _ _ _ Hs) as Hlt.
  destruct Hb as [->|[Hb Hlast]]; [lia|].
  assert (i = born) by lia. subst i.
  rewrite last_lookup in Hlast. replace (pred (length segs)) with born in Hlast by lia.
  congruence.
Qed.

Section Observe.
Variables (w : world) (id name : string) (segs : list (list string)) (born : nat)
  (temps : list (list string)).
Hypothesis Hok : store_ok w id name segs born temps.

(** The file of segment [i + 1] holds the IDs of the segment, one per
    line, unless the segment is empty and has no file yet. *)
Lemma store_file i s :
  segs !! i = Some s -> s <> [] ->
  fs_files (w_fs w) !! seg_path name (Z.of_nat (S i)) = Some (kth.id_lines s).
Proof.
  intros Hs Hne. destruct Hok as [_ Hinv].
  apply (lf_segs _ _ _ _ (si_log _ _ _ _ _ _ Hinv)); [|exact Hs].
  destruct (le_lt_dec born i) as [Hle|Hlt]; [|exact Hlt].
  destruct Hne. apply (unborn_empty _ _ _ _ (si_shape _ _ _ _ _ _ Hinv) Hs Hle).
Qed.

Lemma store_no_file k :
  Z.of_nat (length segs) < k -> fs_files (w_fs w) !! seg_path name k = None.
Proof.
  intros Hk. destruct Hok as [_ Hinv].
  apply (lf_fresh _ _ _ _ (si_log _ _ _ _ _ _ Hinv)).
  destruct (ls_born _ _ (si_shape _ _ _ _ _ _ Hinv)) as [->|[Hb _]]; lia.
Qed.

(** The record has the number of segments at [twt_db.file_num]. *)
Lemma store_file_num :
  fst (pd.get_data (Id id) (Some "twt_db.file_num") None JNone w)
  = Ok (JInt (Z.of_nat (length segs))).
Proof.
  destruct (store_ok_load _ _ _ _ _ _ Hok) as [[_ Hinv] [d Hload]].
  rewrite Hload in Hinv. destruct (si_rec _ _ _ _ _ _ Hinv) as [(t & Ht & Hf & _) _].
  rewrite get_data_load.
  rewrite (get_data_key _ _ JNone _ _ _ Hload (_get_2 _ _ _ key2_twt_file_num _ _ _ _ Ht Hf)).
  reflexivity.
Qed.

(** The record has the number of lines of segment [i + 1] at index [i]
    of [twt_db.line_count], read as [_save_explicit] reads it. *)
Lemma store_line_count i s :
  segs !! i = Some s ->
  fst (pd.get_data (Id id) (Some "twt_db.line_count") (Some (Z.of_nat i)) (JInt 0) w)
  = Ok (JInt (Z.of_nat (length s))).
Proof.
  intros Hs.
  destruct (store_ok_load _ _ _ _ _ _ Hok) as [[_ Hinv] [d Hload]].
  rewrite Hload in Hinv. destruct (si_rec _ _ _ _ _ _ Hinv) as [(t & Ht & _ & Hlc) _].
  rewrite get_data_load.
  rewrite (get_data_index _ _ _ (JInt 0) _ _ _ Hload
             (_get_in_list_2 _ _ _ key2_twt_line_count _ _ _ _ _ Ht Hlc (Nat2Z.is_nonneg i))).
  rewrite Nat2Z.id. simpl fst. unfold seg_counts. rewrite list_lookup_fmap.
  destruct (le_lt_dec born i) as [Hle|Hlt].
  - rewrite lookup_take_ge by exact Hle. simpl.
    rewrite (unborn_empty _ _ _ _ (si_shape _ _ _ _ _ _ Hinv) Hs Hle). reflexivity.
  - rewrite lookup_take_lt by exact Hlt. rewrite Hs. reflexivity.
Qed.

End Observe.

(** ** Sequences of appends *)

(** The calls [save_to_file(id, b, limit)] for the batches [b] of a list,
    one after the other. *)
Definition appends (id : string) (limit : Z) (batches : list (list string)) : Py unit :=
  for_each batches (fun b => kth.save_to_file id b limit ;; ret true).

Lemma appends_spec id name limit batches :
  all_ids batches ->
  forall w segs born,
    store_ok w id name segs born [] ->
    exists w' segs' born',
      appends id limit batches w = (Ok tt, w') /\
      store_ok w' id name segs' born' [] /\
      concat segs' = concat segs ++ concat batches /\
      (rotated (capacity limit) segs -> rotated (capacity limit) segs') /\
      (concat batches <> [] \/ born = length segs -> born' = length segs').
Proof.
  induction 1 as [|b batches Hb _ IH]; intros w segs born Hok.
  - exists w, segs, born. simpl. rewrite app_nil_r.
    split; [reflexivity|]. split; [exact Hok|]. split; [reflexivity|].
    split; [auto|]. intros [H|H]; [congruence | exact H].
  - destruct (save_to_file_spec id name limit b segs born [] w Hok Hb)
      as (w1 & segs1 & born1 & d1 & Hrun1 & Hok1 & _ & Hcat1 & Hrot1 & Hborn1 & _).
    simpl in Hcat1, Hborn1. rewrite app_nil_r in Hcat1, Hborn1.
    destruct (IH w1 segs1 born1 Hok1) as (w' & segs' & born' & Hrun & Hok' & Hcat & Hrot & Hborn).
    exists w', segs', born'. unfold appends. cbn [for_each].
    rewrite (bind_ok _ _ _ _ _ (bind_ok _ _ _ _ _ Hrun1 : (kth.save_to_file id b limit ;; ret true) w = (Ok true, w1))).
    split; [exact Hrun|]. split; [exact Hok'|]. simpl concat.
    split; [rewrite Hcat, Hcat1, <- app_assoc; reflexivity|]. split; [auto|].
    intros H. apply Hborn.
    destruct (decide (concat batches = [])) as [He|Hne]; [|left; exact Hne].
    right. apply Hborn1. rewrite He, app_nil_r in H. exact H.
Qed.

(** The number of lines of a file: the number of its line feeds. *)
Definition count_lines (b : bytes) : nat := length (filter (fun c => c = LF) b).

Lemma count_lines_id_lines ids :
  Forall (fun s => is_id s = true) ids -> count_lines (kth.id_lines ids) = length ids.
Proof.
  unfold count_lines. induction 1 as [|t ids Ht _ IH]; [reflexivity|].
  change (kth.id_lines (t :: ids)) with ((encode t ++ [LF]) ++ kth.id_lines ids).
  rewrite !filter_app, !length_app, IH.
  assert (Hnone : filter (fun c => c = LF) (encode t) = []).
  { pose proof (is_id_no LF t eq_refl Ht) as Hno.
    induction Hno as [|c l Hc _ IHl]; [reflexivity|].
    rewrite filter_cons, decide_False by exact Hc. exact IHl. }
  rewrite Hnone. reflexivity.
Qed.

(** The IDs ["0"], ["1"], ..., up to [n - 1]. *)
Definition numbered (n : nat) : list string := map (fun k => pretty (Z.of_nat k)) (seq 0 n).

Definition scenario : world :=
  snd (kth.save_to_file "12345" (numbered 2500) 1000 (init_world (fun _ _ => not_found))).

(** The number of lines of the file of segment [k], 0 when there is no
    such file. *)
Definition physical_count (w : world) (name : string) (k : Z) : nat :=
  count_lines (default [] (fs_files (w_fs w) !! seg_path name k)).

(** The line count the record has for segment [k], read as
    [_save_explicit] reads it. *)
Definition recorded_count (w : world) (id : string) (k : Z) : res json :=
  fst (pd.get_data (Id id) (Some "twt_db.line_count") (Some (k - 1)) (JInt 0) w).

Definition recorded_file_num (w : world) (id : string) : res json :=
  fst (pd.get_data (Id id) (Some "twt_db.file_num") None JNone w).

Lemma store_counts w id name segs born temps i s :
  store_ok w id name segs born temps -> segs !! i = Some s ->
  recorded_count w id (Z.of_nat (S i)) = Ok (JInt (Z.of_nat (length s))) /\
  physical_count w name (Z.of_nat (S i)) = length s.
Proof.
  intros Hok Hs. split.
  - unfold recorded_count. replace (Z.of_nat (S i) - 1) with (Z.of_nat i) by lia.
    apply (store_line_count _ _ _ _ _ _ Hok _ _ Hs).
  - unfold physical_count. destruct Hok as [_ Hinv].
    pose proof (si_log _ _ _ _ _ _ Hinv) as Hlog.
    pose proof (si_shape _ _ _ _ _ _ Hinv) as Hshape.
    destruct (le_lt_dec born i) as [Hle|Hlt].
    + rewrite (lf_fresh _ _ _ _ Hlog) by lia.
      rewrite (unborn_empty _ _ _ _ Hshape Hs Hle). reflexivity.
    + rewrite (lf_segs _ _ _ _ Hlog i s Hlt Hs). simpl default.
      apply count_lines_id_lines.
      pose proof (ls_ids _ _ Hshape) as Hall. unfold all_ids in Hall.
      rewrite Forall_lookup in Hall. apply (Hall i s Hs).
Qed.

Lemma numbered_length n : length (numbered n) = n.
Proof. unfold numbered. rewrite length_map, length_seq. reflexivity. Qed.

Lemma numbered_nodup n : NoDup (numbered n).
Proof.
  unfold numbered. apply NoDup_fmap_2_strong; [|apply NoDup_ListNoDup, seq_NoDup].
  intros x y _ _ H. apply (inj pretty) in H. lia.
Qed.

(** The decimal numeral of a natural number is an ID. *)
Lemma pretty_N_char_no_space x : is_space (pretty_N_char x) = false.
Proof.
  unfold pretty_N_char.
  destruct x as [|p]; [reflexivity|].
  do 4 (destruct p as [p|p|]; try reflexivity).
Qed.

Lemma is_id_cons c s :
  is_space c = false -> (s = "" \/ is_id s = true) -> is_id (String c s) = true.
Proof.
  intros Hc Hs. unfold is_id. simpl. rewrite Hc. simpl.
  destruct Hs as [->|Hs]; [reflexivity|].
  apply andb_true_iff in Hs as [_ Hs]. exact Hs.
Qed.

Lemma is_id_pretty_N_go x :
  forall s, (s = "" /\ (0 < x)%N) \/ is_id s = true -> is_id (pretty_N_go x s) = true.
Proof.
  induction (N.lt_wf_0 x) as [x _ IH]. intros s Hs.
  destruct (decide (x = 0)%N) as [->|Hx].
  - rewrite pretty_N_go_0. destruct Hs as [[_ H]|H]; [lia | exact H].
  - rewrite pretty_N_go_step by lia. apply IH; [apply N.div_lt; lia|].
    right. apply is_id_cons; [apply pretty_N_char_no_space|].
    destruct Hs as [[-> _]|H]; auto.
Qed.

Lemma is_id_pretty (z : Z) : 0 <= z -> is_id (pretty z) = true.
Proof.
  intros Hz. destruct z as [|p|p]; [reflexivity| |lia].
  change (pretty (Z.pos p)) with (pretty (N.pos p)). unfold pretty, pretty_N.
  rewrite decide_False by discriminate. apply is_id_pretty_N_go. left. split; [reflexivity|lia].
Qed.

Lemma numbered_ids n : Forall (fun s => is_id s = true) (numbered n).
Proof.
  unfold numbered. apply Forall_forall. intros s Hs.
  apply list_elem_of_In, in_map_iff in Hs as (k & <- & _). apply is_id_pretty. lia.
Qed.

(** The whole list at [twt_db.line_count], when every segment has its
    file. *)
Lemma store_line_counts w id name segs temps :
  store_ok w id name segs (length segs) temps ->
  fst (pd.get_data (Id id) (Some "twt_db.line_count") None JNone w)
  = Ok (JList (seg_counts segs)).
Proof.
  intros Hok.
  destruct (store_ok_load _ _ _ _ _ _ Hok) as [[_ Hinv] [d Hload]].
  rewrite Hload in Hinv. destruct (si_rec _ _ _ _ _ _ Hinv) as [(t & Ht & _ & Hlc) _].
  rewrite firstn_all in Hlc. rewrite get_data_load.
  rewrite (get_data_key _ _ JNone _ _ _ Hload
             (_get_2 _ _ _ key2_twt_line_count _ _ _ _ Ht Hlc)).
  reflexivity.
Qed.

(** The only way to cut 2500 IDs into rotated segments of capacity 1000. *)
Lemma rotated_2500 (segs : list (list string)) l :
  rotated 1000 segs -> concat segs = l -> length l = 2500%nat ->
  segs = [take 1000 l; take 1000 (drop 1000 l); drop 2000 l].
Proof.
  intros (older & head & -> & Ho & Hh) Hcat Hlen.
  rewrite <- Hcat in Hlen. rewrite concat_app, length_app in Hlen. simpl in Hlen.
  rewrite app_nil_r in Hlen.
  destruct older as [|a older]; [simpl in Hlen; lia|].
  apply Forall_cons in Ho as [Ha Ho]. simpl in Hlen. rewrite length_app in Hlen.
  destruct older as [|b older]; [simpl in Hlen; lia|].
  apply Forall_cons in Ho as [Hb Ho]. simpl in Hlen. rewrite length_app in Hlen.
  destruct older as [|c older].
  - simpl in Hcat. rewrite app_nil_r in Hcat. subst l.
    rewrite take_app_length' by lia. rewrite drop_app_length' by lia.
    rewrite take_app_length' by lia.
    rewrite (app_assoc a b head).
    rewrite (drop_app_length' (a ++ b) head 2000) by (rewrite length_app; lia).
    reflexivity.
  - apply Forall_cons in Ho as [Hc Ho]. simpl in Hlen. rewrite length_app in Hlen. lia.
Qed.

Lemma scenario_spec :
  fst (kth.save_to_file "12345" (numbered 2500) 1000 (init_world (fun _ _ => not_found)))
  = Ok tt /\
  recorded_file_num scenario "12345" = Ok (JInt 3) /\
  fst (pd.get_data (Id "12345") (Some "twt_db.line_count") None JNone scenario)
  = Ok (JList [JInt 1000; JInt 1000; JInt 500]) /\
  map (physical_count scenario "12345") [1; 2; 3; 4] = [1000; 1000; 500; 0]%nat /\
  fst (kth.load_from_file "12345" 1500 None scenario)
  = Ok (rev (drop 1000 (numbered 2500))).
Proof.
  unfold scenario. set (l := numbered 2500).
  assert (Hlen : length l = 2500%nat) by apply numbered_length.
  pose proof (numbered_ids 2500) as Hids. pose proof (numbered_nodup 2500) as Hnd.
  fold l in Hids, Hnd. clearbody l.
  destruct (save_to_file_spec "12345" "12345" 1000 l [[]] 0 [] _
              (store_ok_init (fun _ _ => not_found) "12345" "12345" eq_refl) Hids)
    as (w1 & segs' & born' & d' & Hrun & Hok1 & _ & Hcat & Hrot & Hborn & _).
  change (concat [[]]) with (@nil string) in Hcat.
  change (concat (rev [])) with (@nil string) in Hcat, Hborn.
  rewrite app_nil_l, app_nil_r in Hcat. rewrite app_nil_r in Hborn.
  rewrite Hrun. simpl fst. simpl snd.
  assert (Hsegs : segs' = [take 1000 l; take 1000 (drop 1000 l); drop 2000 l]).
  { apply rotated_2500; [|exact Hcat | exact Hlen].
    change 1000 with (capacity 1000). apply Hrot.
    apply rotated_snoc with (older := []).
    split; [apply Forall_nil_2 | unfold capacity; simpl; lia]. }
  assert (Hb : born' = length segs').
  { apply Hborn. left. intros H. rewrite H in Hlen. discriminate. }
  subst born'.
  assert (H1 : length (take 1000 l) = 1000%nat) by (rewrite length_take; lia).
  assert (H2 : length (take 1000 (drop 1000 l)) = 1000%nat)
    by (rewrite length_take, length_drop; lia).
  assert (H3 : length (drop 2000 l) = 500%nat) by (rewrite length_drop; lia).
  split; [reflexivity|]. split; [|split; [|split]].
  - unfold recorded_file_num. rewrite (store_file_num _ _ _ _ _ _ Hok1), Hsegs. reflexivity.
  - rewrite (store_line_counts _ _ _ _ _ Hok1), Hsegs. unfold seg_counts. simpl map.
    rewrite H1, H2, H3. reflexivity.
  - assert (P1 : physical_count w1 "12345" 1 = length (take 1000 l))
      by (apply (store_counts _ _ _ _ _ _ 0%nat _ Hok1); rewrite Hsegs; reflexivity).
    assert (P2 : physical_count w1 "12345" 2 = length (take 1000 (drop 1000 l)))
      by (apply (store_counts _ _ _ _ _ _ 1%nat _ Hok1); rewrite Hsegs; reflexivity).
    assert (P3 : physical_count w1 "12345" 3 = length (drop 2000 l))
      by (apply (store_counts _ _ _ _ _ _ 2%nat _ Hok1); rewrite Hsegs; reflexivity).
    assert (P4 : physical_count w1 "12345" 4 = 0%nat).
    { unfold physical_count.
      rewrite (store_no_file _ _ _ _ _ _ Hok1 4) by (rewrite Hsegs; simpl; lia).
      reflexivity. }
    cbn [map]. rewrite P1, P2, P3, P4, H1, H2, H3. reflexivity.
  - rewrite (load_from_file_store _ _ _ _ _ _ 1500 Hok1) by (left; reflexivity).
    simpl fst. f_equal.
    assert (Htake : take (Z.to_nat 1500) (concat (newest_first segs'))
                    = rev (drop 1000 l)).
    { rewrite concat_newest_first, Hcat.
      change (take ?n ?x) with (firstn n x). rewrite firstn_rev, Hlen. reflexivity. }
    rewrite load_lines_take; [exact Htake | lia |].
    rewrite Htake. apply NoDup_ListNoDup, NoDup_rev, NoDup_ListNoDup.
    apply (sublist_NoDup _ l); [exact Hnd | apply sublist_drop].
Qed.

(** C5. Let [w] hold a store of the user [id] whose log has the segments
    [segs] and whose temp buffer is empty, and let the log be rotated for
    the capacity [C] that [save_to_file] makes of [limit], a number between
    1000 and 10000: every segment but the head holds exactly [C] IDs and
    the head at most [C].  Then every sequence of calls of [save_to_file]
    with that [limit], for batches of IDs, succeeds and leaves a store
    whose log is rotated for [C] again and holds the IDs it held followed
    by the IDs of the batches in the order given, so that the lines of all
    segments are as many as the IDs ever appended.  The record has the
    number of segments at [twt_db.file_num]; for every segment the line
    count the record has equals the number of lines of the segment's file,
    which holds the IDs of the segment one per line, and there is no file
    for a segment beyond the head.  In the concrete scenario, 2500 IDs
    ["0"] to ["2499"] appended with capacity 1000 to a fresh store, the
    record has 3 segments with the line counts 1000, 1000 and 500, the files
    have as many lines, and a load with limit 1500 returns ["2499"] down to
    ["1000"]. *)
Theorem rotation_invariant :
  (forall (w : world) (id name : string) (limit : Z) (segs : list (list string))
          (born : nat) (batches : list (list string)),
     store_ok w id name segs born [] ->
     rotated (capacity limit) segs ->
     all_ids batches ->
     exists w' segs' born',
       appends id limit batches w = (Ok tt, w') /\
       store_ok w' id name segs' born' [] /\
       1000 <= capacity limit <= 10000 /\
       rotated (capacity limit) segs' /\
       concat segs' = concat segs ++ concat batches /\
       recorded_file_num w' id = Ok (JInt (Z.of_nat (length segs'))) /\
       (forall i s, segs' !! i = Some s ->
          recorded_count w' id (Z.of_nat (S i)) = Ok (JInt (Z.of_nat (length s))) /\
          physical_count w' name (Z.of_nat (S i)) = length s /\
          (s <> [] ->
           fs_files (w_fs w') !! seg_path name (Z.of_nat (S i)) = Some (kth.id_lines s))) /\
       (forall k, Z.of_nat (length segs') < k ->
          fs_files (w_fs w') !! seg_path name k = None)) /\
  (fst (kth.save_to_file "12345" (numbered 2500) 1000 (init_world (fun _ _ => not_found)))
   = Ok tt /\
   recorded_file_num scenario "12345" = Ok (JInt 3) /\
   fst (pd.get_data (Id "12345") (Some "twt_db.line_count") None JNone scenario)
   = Ok (JList [JInt 1000; JInt 1000; JInt 500]) /\
   map (physical_count scenario "12345") [1; 2; 3; 4] = [1000; 1000; 500; 0]%nat /\
   fst (kth.load_from_file "12345" 1500 None scenario)
   = Ok (rev (drop 1000 (numbered 2500)))).
Proof.
  split.
  - intros w id name limit segs born batches Hok Hrot Hids.
    destruct (appends_spec id name limit batches Hids w segs born Hok)
      as (w' & segs' & born' & Hrun & Hok' & Hcat & Hrot' & _).
    exists w', segs', born'. split; [exact Hrun|]. split; [exact Hok'|].
    split; [apply capacity_range|]. split; [auto|]. split; [exact Hcat|].
    split; [apply (store_file_num _ _ _ _ _ _ Hok')|]. split.
    + intros i s Hs. destruct (store_counts _ _ _ _ _ _ _ _ Hok' Hs) as [Hr Hp].
      split; [exact Hr|]. split; [exact Hp|]. apply (store_file _ _ _ _ _ _ Hok' _ _ Hs).
    + apply (store_no_file _ _ _ _ _ _ Hok').
  - exact scenario_spec.
Qed.

Lemma rotation_invariant_witness :
  let w := init_world (fun _ _ => not_found) in
  exists w' segs',
    appends "12345" 1000 [["7"; "8"]; ["9"]] w = (Ok tt, w') /\
    rotated 1000 segs' /\ concat segs' = ["7"; "8"; "9"] /\
    recorded_file_num w' "12345" = Ok (JInt (Z.of_nat (length segs'))).
Proof.
  destruct (proj1 rotation_invariant (init_world (fun _ _ => not_found)) "12345" "12345"
              1000 [[]] 0%nat [["7"; "8"]; ["9"]])
    as (w' & segs' & born' & Hrun & _ & _ & Hrot & Hcat & Hnum & _).
  - apply store_ok_init. reflexivity.
  - apply rotated_snoc with (older := []). split; [constructor | simpl; unfold capacity; lia].
  - repeat constructor.
  - exists w', segs'. split; [exact Hrun|]. split; [exact Hrot|]. split; [exact Hcat|].
    exact Hnum.
Defined.

(** ** Appending and loading *)







(** ** A load of everything *)





(** ** Staging and consolidating *)







(** * Further properties of the program *)

(** ** Directory names ([file_utils.py]) *)

Lemma dir_char_not_slash c : futils.dir_char c = true -> futils.is_slash c = false.
Proof.
  destruct c as [[] [] [] [] [] [] [] []]; vm_compute; intros H;
    first [reflexivity | discriminate H].
Qed.

Lemma no_slash_lstrip l :
  forallb (fun c => negb (futils.is_slash c)) l = true -> futils.lstrip_slashes l = l.
Proof.
  destruct l as [|c l]; simpl; [reflexivity|].
  intros H. apply andb_true_iff in H as [Hc _]. apply negb_true_iff in Hc. rewrite Hc.
  reflexivity.
Qed.

Lemma no_slash_strip l :
  forallb (fun c => negb (futils.is_slash c)) l = true -> futils.strip_slashes l = l.
Proof.
  intros H. unfold futils.strip_slashes. rewrite (no_slash_lstrip l H).
  rewrite no_slash_lstrip; [apply rev_involutive|].
  apply forallb_forall. intros c Hc. apply in_rev in Hc.
  rewrite forallb_forall in H. apply H, Hc.
Qed.

Lemma dir_chars_no_slash l :
  forallb futils.dir_char l = true -> forallb (fun c => negb (futils.is_slash c)) l = true.
Proof.
  intros H. apply forallb_forall. intros c Hc. rewrite forallb_forall in H.
  rewrite (dir_char_not_slash c (H c Hc)). reflexivity.
Qed.

(** The part of a name before a newline that ends it. *)
Lemma before_newline_no_slash (s1 : list ascii) :
  let body := match last s1 with
              | Some c => if Ascii.eqb c LF then removelast s1 else s1
              | None => s1
              end in
  forallb futils.dir_char body = true ->
  forallb (fun c => negb (futils.is_slash c)) s1 = true /\ (length body <= length s1)%nat.
Proof.
  destruct s1 as [|c l _] using rev_ind; cbv zeta; [simpl; auto|].
  rewrite last_snoc. destruct (Ascii.eqb c LF) eqn:Ec.
  - apply Ascii.eqb_eq in Ec. subst c. rewrite removelast_last. intros H.
    rewrite forallb_app, (dir_chars_no_slash l H), length_app. simpl. split; [reflexivity | lia].
  - intros H. split; [apply dir_chars_no_slash, H | lia].
Qed.

(** What the pattern of [verify_dir_name] accepts has no slash in it. *)
Lemma dir_name_re_no_slash s :
  futils.dir_name_re s = true ->
  forallb (fun c => negb (futils.is_slash c)) s = true /\ (3 <= length s)%nat.
Proof.
  unfold futils.dir_name_re. cbv zeta. intros H. apply andb_true_iff in H as [Hlen Hall].
  apply Nat.leb_le in Hlen.
  apply before_newline_no_slash in Hall as [Hs1 Hl].
  destruct s as [|c t]; [simpl in *; lia|].
  destruct (Ascii.eqb c "."%char) eqn:Ec.
  - apply Ascii.eqb_eq in Ec. subst c. simpl. rewrite Hs1. simpl in *. split; [reflexivity|lia].
  - split; [exact Hs1 | lia].
Qed.

Lemma is_prefix_app p s : is_prefix p s = true -> exists r, s = p ++ r.
Proof.
  revert s. induction p as [|a p IH]; intros s H; [exists s; reflexivity|].
  destruct s as [|b s]; [discriminate|]. simpl in H.
  apply andb_true_iff in H as [Hab H]. apply Ascii.eqb_eq in Hab. subst b.
  destruct (IH s H) as [r ->]. exists r. reflexivity.
Qed.

Lemma no_slash_no_prefix s :
  forallb (fun c => negb (futils.is_slash c)) s = true ->
  is_prefix (encode "./") s || is_prefix (encode ".\") s = false.
Proof.
  intros H. apply orb_false_iff. split.
  - destruct (is_prefix (encode "./") s) eqn:E; [|reflexivity].
    apply is_prefix_app in E as [r ->]. discriminate H.
  - destruct (is_prefix (encode ".\") s) eqn:E; [|reflexivity].
    apply is_prefix_app in E as [r ->]. discriminate H.
Qed.

Lemma length_encode s : length (encode s) = String.length s.
Proof. induction s as [|c s IH]; simpl; [reflexivity | rewrite <- IH; reflexivity]. Qed.

(** X1. A directory name that [verify_dir_name] accepts is safe to use as
    one path component: it has at least three characters, none of them a
    slash or a backslash, and it is accepted again as it is. *)
Theorem verify_dir_name_safe (dir name : string) :
  futils.verify_dir_name dir = Ok name ->
  (3 <= String.length name)%nat /\
  Forall (fun c => c <> "/"%char /\ c <> "\"%char) (encode name) /\
  futils.verify_dir_name name = Ok name.
Proof.
  unfold futils.verify_dir_name at 1. cbv zeta.
  set (x := futils.strip_slashes _).
  destruct (futils.dir_name_re x) eqn:Hre; simpl; [|discriminate].
  intros H. injection H as <-.
  destruct (dir_name_re_no_slash x Hre) as [Hns Hlen].
  assert (Henc : encode (decode x) = x) by apply encode_decode.
  split; [|split].
  - rewrite <- length_encode, Henc. exact Hlen.
  - rewrite Henc. apply Forall_forall. intros c Hc.
    rewrite forallb_forall in Hns. apply list_elem_of_In, Hns in Hc.
    apply negb_true_iff, orb_false_iff in Hc as [H1 H2].
    split; intros ->; discriminate.
  - unfold futils.verify_dir_name. cbv zeta. rewrite Henc.
    rewrite (no_slash_no_prefix x Hns), (no_slash_strip x Hns), Hre. reflexivity.
Qed.

Lemma verify_dir_name_safe_witness :
  futils.verify_dir_name "./my folder/" = Ok "my folder" /\
  futils.verify_dir_name "my folder" = Ok "my folder".
Proof.
  split; [reflexivity|].
  apply (verify_dir_name_safe "./my folder/" "my folder"). reflexivity.
Defined.
(** ** Assembling a directory path ([file_utils.py]) *)

Lemma assemble_dir_loop_path dirs : forall final w p w1,
  futils.assemble_dir_loop final dirs true w = (Ok p, w1) ->
  exists names,
    p = final ++ names /\
    Forall2 (fun d n => futils.verify_dir_name d = Ok n) dirs names /\
    forall k, (1 <= k <= length names)%nat ->
              fs_exists (final ++ take k names) (w_fs w1) = true.
Proof.
  induction dirs as [|d dirs IH]; intros final w p w1 H.
  - simpl in H. unfold ret in H. injection H as <- <-. exists [].
    rewrite app_nil_r. split; [reflexivity|]. split; [constructor|]. simpl. lia.
  - cbn [futils.assemble_dir_loop] in H. unfold bind at 1 in H. unfold lift at 1 in H.
    destruct (futils.verify_dir_name d) as [name|e] eqn:Hn; [|discriminate].
    unfold bind at 1 in H.
    destruct (futils.create_folder (final ++ [name]) w) as [[r|e] w'] eqn:Hc; [|discriminate].
    apply create_folder_inv in Hc as (-> & -> & Hex).
    destruct (assemble_dir_loop_inv _ _ _ _ _ H) as (_ & Hmono & _).
    destruct (IH _ _ _ _ H) as (names & -> & Hall & Hpre).
    exists (name :: names). rewrite <- app_assoc. split; [reflexivity|].
    split; [constructor; assumption|].
    intros k Hk. destruct k as [|k]; [lia|]. simpl take.
    destruct k as [|k].
    + rewrite take_0. apply Hmono, Hex.
    + change (final ++ name :: take (S k) names) with (final ++ [name] ++ take (S k) names).
      rewrite app_assoc. apply Hpre. simpl in Hk. lia.
Qed.

(** X2. When [assemble_dir] with [create=True] succeeds, the path it
    returns consists of the verified names of its arguments, in order; the
    path and every path above it exist afterwards; the call has changed
    nothing but the set of directories, which it has only added to; and a
    second call changes nothing and returns the same path. *)
Theorem assemble_dir_creates (dirs : list string) (w w1 : world) (p : list string) :
  futils.assemble_dir dirs true w = (Ok p, w1) ->
  Forall2 (fun d n => futils.verify_dir_name d = Ok n) dirs p /\
  (forall k, fs_exists (take k p) (w_fs w1) = true) /\
  fs_files (w_fs w1) = fs_files (w_fs w) /\
  fs_dirs (w_fs w) ⊆ fs_dirs (w_fs w1) /\
  w_net w1 = w_net w /\ w_pd w1 = w_pd w /\ w_twab w1 = w_twab w /\ w_dlt w1 = w_dlt w /\
  futils.assemble_dir dirs true w1 = (Ok p, w1).
Proof.
  intros H.
  destruct (assemble_dir_inv _ _ _ _ H) as ((Hn & Hp & Ht & Hd & Hf & _ & Hdirs) & Hagain).
  destruct (assemble_dir_loop_path _ _ _ _ _ H) as (names & -> & Hall & Hpre).
  simpl app in *. split; [exact Hall|]. split; [|auto 10].
  intros k. destruct k as [|k]; [reflexivity|].
  destruct (le_lt_dec (S k) (length names)) as [Hle|Hgt].
  - apply (Hpre (S k)). lia.
  - rewrite take_ge by lia. destruct names as [|n names]; [reflexivity|].
    rewrite <- (firstn_all (n :: names)). apply (Hpre (length (n :: names))). simpl. lia.
Qed.

Lemma assemble_dir_creates_witness :
  let w := init_world (fun _ _ => not_found) in
  let w1 := snd (futils.assemble_dir ["12345"; "known_tweets"] true w) in
  fs_exists ["12345"; "known_tweets"] (w_fs w1) = true /\
  futils.assemble_dir ["12345"; "known_tweets"] true w1 = (Ok ["12345"; "known_tweets"], w1).
Proof.
  destruct (assemble_dir_creates ["12345"; "known_tweets"] (init_world (fun _ _ => not_found))
              (snd (futils.assemble_dir ["12345"; "known_tweets"] true
                      (init_world (fun _ _ => not_found))))
              ["12345"; "known_tweets"])
    as (_ & Hex & _ & _ & _ & _ & _ & _ & Hagain).
  - vm_compute. reflexivity.
  - split; [exact (Hex 2%nat) | exact Hagain].
Defined.

(** X3. With [create=False], [assemble_dir] never touches the world: it
    either raises [ValueError], for a name that is not a directory name, or
    returns the verified names of its arguments. *)
Theorem assemble_dir_no_create (dirs : list string) (w : world) :
  snd (futils.assemble_dir dirs false w) = w /\
  (fst (futils.assemble_dir dirs false w) = Raise ValueError \/
   exists p, fst (futils.assemble_dir dirs false w) = Ok p /\
             Forall2 (fun d n => futils.verify_dir_name d = Ok n) dirs p).
Proof.
  unfold futils.assemble_dir.
  assert (H : forall final,
            snd (futils.assemble_dir_loop final dirs false w) = w /\
            (fst (futils.assemble_dir_loop final dirs false w) = Raise ValueError \/
             exists names, fst (futils.assemble_dir_loop final dirs false w)
                           = Ok (final ++ names) /\
                           Forall2 (fun d n => futils.verify_dir_name d = Ok n) dirs names)).
  { induction dirs as [|d dirs IH]; intros final.
    - simpl. split; [reflexivity|]. right. exists []. rewrite app_nil_r.
      split; [reflexivity | constructor].
    - cbn [futils.assemble_dir_loop]. unfold bind at 1 3 5, lift.
      destruct (futils.verify_dir_name d) as [name|e] eqn:Hn.
      + unfold bind, ret. destruct (IH (final ++ [name])) as [Hw [Hr|(names & Hr & Hall)]].
        * split; [exact Hw|]. left. exact Hr.
        * split; [exact Hw|]. right. exists (name :: names).
          rewrite Hr, <- app_assoc. split; [reflexivity | constructor; assumption].
      + simpl. split; [reflexivity|]. left. f_equal.
        unfold futils.verify_dir_name in Hn. cbv zeta in Hn.
        destruct (negb _) in Hn; congruence. }
  destruct (H []) as [Hw Hr]. split; [exact Hw|]. exact Hr.
Qed.
(** ** Reading a file backwards ([file_utils.py]) *)

(** X4. [readline_reverse] yields the lines of the file from the last to
    the first, each decoded and stripped of surrounding white space, without
    the lines that are empty then; the chunks it reads the file in, whose
    size comes from the file's block size, make no difference.  Reading
    changes nothing.  A missing file raises [FileNotFoundError] and a
    directory [IsADirectoryError]. *)
Theorem readline_reverse_lines (p : list string) (w : world) :
  futils.readline_reverse p w =
    (if fs_is_dir p (w_fs w) then Raise IsADirectoryError
     else match fs_files (w_fs w) !! p with
          | Some content =>
              Ok (filter (fun l => futils.nonempty_str l = true)
                    (map (fun l => futils.str_strip (decode l))
                       (rev (split_on LF content))))
          | None => Raise FileNotFoundError
          end, w) /\
  forall blk blk' content,
    futils.reverse_lines LF blk content = futils.reverse_lines LF blk' content.
Proof.
  split.
  - destruct (fs_files (w_fs w) !! p) as [content|] eqn:Ef;
      unfold futils.readline_reverse, read_file, bind, gets, ret, raise;
      destruct (fs_is_dir p (w_fs w)); try reflexivity.
    + rewrite Ef. rewrite reverse_lines_spec, yield_lines_eq. reflexivity.
    + rewrite Ef. reflexivity.
  - intros blk blk' content. rewrite !reverse_lines_spec. reflexivity.
Qed.
(** ** Records ([persistent_data.py]) *)

(** A walk that only reads leaves the record as it is. *)
Lemma _traverse_reads {A} kparts (k : json -> res (json * A)) :
  (forall f x a, k f = Ok (x, a) -> x = f) ->
  forall sub, fst (pd._traverse false kparts sub k) = sub.
Proof.
  intros Hk. induction kparts as [|kpart rest IH]; intros sub; simpl.
  - destruct (k sub) as [[x a]|e] eqn:E; [|reflexivity]. simpl. apply (Hk _ _ _ E).
  - destruct sub as [| | | |d]; try reflexivity. simpl.
    destruct (dict_get kpart d) as [s|] eqn:E; [|reflexivity].
    specialize (IH s). destruct (pd._traverse false rest s k) as [s' r]. simpl in *.
    subst s'. rewrite (dict_set_same _ _ _ E). reflexivity.
Qed.

Lemma _get_reads key default self : fst (pd._get key default self) = self.
Proof.
  unfold pd._get.
  pose proof (_traverse_reads (pd.key_prefix key)
                (fun fdest => (v <- pd.py_getitem (pd.key_last key) fdest ;; Ok (fdest, v))%res))
    as H.
  destruct (pd._traverse _ _ _ _) as [s r] eqn:E.
  assert (Hs : s = self).
  { rewrite <- (H ltac:(intros f x a; unfold rbind; destruct (pd.py_getitem _ f);
                        [intros Heq; injection Heq as <- _; reflexivity | discriminate]) self).
    rewrite E. reflexivity. }
  subst s. destruct r as [v|e]; [reflexivity|]. destruct (_ && _); reflexivity.
Qed.

Lemma _get_in_list_reads key i default self : fst (pd._get_in_list key i default self) = self.
Proof.
  unfold pd._get_in_list.
  match goal with |- context [pd._traverse false ?p ?s ?k] =>
    pose proof (_traverse_reads p k) as H; destruct (pd._traverse false p s k) as [s' r] eqn:E end.
  assert (Hs : s' = self).
  { rewrite <- (H ltac:(intros f x a; unfold rbind; destruct (pd.py_getitem _ f) as [[]|];
                        try discriminate; destruct (py_index _ _); try discriminate;
                        intros Heq; injection Heq as <- _; reflexivity) self).
    rewrite E. reflexivity. }
  subst s'. destruct r as [v|e]; [reflexivity|]. destruct (_ && _); reflexivity.
Qed.

(** X5. [get_data] never changes a record: it leaves the world as it is
    when the record of the ID is loaded, and otherwise only makes the
    default record for the ID and marks the ID as modified.  When a default
    other than [None] is given it raises no [KeyError], and with an index
    no [IndexError] either. *)
Theorem get_data_reads (id : pyid) (key : string) (index : option Z) (default : json)
    (w : world) :
  snd (pd.get_data id (Some key) index default w) = w_load id w /\
  (not_none default = true ->
   fst (pd.get_data id (Some key) index default w) <> Raise KeyError /\
   (index <> None -> fst (pd.get_data id (Some key) index default w) <> Raise IndexError)).
Proof.
  rewrite get_data_load.
  destruct (w_load_loaded id w) as (self & Hl & _).
  set (w0 := w_load id w) in *.
  assert (Hrun : exists r,
            pd.get_data id (Some key) index default w0 = (r, w0) /\
            r = snd (match index with
                     | Some i => pd._get_in_list key i default self
                     | None => pd._get key default self
                     end)).
  { unfold pd.get_data.
    rewrite (bind_ok _ _ _ _ _ (_default_if_nonexistent_loaded _ _ _ Hl)).
    destruct index as [i|].
    - pose proof (_get_in_list_reads key i default self) as Hs.
      destruct (pd._get_in_list key i default self) as [s r] eqn:E. simpl in Hs. subst s.
      rewrite (on_loaded_spec _ _ _ _ _ _ Hl E), (w_put_same _ _ _ Hl). eauto.
    - pose proof (_get_reads key default self) as Hs.
      destruct (pd._get key default self) as [s r] eqn:E. simpl in Hs. subst s.
      rewrite (on_loaded_spec _ _ _ _ _ _ Hl E), (w_put_same _ _ _ Hl). eauto. }
  destruct Hrun as (r & -> & Hr). simpl. split; [reflexivity|].
  intros Hd. subst r. destruct index as [i|].
  - unfold pd._get_in_list. destruct (pd._traverse _ _ _ _) as [s [v|e]]; simpl;
      [split; [|intros _]; discriminate|]. rewrite Hd, andb_true_r.
    destruct e; simpl; (split; [|intros _]); discriminate.
  - split; [|congruence].
    unfold pd._get. destruct (pd._traverse _ _ _ _) as [s [v|e]]; simpl;
      [discriminate|]. rewrite Hd, andb_true_r.
    destruct e; simpl; discriminate.
Qed.
(** A walk that writes [val] at the last key, read back. *)
Lemma _traverse_set_get fkey val (kS : json -> res (json * bool)) :
  (forall f x, kS f = Ok (x, true) -> pd.py_getitem fkey x = Ok val) ->
  forall kparts sub sub',
    pd._traverse true kparts sub kS = (sub', Ok true) ->
    pd._traverse false kparts sub'
      (fun fdest => (v <- pd.py_getitem fkey fdest ;; Ok (fdest, v))%res) = (sub', Ok val).
Proof.
  intros HkS. induction kparts as [|kpart rest IH]; intros sub sub' H; simpl in *.
  - destruct (kS sub) as [[x b]|e] eqn:E; [|discriminate].
    injection H as <- ->. rewrite (HkS _ _ E). reflexivity.
  - destruct sub as [| | | |d]; try discriminate.
    match type of H with context [dict_get kpart ?dd] => set (d1 := dd) in * end.
    destruct (dict_get kpart d1) as [s|] eqn:Es; [|discriminate].
    destruct (pd._traverse true rest s kS) as [s' r] eqn:Et.
    injection H as <- ->. simpl. rewrite dict_get_set_eq.
    rewrite (IH _ _ Et). rewrite dict_set_set. reflexivity.
Qed.

Lemma elem_of_w_mark id w : id ∈ _data_modified (w_pd (w_mark id w)).
Proof.
  unfold w_mark, set_pd. simpl. destruct (bool_decide _) eqn:E.
  - apply bool_decide_eq_true in E. exact E.
  - simpl. apply elem_of_app. right. apply list_elem_of_singleton. reflexivity.
Qed.

(** What [set_data] without an index does, in terms of [_set]. *)
Lemma set_data_run id key val set_func w :
  exists self self' r,
    _loaded_data (w_pd (w_load id w)) !! id = Some self /\
    pd._set key val set_func self = (self', r) /\
    pd.set_data id key val None set_func w =
      (r, match r with
          | Ok true => w_mark id (w_put id self' (w_load id w))
          | _ => w_put id self' (w_load id w)
          end).
Proof.
  destruct (w_load_loaded id w) as (self & Hl & _).
  destruct (pd._set key val set_func self) as [self' r] eqn:E.
  exists self, self', r. split; [exact Hl|]. split; [exact E|].
  unfold pd.set_data. rewrite (bind_ok _ _ _ _ _ (_default_if_nonexistent_spec id w)).
  unfold bind at 1. rewrite (on_loaded_spec _ _ _ _ _ _ Hl E).
  destruct r as [[]|e]; reflexivity.
Qed.

(** X6. What [set_data] has set, [get_data] returns: when
    [set_data(id, key, val)] returns [True], a [get_data(id, key)] right
    after it returns [val] and changes nothing, whatever the key, and the ID
    is on the list of modified IDs. *)
Theorem set_data_then_get_data (id : pyid) (key : string) (val default : json)
    (w w' : world) :
  pd.set_data id key val None None w = (Ok true, w') ->
  pd.get_data id (Some key) None default w' = (Ok val, w') /\
  id ∈ _data_modified (w_pd w').
Proof.
  intros H. destruct (set_data_run id key val None w) as (self & self' & r & Hl & Hset & Hrun).
  rewrite Hrun in H. injection H as -> <-.
  split; [|apply elem_of_w_mark].
  assert (Hl' : _loaded_data (w_pd (w_mark id (w_put id self' (w_load id w)))) !! id
                = Some self') by (rewrite w_mark_loaded; apply w_put_loaded).
  apply (get_data_key _ _ _ _ _ _ Hl').
  unfold pd._get. unfold pd._set in Hset.
  match type of Hset with pd._traverse _ _ _ ?k = _ =>
    assert (HkS : forall f x, k f = Ok (x, true) ->
                              pd.py_getitem (pd.key_last key) x = Ok val) end.
  { intros f x. unfold rbind. destruct (pd.py_contains _ f) as [c|]; [|discriminate].
    destruct (if c then _ else _) as [prev|]; [|discriminate]. simpl.
    destruct (in_none_or val prev); [discriminate|].
    destruct f as [| | | |d]; simpl; try discriminate.
    intros Heq. injection Heq as <-. simpl. rewrite dict_get_set_eq. reflexivity. }
  rewrite (_traverse_set_get _ _ _ HkS _ _ _ Hset). reflexivity.
Qed.

Lemma set_data_then_get_data_witness :
  let w := init_world (fun _ _ => not_found) in
  let w' := snd (pd.set_data (Id "abc") "liked_tweets.count" (JInt 7) None None w) in
  pd.get_data (Id "abc") (Some "liked_tweets.count") None JNone w' = (Ok (JInt 7), w').
Proof.
  apply (set_data_then_get_data (Id "abc") "liked_tweets.count" (JInt 7) JNone
           (init_world (fun _ _ => not_found))).
  vm_compute. reflexivity.
Defined.
Lemma _traverse_never_true create (kS : json -> res (json * bool)) :
  (forall f x b, kS f = Ok (x, b) -> b = false) ->
  forall kparts sub, snd (pd._traverse create kparts sub kS) <> Ok true.
Proof.
  intros Hk. induction kparts as [|kpart rest IH]; intros sub; simpl.
  - destruct (kS sub) as [[x b]|e] eqn:E; simpl; [|discriminate].
    rewrite (Hk _ _ _ E). discriminate.
  - destruct sub as [| | | |d]; simpl; try discriminate.
    match goal with |- context [dict_get kpart ?dd] => set (d1 := dd) end.
    destruct (dict_get kpart d1) as [s|]; simpl; [|discriminate].
    specialize (IH s). destruct (pd._traverse create rest s kS) as [s' r]. exact IH.
Qed.

Lemma w_load_loaded_same id w self :
  _loaded_data (w_pd w) !! id = Some self -> w_load id w = w.
Proof. intros H. unfold w_load. rewrite H. reflexivity. Qed.

(** X7. [set_data] with the value [None] and no [set_func] never returns
    [True] and never puts the ID on the list of modified IDs; files, network
    and the other globals stay as they are.  The record can change all the
    same: for a key [k1.k2] whose first part is not in the record, the call
    returns [False] and leaves an empty dict at [k1]. *)
Theorem set_data_none (id : pyid) (key : string) (w : world) (self : json) :
  _loaded_data (w_pd w) !! id = Some self ->
  let r := pd.set_data id key JNone None None w in
  fst r <> Ok true /\
  _data_modified (w_pd (snd r)) = _data_modified (w_pd w) /\
  w_fs (snd r) = w_fs w /\ w_net (snd r) = w_net w /\
  w_twab (snd r) = w_twab w /\ w_dlt (snd r) = w_dlt w /\
  (forall d k1 k2,
     self = JDict d -> key2 key k1 k2 -> dict_get k1 d = None ->
     fst r = Ok false /\
     _loaded_data (w_pd (snd r)) !! id = Some (JDict (dict_set k1 (JDict []) d))).
Proof.
  intros Hl. cbv zeta.
  destruct (set_data_run id key JNone None w) as (self0 & self' & r & Hl0 & Hset & Hrun).
  rewrite (w_load_loaded_same _ _ _ Hl) in Hl0, Hrun.
  rewrite Hl in Hl0. injection Hl0 as <-.
  assert (Hr : r <> Ok true).
  { unfold pd._set in Hset.
    match type of Hset with pd._traverse _ _ _ ?k = _ =>
      pose proof (_traverse_never_true true k) as H end.
    assert (H0 : snd (self', r) <> Ok true); [|exact H0].
    rewrite <- Hset. apply H.
    intros f x b. unfold rbind. destruct (pd.py_contains _ f) as [c|]; [|discriminate].
    destruct (if c then _ else _) as [prev|]; [|discriminate].
    simpl. intros Heq. injection Heq as _ <-. reflexivity. }
  rewrite Hrun. simpl fst. simpl snd.
  assert (Hw : match r with
               | Ok true => w_mark id (w_put id self' w)
               | _ => w_put id self' w
               end = w_put id self' w)
    by (destruct r as [[]|]; [congruence | reflexivity | reflexivity]).
  rewrite Hw. split; [exact Hr|]. split; [reflexivity|].
  split; [reflexivity|]. split; [reflexivity|]. split; [reflexivity|]. split; [reflexivity|].
  intros d k1 k2 -> [Hp Hk] Hnone.
  unfold pd._set in Hset. rewrite Hp, Hk in Hset. simpl in Hset.
  unfold dict_mem in Hset. rewrite Hnone in Hset. simpl in Hset.
  rewrite dict_get_set_eq in Hset. simpl in Hset. rewrite dict_set_set in Hset.
  injection Hset as <- <-. split; [reflexivity|]. apply w_put_loaded.
Qed.

Lemma set_data_none_witness :
  let r := pd.set_data (Id "abc") "temp_db.file_num" JNone None None dirty_world in
  fst r = Ok false /\
  _loaded_data (w_pd (snd r)) !! Id "abc"
  = Some (JDict (dict_set "temp_db" (JDict [])
                   match pd.default_vals with JDict d => d | _ => [] end)).
Proof.
  destruct (set_data_none (Id "abc") "temp_db.file_num" dirty_world pd.default_vals)
    as (_ & _ & _ & _ & _ & _ & H).
  - vm_compute. reflexivity.
  - apply (H _ "temp_db" "file_num" eq_refl key2_temp_file_num eq_refl).
Defined.
Lemma insert_replicate_last {A} (x v : A) n :
  <[n := v]> (replicate (S n) x) = replicate n x ++ [v].
Proof. induction n as [|n IH]; [reflexivity|]. simpl in *. rewrite IH. reflexivity. Qed.

Section Pad.
Variables (key k1 k2 : string).
Hypothesis Hkey : key2 key k1 k2.

(** Writing beyond the end of the list at [k1.k2]. *)
Lemma _set_in_list_pad d t lc i val :
  dict_get k1 d = Some (JDict t) -> dict_get k2 t = Some (JList lc) ->
  Z.of_nat (length lc) <= i -> json_eqb val JNone = false ->
  pd._set_in_list key i val None (JDict d) =
    (JDict (dict_set k1 (JDict (dict_set k2
       (JList (lc ++ replicate (Z.to_nat (i - Z.of_nat (length lc))) JNone ++ [val])) t)) d),
     Ok true).
Proof.
  intros H1 H2 Hi Hv. unfold pd._set_in_list. destruct Hkey as [-> ->]. simpl.
  rewrite dict_mem_get. rewrite bool_decide_eq_true_2 by (rewrite H1; eauto).
  simpl. rewrite H1. simpl.
  unfold dict_mem. rewrite H2. simpl.
  replace (Z.of_nat (length lc) <=? i) with true by (symmetry; apply Z.leb_le; lia).
  set (n := Z.to_nat (i - Z.of_nat (length lc))).
  replace (Z.to_nat (i - Z.of_nat (length lc) + 1)) with (S n) by lia.
  assert (Hneg : (i - Z.of_nat (length lc) <? 0) = false) by (apply Z.ltb_ge; lia).
  assert (Hlt : (Z.of_nat (S n) <=? i - Z.of_nat (length lc)) = false)
    by (apply Z.leb_gt; lia).
  assert (Hix : py_index (replicate (S n) JNone) (i - Z.of_nat (length lc)) = Ok JNone).
  { unfold py_index. cbv zeta. rewrite length_replicate, !Hneg, Hlt.
    simpl orb. cbv iota. fold n. rewrite lookup_replicate_2 by lia. reflexivity. }
  rewrite Hix. simpl rbind. unfold in_none_or. rewrite Hv. simpl orb. cbv iota.
  assert (Hsi : py_setindex (replicate (S n) JNone) (i - Z.of_nat (length lc)) val
                = Ok (replicate n JNone ++ [val])).
  { unfold py_setindex. cbv zeta. rewrite length_replicate, !Hneg, Hlt.
    simpl orb. cbv iota. fold n. rewrite insert_replicate_last. reflexivity. }
  change (JNone :: replicate n JNone) with (replicate (S n) JNone).
  rewrite Hsi. reflexivity.
Qed.

End Pad.

(** X8. Setting a list element beyond the end of the list fills the gap
    with [None]: for a list of length [n] at [k1.k2] and an index [i >= n],
    [set_data(id, key, val, index=i)] with a value other than [None] returns
    [True] and leaves the list followed by [i - n] times [None] and then
    the value. *)
Theorem set_data_pads (id : pyid) (key k1 k2 : string) (w : world)
    (d t : list (string * json)) (lc : list json) (i : Z) (val : json) :
  _loaded_data (w_pd w) !! id = Some (JDict d) ->
  key2 key k1 k2 ->
  dict_get k1 d = Some (JDict t) -> dict_get k2 t = Some (JList lc) ->
  Z.of_nat (length lc) <= i ->
  json_eqb val JNone = false ->
  exists w',
    pd.set_data id key val (Some i) None w = (Ok true, w') /\
    pd.get_data id (Some key) None JNone w' =
      (Ok (JList (lc ++ replicate (Z.to_nat (i - Z.of_nat (length lc))) JNone ++ [val])), w').
Proof.
  intros Hl Hkey H1 H2 Hi Hv.
  pose proof (_set_in_list_pad key k1 k2 Hkey d t lc i val H1 H2 Hi Hv) as Hset.
  rewrite (set_data_spec id key val (Some i) None w _ _ true Hl Hset).
  eexists. split; [reflexivity|].
  eapply get_data_key; [rewrite w_mark_loaded; apply w_put_loaded|].
  apply (_get_2 _ _ _ Hkey _ _ _ _ (dict_get_set_eq _ _ _) (dict_get_set_eq _ _ _)).
Qed.

Lemma set_data_pads_witness :
  exists w',
    pd.set_data (Id "abc") "twt_db.line_count" (JInt 5) (Some 2) None dirty_world
    = (Ok true, w') /\
    pd.get_data (Id "abc") (Some "twt_db.line_count") None JNone w'
    = (Ok (JList [JNone; JNone; JInt 5]), w').
Proof.
  apply (set_data_pads (Id "abc") "twt_db.line_count" "twt_db" "line_count" dirty_world
           match pd.default_vals with JDict d => d | _ => [] end
           [("file_num", JInt 1); ("line_count", JList [])] [] 2 (JInt 5)).
  - vm_compute. reflexivity.
  - exact key2_twt_line_count.
  - reflexivity.
  - reflexivity.
  - simpl. lia.
  - reflexivity.
Defined.
(** X9. Deleting a whole record leaves its ID on the list of modified
    IDs, and the next flush fails on it: when the ID is first on the list,
    [del_data(id, None)] followed by [save_to_file()] raises [KeyError], and
    by then the snapshot file of the ID has been truncated to an empty
    file. *)
Theorem del_data_then_flush (id : pyid) (rest : list pyid) (d : json) (w : world) :
  _data_modified (w_pd w) = id :: rest ->
  _loaded_data (w_pd w) !! id = Some d ->
  fs_is_dir (pd._get_file id) (w_fs w) = false ->
  fs_is_dir (parent (pd._get_file id)) (w_fs w) = true ->
  let r := (pd.del_data id None ;; pd.save_to_file) w in
  fst r = Raise KeyError /\
  fs_files (w_fs (snd r)) !! pd._get_file id = Some [] /\
  _loaded_data (w_pd (snd r)) !! id = None /\
  _data_modified (w_pd (snd r)) = id :: rest.
Proof.
  intros Hm Hl Hf Hp. cbv zeta.
  set (w1 := set_pd (fun g => {| _loaded_data := delete id (_loaded_data g);
                                 _data_modified := _data_modified g |}) w).
  assert (Hm1 : _data_modified (w_pd w1) = id :: rest) by exact Hm.
  assert (Hl1 : _loaded_data (w_pd w1) !! id = None) by apply lookup_delete_eq.
  assert (Hdel : pd.del_data id None w = (Ok true, w1)).
  { unfold pd.del_data, bind, gets. rewrite Hl. reflexivity. }
  assert (Hone : pd.save_one id w1
                 = (Raise KeyError, set_fs (fs_put (pd._get_file id) []) w1)).
  { unfold pd.save_one. cbv zeta.
    rewrite (bind_ok _ _ _ _ _ (write_file_spec (pd._get_file id) [] w1 Hf Hp)).
    unfold bind, gets.
    change (_loaded_data (w_pd (set_fs (fs_put (pd._get_file id) []) w1)))
      with (_loaded_data (w_pd w1)).
    rewrite Hl1. reflexivity. }
  assert (Hrun : (pd.del_data id None ;; pd.save_to_file) w
                 = (Raise KeyError, set_fs (fs_put (pd._get_file id) []) w1)).
  { rewrite (bind_ok _ _ _ _ _ Hdel). unfold pd.save_to_file.
    unfold bind at 1. unfold gets at 1. rewrite Hm1. cbn [for_each].
    apply bind_raise. apply bind_raise. exact Hone. }
  rewrite Hrun. simpl fst. simpl snd.
  split; [reflexivity|]. split; [apply lookup_insert_eq|]. split; [exact Hl1 | exact Hm].
Qed.

Lemma del_data_then_flush_witness :
  let r := (pd.del_data (Id "abc") None ;; pd.save_to_file) dirty_world in
  fst r = Raise KeyError /\
  fs_files (w_fs (snd r)) !! ["abc"; "persistent_data.json"] = Some [].
Proof.
  destruct (del_data_then_flush (Id "abc") [] pd.default_vals dirty_world)
    as (H1 & H2 & _); try (vm_compute; reflexivity).
  split; [exact H1 | exact H2].
Defined.
(** ** The list of modified records ([persistent_data.py]) *)

(** No ID is twice in [_data_modified]. *)
Definition dirty_once (w : world) : Prop := NoDup (_data_modified (w_pd w)).

Lemma preserves_dirty_modify f :
  (forall w, _data_modified (w_pd (f w)) = _data_modified (w_pd w)) ->
  preserves dirty_once (modify f).
Proof.
  intros Hf. apply preserves_modify. intros w H. unfold dirty_once in *. rewrite Hf. exact H.
Qed.

Ltac dirty :=
  repeat first
    [ pres_step
    | apply preserves_dirty_modify; intros; reflexivity ].

Lemma _set_as_modified_dirty id : preserves dirty_once (pd._set_as_modified id).
Proof.
  unfold pd._set_as_modified. apply preserves_modify. intros w H.
  unfold dirty_once in *. simpl. case_bool_decide as Hin; [exact H|].
  simpl. apply NoDup_app. split; [exact H|]. split; [|apply NoDup_singleton].
  intros x Hx Hy. apply list_elem_of_singleton in Hy. subst x. exact (Hin Hx).
Qed.

Lemma _default_if_nonexistent_dirty id : preserves dirty_once (pd._default_if_nonexistent id).
Proof.
  unfold pd._default_if_nonexistent, pd.put_loaded. dirty. apply _set_as_modified_dirty.
Qed.

Lemma on_loaded_dirty {A} id (method : json -> json * res A) :
  preserves dirty_once (pd.on_loaded id method).
Proof. unfold pd.on_loaded, pd.put_loaded. dirty. Qed.

Lemma write_file_dirty p b : preserves dirty_once (write_file p b).
Proof. unfold write_file. dirty. Qed.

(** X10. The list of modified records never names a record twice: each of
    [get_data], [set_data], [del_data] and [save_to_file] leaves a list
    without duplicates, whatever it returns or raises. *)
Theorem modified_list_no_duplicates (id : pyid) (key : option string) (key' : string)
    (val default : json) (index : option Z) (set_func : option (json -> res json)) :
  preserves dirty_once (pd.get_data id key index default) /\
  preserves dirty_once (pd.set_data id key' val index set_func) /\
  preserves dirty_once (pd.del_data id key) /\
  preserves dirty_once pd.save_to_file.
Proof.
  repeat split.
  - unfold pd.get_data.
    dirty; try first [apply _default_if_nonexistent_dirty | apply on_loaded_dirty].
  - unfold pd.set_data.
    dirty; try first [apply _default_if_nonexistent_dirty | apply on_loaded_dirty
                     | apply _set_as_modified_dirty].
  - unfold pd.del_data. dirty. apply on_loaded_dirty.
  - unfold pd.save_to_file, pd.save_one. dirty; apply write_file_dirty.
Qed.
(** ** The log and the temp buffer ([known_tweets_handler.py]) *)

(** X11. Staged IDs are not part of the log: in a store whose segments
    all have their files, or to which nothing was appended yet, [save_temp]
    succeeds and a load after it returns what a load before it returns. *)
Theorem save_temp_invisible (w : world) (id name : string) (segs : list (list string))
    (born : nat) (temps : list (list string)) (twts : list string) (limit : Z) :
  store_ok w id name segs born temps ->
  born = length segs \/ born = 0%nat ->
  Forall (fun s => is_id s = true) twts ->
  exists w1,
    kth.save_temp id twts w = (Ok tt, w1) /\
    fst (kth.load_from_file id limit None w1) = fst (kth.load_from_file id limit None w).
Proof.
  intros Hok Hborn Hids.
  destruct (save_temp_spec id name twts segs born temps w Hok Hids) as (w1 & Hrun & Hok1 & _).
  exists w1. split; [exact Hrun|].
  rewrite (load_from_file_store id name segs born _ w1 limit Hok1 Hborn).
  rewrite (load_from_file_store id name segs born _ w limit Hok Hborn). reflexivity.
Qed.

Lemma save_temp_invisible_witness :
  let w := init_world (fun _ _ => not_found) in
  exists w1,
    kth.save_temp "12345" ["7"; "8"] w = (Ok tt, w1) /\
    fst (kth.load_from_file "12345" 10 None w1) = fst (kth.load_from_file "12345" 10 None w).
Proof.
  apply (save_temp_invisible (init_world (fun _ _ => not_found)) "12345" "12345" [[]] 0 []).
  - apply store_ok_init. reflexivity.
  - right. reflexivity.
  - repeat constructor.
Defined.

Lemma ensure_dir_exists p fs : fs_exists p (ensure_dir p fs) = true.
Proof.
  unfold ensure_dir. destruct (fs_exists p fs) eqn:E; [exact E|].
  unfold fs_exists, fs_is_dir, fs_add_dir. simpl.
  rewrite (bool_decide_eq_true_2 (p ∈ {[p]} ∪ _)) by set_solver.
  rewrite orb_true_r. reflexivity.
Qed.

Lemma ensure_dir_there p fs : fs_exists p fs = true -> ensure_dir p fs = fs.
Proof. intros H. unfold ensure_dir. rewrite H. reflexivity. Qed.

Lemma log_dirs_idem name fs : log_dirs name (log_dirs name fs) = log_dirs name fs.
Proof.
  unfold log_dirs.
  rewrite (ensure_dir_there [name]) by (apply fs_exists_ensure_dir, ensure_dir_exists).
  apply ensure_dir_there, ensure_dir_exists.
Qed.

Lemma w_load_frame {B} (f : world -> B) id w :
  (forall x i, f (w_mark i x) = f x) -> (forall x i j, f (w_put i j x) = f x) ->
  f (w_load id w) = f w.
Proof.
  intros H1 H2. unfold w_load. destruct (_loaded_data (w_pd w) !! id); [reflexivity|].
  rewrite H1, H2. reflexivity.
Qed.

(** X12. A load from a store changes no file and can be repeated: it
    returns a list of IDs, leaves every file as it is, and a second load
    with the same limit returns the same list and changes nothing at all. *)
Theorem load_from_file_repeatable (w : world) (id name : string)
    (segs : list (list string)) (born : nat) (temps : list (list string)) (limit : Z) :
  store_ok w id name segs born temps ->
  born = length segs \/ born = 0%nat ->
  exists r w1,
    kth.load_from_file id limit None w = (Ok r, w1) /\
    fs_files (w_fs w1) = fs_files (w_fs w) /\
    w_net w1 = w_net w /\ w_twab w1 = w_twab w /\ w_dlt w1 = w_dlt w /\
    kth.load_from_file id limit None w1 = (Ok r, w1).
Proof.
  intros Hok Hborn.
  destruct (store_ok_load _ _ _ _ _ _ Hok) as [[Hname Hinv] [d Hload]].
  set (w0 := w_load (Id id) w) in *.
  set (w1 := set_fs (log_dirs name) w0).
  assert (Hok1 : store_ok w1 id name segs born temps).
  { split; [exact Hname|]. apply store_inv_log_dirs. exact Hinv. }
  exists (load_lines limit (newest_first segs)), w1.
  split; [apply (load_from_file_store id name segs born temps w limit Hok Hborn)|].
  split; [unfold w1, w0; simpl; rewrite fs_files_log_dirs, w_load_fs; reflexivity|].
  split; [apply (w_load_frame w_net); reflexivity|].
  split; [apply (w_load_frame w_twab); reflexivity|].
  split; [apply (w_load_frame w_dlt); reflexivity|].
  rewrite (load_from_file_store id name segs born temps w1 limit Hok1 Hborn).
  f_equal. rewrite (w_load_loaded_same (Id id) w1 (JDict d)) by exact Hload.
  unfold w1, set_fs. simpl. rewrite log_dirs_idem. reflexivity.
Qed.

Lemma load_from_file_repeatable_witness :
  let w := init_world (fun _ _ => not_found) in
  exists r w1,
    kth.load_from_file "12345" 10 None w = (Ok r, w1) /\
    kth.load_from_file "12345" 10 None w1 = (Ok r, w1).
Proof.
  destruct (load_from_file_repeatable (init_world (fun _ _ => not_found)) "12345" "12345"
              [[]] 0 [] 10) as (r & w1 & H1 & _ & _ & _ & _ & H2).
  - apply store_ok_init. reflexivity.
  - right. reflexivity.
  - exists r, w1. split; assumption.
Defined.

(** X13. Appending no IDs changes nothing: for a store, [_save_explicit]
    with an empty list returns at once; it only loads the record of the
    user if that is not loaded yet, and makes no directory and no file. *)
Theorem _save_explicit_nothing (w : world) (id name : string) (segs : list (list string))
    (born : nat) (temps : list (list string)) (limit : Z) :
  store_ok w id name segs born temps ->
  kth._save_explicit id [] limit w = (Ok tt, w_load (Id id) w) /\
  w_fs (w_load (Id id) w) = w_fs w.
Proof.
  intros Hok. split; [|apply w_load_fs].
  destruct (store_ok_load _ _ _ _ _ _ Hok) as [[Hname Hinv] [d Hload]].
  rewrite Hload in Hinv. destruct (si_rec _ _ _ _ _ _ Hinv) as [(t & Ht & Hf & _) _].
  unfold kth._save_explicit, bind at 1, gets.
  replace (length (@nil string) + 2 * kth.line_count_len id w + 2)%nat
    with (S (2 * kth.line_count_len id w + 1)) by (simpl; lia).
  rewrite _save_explicit_rec_load, _save_explicit_rec_S.
  rewrite (bind_ok _ _ _ _ _
             (get_data_key _ _ (JInt 1) _ _ _ Hload
                (_get_2 _ _ _ key2_twt_file_num _ _ _ _ Ht Hf))).
  reflexivity.
Qed.

Lemma _save_explicit_nothing_witness :
  let w := init_world (fun _ _ => not_found) in
  kth._save_explicit "12345" [] 1000 w = (Ok tt, w_load (Id "12345") w) /\
  w_fs (w_load (Id "12345") w) = w_fs w.
Proof.
  apply (_save_explicit_nothing (init_world (fun _ _ => not_found)) "12345" "12345" [[]] 0 []).
  apply store_ok_init. reflexivity.
Defined.
(** ** Paging through the liked tweets ([twitter_api_bot.py],
    [download_liked_tweets.py]) *)

(** The world after a request for [url] was sent. *)
Definition w_sent (url : string) (w : world) : world :=
  set_net (fun n => {| server := server n; sent := sent n ++ [url];
                       img_status := img_status n; today := today n |}) w.

(** The answer to the next request, if it is for [url]. *)
Definition answer (w : world) (url : string) : response :=
  server (w_net w) (length (sent (w_net w))) url.

Lemma connect_to_endpoint_fails url w :
  requests_count (w_twab w) < twab.max_requests ->
  status_code (answer w url) <> 200 ->
  twab.connect_to_endpoint url w = (Raise UnsuccessfulRequestError, w_sent url w).
Proof.
  intros Hb Hs. unfold twab.connect_to_endpoint, twab.requests_request, bind, gets, modify, ret.
  replace (twab.max_requests <=? requests_count (w_twab w)) with false
    by (symmetry; apply Z.leb_gt; lia).
  simpl. fold (answer w url).
  replace (status_code (answer w url) =? 200) with false
    by (symmetry; apply Z.eqb_neq; exact Hs).
  reflexivity.
Qed.

(** The URL of the request for the page after [page_token]. *)
Definition page_url (usr_id : string) (page_token : option string) : string :=
  twab.liked_tweets_url usr_id (Some "author_id,attachments.media_keys")
    (Some "created_at,entities") None (Some "url") page_token.

(** The token the generator asks for next, when it is to make a request. *)
Definition next_request (g : twab.generator) : option (option string) :=
  match g with
  | twab.GenStart page_token => Some page_token
  | twab.GenYield r =>
      match meta r with
      | Some (Some next_token) => Some (Some next_token)
      | _ => None
      end
  | twab.GenDone => None
  end.

(** X14. A request that fails ends the loop of [process_usr_for_liked]
    with [halt = 1] and the counts of the pages before it: when the
    generator is about to request a page, the budget is not used up and the
    answer has a status other than 200, the result is [(1, img_count,
    tweet_count)] with the counts as they stood; the request was sent and
    [requests_count] is as it was. *)
Theorem failing_request_halts (fuel : nat) (usr_id : string) (ignore_processed : bool)
    (g : twab.generator) (tok : option string) (halt img_count tweet_count : Z) (w : world) :
  next_request g = Some tok ->
  requests_count (w_twab w) < twab.max_requests ->
  status_code (answer w (page_url usr_id tok)) <> 200 ->
  dlt.liked_loop (S fuel) usr_id ignore_processed g halt img_count tweet_count w =
    (Ok (1, img_count, tweet_count), w_sent (page_url usr_id tok) w).
Proof.
  intros Hg Hb Hs. cbn [dlt.liked_loop]. unfold try_except.
  assert (Hnext : twab.next usr_id (Some "author_id,attachments.media_keys")
                    (Some "created_at,entities") None (Some "url") g w
                  = (Raise UnsuccessfulRequestError, w_sent (page_url usr_id tok) w)).
  { assert (Hround : twab.fetch_round usr_id (Some "author_id,attachments.media_keys")
                       (Some "created_at,entities") None (Some "url") tok w
                     = (Raise UnsuccessfulRequestError, w_sent (page_url usr_id tok) w)).
    { unfold twab.fetch_round. apply bind_raise.
      apply (connect_to_endpoint_fails (page_url usr_id tok) w Hb Hs). }
    destruct g as [pt|r|]; simpl in Hg.
    - injection Hg as ->. exact Hround.
    - unfold twab.next. destruct (meta r) as [[nt|]|]; try discriminate.
      injection Hg as <-. exact Hround.
    - discriminate. }
  rewrite (bind_raise _ _ _ _ _ Hnext). reflexivity.
Qed.

Lemma failing_request_halts_witness :
  dlt.liked_loop 1 "12345" false (twab.GenStart None) 0 3 4 (init_world (fun _ _ => not_found))
  = (Ok (1, 3, 4), w_sent (page_url "12345" None) (init_world (fun _ _ => not_found))).
Proof.
  apply (failing_request_halts 0 "12345" false (twab.GenStart None) None 0 3 4
           (init_world (fun _ _ => not_found))).
  - reflexivity.
  - reflexivity.
  - discriminate.
Defined.

(** X15. How the generator of liked tweets goes on and ends.  After a
    page whose ["meta"] has no ["next_token"] the loop of
    [process_usr_for_liked] returns its counts without another request and
    leaves the world as it is; after a page without ["meta"] it raises
    [KeyError]; and after a page with a ["next_token"], while the budget is
    not used up, the generator sends exactly one request, which carries
    that token as its [pagination_token], the last parameter of the URL. *)
Theorem generator_goes_on (fuel : nat) (usr_id : string) (ignore_processed : bool)
    (r : api_response) (halt img_count tweet_count : Z) (w : world) :
  match meta r with
  | Some None =>
      dlt.liked_loop (S fuel) usr_id ignore_processed (twab.GenYield r)
        halt img_count tweet_count w = (Ok (halt, img_count, tweet_count), w)
  | None =>
      dlt.liked_loop (S fuel) usr_id ignore_processed (twab.GenYield r)
        halt img_count tweet_count w = (Raise KeyError, w)
  | Some (Some next_token) =>
      requests_count (w_twab w) < twab.max_requests ->
      sent (w_net (snd (twab.next usr_id (Some "author_id,attachments.media_keys")
                          (Some "created_at,entities") None (Some "url")
                          (twab.GenYield r) w)))
      = sent (w_net w) ++ [page_url usr_id (Some next_token)] /\
      page_url usr_id (Some next_token) =
        "https://api.twitter.com/2/users/" +:+ (usr_id +:+ "/liked_tweets" +:+
          ("?" +:+ ("expansions=author_id,attachments.media_keys" +:+ "&" +:+
             ("tweet.fields=created_at,entities" +:+ "&" +:+
                ("media.fields=url" +:+ "&" +:+ ("pagination_token" +:+ "=" +:+ next_token))))))
  end.
Proof.
  destruct (meta r) as [[nt|]|] eqn:Em.
  - intros Hb. split; [|reflexivity].
    unfold twab.next. rewrite Em.
    unfold twab.fetch_round, twab.connect_to_endpoint, twab.requests_request,
      bind, gets, modify, ret.
    replace (twab.max_requests <=? requests_count (w_twab w)) with false
      by (symmetry; apply Z.leb_gt; lia).
    simpl. destruct (status_code _ =? 200); simpl; [|reflexivity].
    destruct (data _); reflexivity.
  - cbn [dlt.liked_loop]. unfold try_except, bind, twab.next. rewrite Em. reflexivity.
  - cbn [dlt.liked_loop]. unfold try_except, bind, twab.next. rewrite Em. reflexivity.
Qed.
(** ** Tweets with external URLs ([twitter_api_bot.py]) *)

(** The block [dump_external_urls_for_usr] writes for a list of URLs. *)
Definition urls_block (date : string) (urls : list string) : list ascii :=
  encode (date +:+ String LF "The following URLs have possible external URLs:") ++
  concat (map (fun u => LF :: encode u) urls) ++ [LF; LF].

(** X16. [dump_external_urls_for_usr] does nothing for a user with no
    registered URLs.  For a user with registered URLs it appends one block
    to the user's [external_urls.txt]: the date, a heading, the URLs one per
    line, and an empty line.  It does not forget the URLs: a second call
    appends the same block once more. *)
Theorem dump_external_urls_appends (id : string) (w : world) :
  let p := path_of_string ("./" +:+ id +:+ "/external_urls.txt") in
  match external_urls (w_twab w) !! Id id with
  | None | Some [] => twab.dump_external_urls_for_usr id w = (Ok tt, w)
  | Some urls =>
      fs_is_dir p (w_fs w) = false -> fs_is_dir (parent p) (w_fs w) = true ->
      let old := default [] (fs_files (w_fs w) !! p) in
      let block := urls_block (today (w_net w)) urls in
      let w1 := set_fs (fs_put p (old ++ block)) w in
      let w2 := set_fs (fs_put p ((old ++ block) ++ block)) w1 in
      twab.dump_external_urls_for_usr id w = (Ok tt, w1) /\
      twab.dump_external_urls_for_usr id w1 = (Ok tt, w2)
  end.
Proof.
  cbv zeta. set (p := path_of_string _).
  destruct (external_urls (w_twab w) !! Id id) as [[|u urls]|] eqn:E.
  - unfold twab.dump_external_urls_for_usr, bind, gets. rewrite E. reflexivity.
  - intros Hf Hp.
    assert (Hdump : forall w0 old,
              external_urls (w_twab w0) !! Id id = Some (u :: urls) ->
              today (w_net w0) = today (w_net w) ->
              fs_is_dir p (w_fs w0) = false -> fs_is_dir (parent p) (w_fs w0) = true ->
              default [] (fs_files (w_fs w0) !! p) = old ->
              twab.dump_external_urls_for_usr id w0 =
                (Ok tt, set_fs (fs_put p (old ++ urls_block (today (w_net w)) (u :: urls))) w0)).
    { intros w0 old E0 Ht Hf0 Hp0 Hold.
      unfold twab.dump_external_urls_for_usr. unfold bind at 1. unfold gets at 1.
      rewrite E0. unfold bind at 1. unfold gets at 1. fold p.
      rewrite (append_file_spec p _ w0 Hf0 Hp0), Hold, Ht. reflexivity. }
    split.
    + apply Hdump; auto.
    + apply Hdump; try assumption; try reflexivity.
      simpl. rewrite lookup_insert_eq. reflexivity.
  - unfold twab.dump_external_urls_for_usr, bind, gets. rewrite E. reflexivity.
Qed.
(** ** Processing pages ([download_liked_tweets.py]) *)

(** The fetch loop leaves the records alone. *)
Definition same_pd (g : pd_globals) (w : world) : Prop := w_pd w = g.

Lemma preserves_same_pd_modify g f :
  (forall w, w_pd (f w) = w_pd w) -> preserves (same_pd g) (modify f).
Proof. intros Hf. apply preserves_modify. intros w H. unfold same_pd in *. rewrite Hf. exact H. Qed.

Ltac same_pd :=
  repeat first
    [ pres_step
    | apply preserves_same_pd_modify; intros; reflexivity ].

Lemma next_same_pd g u a b c d gen : preserves (same_pd g) (twab.next u a b c d gen).
Proof.
  unfold twab.next, twab.fetch_round, twab.connect_to_endpoint, twab.requests_request.
  same_pd.
Qed.

Lemma media_loop_same_pd g keys m2u n : preserves (same_pd g) (dlt.media_loop keys m2u n).
Proof.
  revert n. induction keys as [|k keys IH]; intros n; simpl.
  - same_pd.
  - unfold dlt.download_img. same_pd; apply IH.
Qed.

Lemma take_tweet_same_pd g u a b t : preserves (same_pd g) (take_tweet u a b t).
Proof.
  unfold take_tweet. apply preserves_bind.
  { unfold dlt.process_tweet_for_media. same_pd. apply media_loop_same_pd. }
  intros imgs. apply preserves_bind; [same_pd|]. intros _.
  apply preserves_bind; [|intros; same_pd].
  destruct (entities_urls t); [|same_pd].
  unfold twab.reg_external_url.
  destruct (negb (twab.check_for_external_urls t)); [intros w H; exact H|].
  destruct (dict_get (author_id t) a); intros w H; exact H.
Qed.

Lemma tweets_loop_same_pd g u a b ig ts : forall i n,
  preserves (same_pd g) (dlt.tweets_loop u a b ig ts i n).
Proof.
  induction ts as [|t ts IH]; intros i n w H.
  - exact H.
  - rewrite tweets_loop_cons. destruct (has_media t); [|apply IH, H].
    destruct (negb ig && _); [exact H|].
    pose proof (take_tweet_same_pd g u a b t w H) as Ht.
    destruct (take_tweet u a b t w) as [[imgs|e] w']; simpl in Ht; [apply IH, Ht | exact Ht].
Qed.

Lemma liked_loop_same_pd g fuel u ig : forall gen h i n,
  preserves (same_pd g) (dlt.liked_loop fuel u ig gen h i n).
Proof.
  induction fuel as [|fuel IH]; intros gen h i n; simpl.
  - same_pd.
  - unfold dlt.process_response_for_imgs.
    same_pd; try first [apply next_same_pd | apply tweets_loop_same_pd | apply IH].
Qed.

(** X17. The whole loop of [process_usr_for_liked] never changes a
    record or the list of modified IDs, whatever the pages hold and however
    the loop ends: [reg_external_url] returns nothing, so the count
    [liked_tweets.with_external_urls] is never raised. *)
Theorem fetch_loop_keeps_records (usr_id : string) (page_token : option string)
    (ignore_processed : bool) (w : world) :
  w_pd (snd (dlt.process_usr_for_liked usr_id page_token ignore_processed w)) = w_pd w.
Proof.
  assert (H : preserves (same_pd (w_pd w))
                (dlt.process_usr_for_liked usr_id page_token ignore_processed)).
  { unfold dlt.process_usr_for_liked. same_pd. apply liked_loop_same_pd. }
  apply (H w). reflexivity.
Qed.
(** The world after a request for [url] got a 200. *)
Definition w_counted (url : string) (w : world) : world :=
  set_twab (fun g => {| requests_count := requests_count g + 1;
                        external_urls := external_urls g |}) (w_sent url w).

Lemma connect_to_endpoint_ok url w :
  requests_count (w_twab w) < twab.max_requests ->
  status_code (answer w url) = 200 ->
  twab.connect_to_endpoint url w = (Ok (response_json (answer w url)), w_counted url w).
Proof.
  intros Hb Hs. unfold twab.connect_to_endpoint, twab.requests_request, bind, gets, modify, ret.
  replace (twab.max_requests <=? requests_count (w_twab w)) with false
    by (symmetry; apply Z.leb_gt; lia).
  simpl. fold (answer w url). rewrite Hs. reflexivity.
Qed.

(** X18. A page with tweets but without the media list of its
    ["includes"] makes [process_usr_for_liked] raise [KeyError]: the guard
    of [gen_media2url] joins its tests with [and], so the list is looked up
    although it is missing, and the loop catches no [KeyError]. *)
Theorem page_without_media_raises (usr_id : string) (page_token : option string)
    (ignore_processed : bool) (w : world) (tweets : list item) :
  let page := response_json (answer w (page_url usr_id page_token)) in
  requests_count (w_twab w) < twab.max_requests ->
  status_code (answer w (page_url usr_id page_token)) = 200 ->
  data page = Some tweets ->
  match includes page with Some inc => media_list inc = None | None => True end ->
  dlt.process_usr_for_liked usr_id page_token ignore_processed w =
    (Raise KeyError, w_counted (page_url usr_id page_token) w).
Proof.
  cbv zeta. intros Hb Hs Hd Hi.
  unfold dlt.process_usr_for_liked, bind at 1, gets at 1.
  cbn [dlt.liked_loop]. unfold try_except.
  assert (Hnext : twab.next usr_id (Some "author_id,attachments.media_keys")
                    (Some "created_at,entities") None (Some "url")
                    (twab.GenStart page_token) w
                  = (Ok (Some (response_json (answer w (page_url usr_id page_token))),
                         twab.GenYield (response_json (answer w (page_url usr_id page_token)))),
                     w_counted (page_url usr_id page_token) w)).
  { unfold twab.next, twab.fetch_round.
    rewrite (bind_ok _ _ _ _ _ (connect_to_endpoint_ok (page_url usr_id page_token) w Hb Hs)).
    rewrite Hd. reflexivity. }
  rewrite (bind_ok _ _ _ _ _ Hnext).
  assert (Hproc : dlt.process_response_for_imgs usr_id
                    (response_json (answer w (page_url usr_id page_token))) ignore_processed
                    (w_counted (page_url usr_id page_token) w)
                  = (Raise KeyError, w_counted (page_url usr_id page_token) w)).
  { unfold dlt.process_response_for_imgs. rewrite Hd. apply bind_raise.
    unfold lift, dlt.gen_media2url.
    destruct (includes _) as [inc|]; [rewrite Hi|]; reflexivity. }
  rewrite (bind_raise _ _ _ _ _ Hproc). reflexivity.
Qed.

(** A server that answers every request with one tweet and no
    ["includes"]. *)
Definition bare_server : nat -> string -> response := fun _ _ =>
  {| status_code := 200;
     response_json :=
       {| data := Some [{| item_id := "7"; author_id := "1"; created_at := "2022-06-01";
                           attachments_media_keys := None; entities_urls := None |}];
          meta := Some None; includes := None |} |}.

Lemma page_without_media_raises_witness :
  fst (dlt.process_usr_for_liked "12345" None false (init_world bare_server)) = Raise KeyError.
Proof.
  rewrite (page_without_media_raises "12345" None false (init_world bare_server)
             [{| item_id := "7"; author_id := "1"; created_at := "2022-06-01";
                 attachments_media_keys := None; entities_urls := None |}]);
    [reflexivity | reflexivity | reflexivity | reflexivity | exact I].
Defined.
(** With [ignore_processed] nothing halts the loop over a page. *)
Lemma tweets_loop_ignore usr_id id2usr m2u ts : forall i n w h i' n' w',
  dlt.tweets_loop usr_id id2usr m2u true ts i n w = (Ok (h, i', n'), w') ->
  h = 0 /\
  n' = n + Z.of_nat (length (filter (fun t => has_media t = true) ts)) /\
  processed_tweets (w_dlt w') = processed_tweets (w_dlt w) /\
  new_processed_tweets (w_dlt w') =
    new_processed_tweets (w_dlt w) ++ map item_id (filter (fun t => has_media t = true) ts).
Proof.
  induction ts as [|t ts IH]; intros i n w h i' n' w' H.
  - simpl in H. unfold ret in H. injection H as <- <- <- <-.
    simpl. rewrite app_nil_r, Z.add_0_r. auto.
  - rewrite tweets_loop_cons in H. rewrite filter_cons.
    destruct (has_media t) eqn:Em.
    + rewrite decide_True by reflexivity. simpl negb in H. simpl andb in H. cbv iota in H.
      destruct (take_tweet usr_id id2usr m2u t w) as [[imgs|e] w1] eqn:Et; [|discriminate].
      destruct (take_tweet_dlt _ _ _ _ _ _ _ Et) as (_ & Hp & Hn).
      destruct (IH _ _ _ _ _ _ _ H) as (-> & -> & Hp' & Hn').
      split; [reflexivity|]. split; [simpl length; lia|].
      split; [congruence|]. rewrite Hn', Hn, <- app_assoc. reflexivity.
    + rewrite decide_False by discriminate. apply (IH _ _ _ _ _ _ _ H).
Qed.

(** X19. With [ignore_processed] set, a page is processed to its end
    whatever is known already: when [process_response_for_imgs] returns for
    a page with tweets, its halt code is 0, its tweet count is the number of
    tweets of the page that carry media, and the IDs of exactly these
    tweets, in the order of the page, have been added to
    [new_processed_tweets]. *)
Theorem ignore_processed_never_halts (usr_id : string) (page : api_response)
    (tweets : list item) (w w' : world) (halt imgs : Z) (count : option Z) :
  data page = Some tweets ->
  dlt.process_response_for_imgs usr_id page true w = (Ok (halt, imgs, count), w') ->
  let with_media := filter (fun t => has_media t = true) tweets in
  halt = 0 /\
  count = Some (Z.of_nat (length with_media)) /\
  new_processed_tweets (w_dlt w') = new_processed_tweets (w_dlt w) ++ map item_id with_media.
Proof.
  intros Hd H. cbv zeta. unfold dlt.process_response_for_imgs in H. rewrite Hd in H.
  unfold bind at 1 in H. unfold lift at 1 in H.
  destruct (dlt.gen_media2url page) as [m2u|e]; [|discriminate].
  unfold bind at 1 in H.
  destruct (dlt.tweets_loop usr_id (dlt.gen_id2usr page) m2u true tweets 0 0 w)
    as [[[[h i] n]|e] w1] eqn:Et; [|discriminate].
  unfold ret in H. injection H as <- <- <- <-.
  destruct (tweets_loop_ignore _ _ _ _ _ _ _ _ _ _ _ Et) as (-> & -> & _ & Hn).
  split; [reflexivity|]. split; [reflexivity | exact Hn].
Qed.

(** A page of two tweets with a photo each, by one author. *)
Definition photo_page : api_response :=
  {| data := Some [{| item_id := "7"; author_id := "1"; created_at := "2022-06-01";
                      attachments_media_keys := Some ["m7"]; entities_urls := None |};
                   {| item_id := "5"; author_id := "1"; created_at := "2022-05-01";
                      attachments_media_keys := Some ["m5"]; entities_urls := None |}];
     meta := Some None;
     includes := Some {| users := Some [("1", "alice")];
                         media_list := Some [{| media_key := "m7"; media_type := "photo";
                                                media_url := "https://x/7.jpg" |};
                                             {| media_key := "m5"; media_type := "photo";
                                                media_url := "https://x/5.jpg" |}] |} |}.

(** A world in which tweet ["5"] is known already. *)
Definition knows_5 : world :=
  set_dlt (fun g => {| is_verbose := is_verbose g; processed_tweets := ["5"];
                       new_processed_tweets := new_processed_tweets g |})
    (init_world (fun _ _ => not_found)).

Lemma ignore_processed_never_halts_witness :
  let r := dlt.process_response_for_imgs "12345" photo_page true knows_5 in
  fst r = Ok (0, 2, Some 2) /\ new_processed_tweets (w_dlt (snd r)) = ["7"; "5"].
Proof.
  split; [vm_compute; reflexivity|].
  destruct (ignore_processed_never_halts "12345" photo_page
              (default [] (data photo_page)) knows_5
              (snd (dlt.process_response_for_imgs "12345" photo_page true knows_5))
              0 2 (Some 2)) as (_ & _ & H).
  - reflexivity.
  - vm_compute. reflexivity.
  - exact H.
Defined.



(** ** The photos of a page ([download_liked_tweets.py]) *)

Lemma dict_get_fold_set {A} (key : A -> string) (val : A -> string) (l : list A) :
  forall d k,
    dict_get k (fold_left (fun d m => dict_set (key m) (val m) d) l d) =
    match find (fun m => String.eqb k (key m)) (rev l) with
    | Some m => Some (val m)
    | None => dict_get k d
    end.
Proof.
  induction l as [|x l IH] using rev_ind; intros d k; [reflexivity|].
  rewrite fold_left_app, rev_app_distr. simpl.
  destruct (String.eqb k (key x)) eqn:E.
  - apply String.eqb_eq in E. subst k. apply dict_get_set_eq.
  - apply String.eqb_neq in E. rewrite dict_get_set_ne by exact E. apply IH.
Qed.

(** X21. [gen_media2url] maps photos only, and the last entry for a key
    wins: a media key is mapped to the URL of the last media object of the
    page that has this key and the type ["photo"], and a key that no photo
    has is not mapped at all, so videos and GIFs are never downloaded. *)
Theorem gen_media2url_photos (page : api_response) (inc : includes_t) (ms : list media)
    (key : string) :
  includes page = Some inc -> media_list inc = Some ms ->
  exists media2url,
    dlt.gen_media2url page = Ok media2url /\
    dict_get key media2url =
      match find (fun m => String.eqb key (media_key m))
                 (rev (filter (fun m => media_type m = "photo") ms)) with
      | Some m => Some (media_url m)
      | None => None
      end /\
    (forall url, dict_get key media2url = Some url ->
       exists m, m ∈ ms /\ media_key m = key /\ media_type m = "photo" /\ media_url m = url).
Proof.
  intros Hi Hm. unfold dlt.gen_media2url. rewrite Hi, Hm.
  eexists. split; [reflexivity|].
  rewrite (dict_get_fold_set media_key media_url). split; [reflexivity|].
  intros url H.
  destruct (find _ _) as [m|] eqn:Ef; [|discriminate].
  injection H as <-. apply find_some in Ef as [Hin Hk].
  apply in_rev in Hin. apply list_elem_of_In in Hin. apply list_elem_of_filter in Hin as [Ht Hin].
  apply String.eqb_eq in Hk. exists m. auto.
Qed.

Lemma gen_media2url_photos_witness :
  exists media2url,
    dlt.gen_media2url photo_page = Ok media2url /\
    dict_get "m7" media2url = Some "https://x/7.jpg".
Proof.
  destruct (gen_media2url_photos photo_page
              {| users := Some [("1", "alice")];
                 media_list := Some [{| media_key := "m7"; media_type := "photo";
                                        media_url := "https://x/7.jpg" |};
                                     {| media_key := "m5"; media_type := "photo";
                                        media_url := "https://x/5.jpg" |}] |}
              [{| media_key := "m7"; media_type := "photo"; media_url := "https://x/7.jpg" |};
               {| media_key := "m5"; media_type := "photo"; media_url := "https://x/5.jpg" |}]
              "m7" eq_refl eq_refl) as (m2u & H1 & H2 & _).
  exists m2u. split; [exact H1 | exact H2].
Defined.
(** ** A user the server does not know ([download_liked_tweets.py]) *)

(** X22. [main] takes the first ID of the answer to the user lookup
    without looking at the answer: when the lookup is answered with status
    200 but names no user, [main] raises, [KeyError] when the answer has no
    ["data"] and [IndexError] when its ["data"] is an empty list.  The one
    request was counted, and neither a file nor a record was touched. *)
Theorem main_unknown_user (username : string) (folder page_token : option string)
    (ignore_processed verbose : bool) (w : world) :
  let r := answer w (twab.user_id_url [username]) in
  let out := dlt.main username folder page_token ignore_processed verbose w in
  requests_count (w_twab w) < twab.max_requests ->
  status_code r = 200 ->
  default [] (data (response_json r)) = [] ->
  fst out = Raise (match data (response_json r) with
                   | None => KeyError
                   | Some _ => IndexError
                   end) /\
  w_fs (snd out) = w_fs w /\ w_pd (snd out) = w_pd w /\
  sent (w_net (snd out)) = sent (w_net w) ++ [twab.user_id_url [username]] /\
  requests_count (w_twab (snd out)) = requests_count (w_twab w) + 1.
Proof.
  cbv zeta. intros Hb Hs Hd.
  set (w0 := set_dlt (fun g => {| is_verbose := verbose;
                                  processed_tweets := processed_tweets g;
                                  new_processed_tweets := new_processed_tweets g |}) w).
  set (url := twab.user_id_url [username]) in *.
  assert (Hmain : dlt.main username folder page_token ignore_processed verbose w =
                  (Raise (match data (response_json (answer w url)) with
                          | None => KeyError
                          | Some _ => IndexError
                          end), w_counted url w0)).
  { unfold dlt.main. erewrite bind_ok by reflexivity. fold w0.
    unfold twab.fetch_user_ids. fold url.
    change (futils.nonempty_str url) with true. cbn [negb].
    assert (Hc : twab.connect_to_endpoint url w0 =
                 (Ok (response_json (answer w url)), w_counted url w0))
      by (apply (connect_to_endpoint_ok url w0); [exact Hb | exact Hs]).
    destruct (data (response_json (answer w url))) as [us|] eqn:Ed.
    - simpl in Hd. subst us.
      erewrite bind_ok
        by (erewrite bind_ok by exact Hc; rewrite Ed; reflexivity).
      apply bind_raise. reflexivity.
    - apply bind_raise. erewrite bind_ok by exact Hc. rewrite Ed. reflexivity. }
  rewrite Hmain. simpl. auto.
Qed.

(** A server that answers every request with status 200 and no data. *)
Definition nobody : nat -> string -> response :=
  fun _ _ => {| status_code := 200;
                response_json := {| data := None; includes := None; meta := None |} |}.

Lemma main_unknown_user_witness :
  let out := dlt.main "ghost" None None false false (init_world nobody) in
  fst out = Raise KeyError /\
  requests_count (w_twab (snd out)) = 1.
Proof.
  cbv zeta.
  destruct (main_unknown_user "ghost" None None false false (init_world nobody))
    as (H1 & _ & _ & _ & H2); [reflexivity | reflexivity | reflexivity |].
  split; [exact H1 | exact H2].
Defined.
(** ** The name of an image file ([download_liked_tweets.py]) *)

(** [s.rfind(c)] for a one-character [c]: the highest index of [c] in
    [s], or -1. *)
Fixpoint rfind_from (c : ascii) (l : bytes) (i found : Z) : Z :=
  match l with
  | [] => found
  | x :: l' => rfind_from c l' (i + 1) (if Ascii.eqb x c then i else found)
  end.

Definition rfind (c : ascii) (s : string) : Z := rfind_from c (encode s) 0 (-1).

(** [s[a:b]]: a negative bound counts from the end, and both are clamped
    to the string; [None] is a bound left out. *)
Definition py_slice (s : string) (a b : option Z) : string :=
  let len := Z.of_nat (String.length s) in
  let clamp i := if i <? 0 then Z.max 0 (i + len) else Z.min i len in
  let a := match a with Some a => clamp a | None => 0 end in
  let b := match b with Some b => clamp b | None => len end in
  decode (take (Z.to_nat (b - a)) (drop (Z.to_nat a) (encode s))).

(** [s.replace(c, "")] for a one-character [c]. *)
Definition remove_char (c : ascii) (s : string) : string :=
  decode (List.filter (fun x => negb (Ascii.eqb x c)) (encode s)).

(** [gen_img_filename] *)
Definition gen_img_filename (twt_author url : string) (extra : option string) : string :=
  let last_slash := rfind "/" url in
  let last_dot := Z.min (Z.of_nat (String.length url)) (rfind "." url) in
  let img_id :=
    remove_char "_" (remove_char "-" (py_slice url (Some (last_slash + 1)) (Some last_dot))) in
  let img_ext := py_slice url (Some (last_dot + 1)) None in
  let fname := "(" +:+ twt_author +:+ ")[twitter]" +:+ img_id in
  let fname := if futils.nonempty_str (default "" extra)
               then fname +:+ "_" +:+ default "" extra else fname in
  fname +:+ "." +:+ img_ext.

Lemma encode_app (a b : string) : encode (a +:+ b) = encode a ++ encode b.
Proof. induction a as [|c a IH]; simpl; [reflexivity|]. f_equal. exact IH. Qed.

Lemma rfind_from_app c l1 : forall l2 i found,
  rfind_from c (l1 ++ l2) i found =
  rfind_from c l2 (i + Z.of_nat (length l1)) (rfind_from c l1 i found).
Proof.
  induction l1 as [|x l1 IH]; intros l2 i found; cbn [app rfind_from length].
  - rewrite Z.add_0_r. reflexivity.
  - rewrite IH. f_equal. lia.
Qed.

Lemma rfind_from_absent c l : forall i found,
  c ∉ l -> rfind_from c l i found = found.
Proof.
  induction l as [|x l IH]; intros i found H; [reflexivity|].
  simpl. apply not_elem_of_cons in H as [Hx Hl].
  destruct (Ascii.eqb x c) eqn:E; [apply Ascii.eqb_eq in E; congruence|].
  apply IH. exact Hl.
Qed.

Lemma rfind_from_bounds c l : forall i found,
  found < i -> found <= rfind_from c l i found < i + Z.of_nat (length l).
Proof.
  induction l as [|x l IH]; intros i found H; cbn [rfind_from length].
  - lia.
  - destruct (Ascii.eqb x c).
    + specialize (IH (i + 1) i). lia.
    + specialize (IH (i + 1) found). lia.
Qed.

(** The last occurrence: [c] followed by a text without [c]. *)
Lemma rfind_last c (pre post : bytes) :
  c ∉ post ->
  rfind_from c (pre ++ c :: post) 0 (-1) = Z.of_nat (length pre).
Proof.
  intros H. rewrite rfind_from_app. simpl rfind_from. rewrite Ascii.eqb_refl.
  apply rfind_from_absent. exact H.
Qed.

Lemma py_slice_mid (pre mid post : bytes) :
  py_slice (decode (pre ++ mid ++ post)) (Some (Z.of_nat (length pre)))
    (Some (Z.of_nat (length pre + length mid))) = decode mid.
Proof.
  unfold py_slice. cbv zeta. rewrite <- length_encode, encode_decode, !length_app.
  replace (Z.of_nat (length pre) <? 0) with false by (symmetry; apply Z.ltb_ge; lia).
  replace (Z.of_nat (length pre + length mid) <? 0) with false
    by (symmetry; apply Z.ltb_ge; lia).
  rewrite !Z.min_l by lia.
  replace (Z.to_nat (Z.of_nat (length pre + length mid) - Z.of_nat (length pre)))
    with (length mid) by lia.
  rewrite Nat2Z.id, drop_app_length, take_app_length. reflexivity.
Qed.

Lemma py_slice_tail (pre post : bytes) :
  py_slice (decode (pre ++ post)) (Some (Z.of_nat (length pre))) None = decode post.
Proof.
  unfold py_slice. cbv zeta. rewrite <- length_encode, encode_decode, !length_app.
  replace (Z.of_nat (length pre) <? 0) with false by (symmetry; apply Z.ltb_ge; lia).
  rewrite Z.min_l by lia. rewrite Nat2Z.id, drop_app_length.
  rewrite take_ge by lia. reflexivity.
Qed.

Lemma py_slice_empty (s : string) (a b : Z) :
  0 <= b <= a -> py_slice s (Some a) (Some b) = "".
Proof.
  intros H. unfold py_slice. cbv zeta.
  replace (a <? 0) with false by (symmetry; apply Z.ltb_ge; lia).
  replace (b <? 0) with false by (symmetry; apply Z.ltb_ge; lia).
  replace (Z.to_nat _) with 0%nat by lia. reflexivity.
Qed.

Lemma rfind_from_present c l : forall i found,
  found < i -> c ∈ l -> i <= rfind_from c l i found.
Proof.
  induction l as [|x l IH]; intros i found Hf H; [inversion H|].
  cbn [rfind_from]. destruct (Ascii.eqb x c) eqn:E.
  - pose proof (rfind_from_bounds c l (i + 1) i). lia.
  - apply elem_of_cons in H as [->|H]; [rewrite Ascii.eqb_refl in E; discriminate|].
    specialize (IH (i + 1) found ltac:(lia) H). lia.
Qed.

(** X23. For a URL that ends in [/name.ext], [gen_img_filename] gives
    [(author)[twitter]] followed by the name without its hyphens and
    underscores, by an underscore and the extra text when there is one, and
    by [.ext]; the part of the URL before the last slash plays no role. *)
Theorem gen_img_filename_parts (twt_author dir name ext : string) (extra : option string) :
  "/"%char ∉ encode name -> "/"%char ∉ encode ext -> "."%char ∉ encode ext ->
  gen_img_filename twt_author (dir +:+ "/" +:+ name +:+ "." +:+ ext) extra =
    (let fname := "(" +:+ twt_author +:+ ")[twitter]" +:+
                  remove_char "_" (remove_char "-" name) in
     match extra with
     | Some (String c e) => fname +:+ "_" +:+ String c e
     | _ => fname
     end) +:+ "." +:+ ext.
Proof.
  intros Hn He Hd.
  set (D := encode dir). set (N := encode name). set (E := encode ext).
  assert (Hurl : dir +:+ "/" +:+ name +:+ "." +:+ ext
                 = decode (D ++ "/"%char :: N ++ "."%char :: E)).
  { rewrite <- (decode_encode (dir +:+ _)). rewrite !encode_app. reflexivity. }
  assert (Hs : rfind "/" (dir +:+ "/" +:+ name +:+ "." +:+ ext) = Z.of_nat (length D)).
  { unfold rfind. rewrite Hurl, encode_decode. apply rfind_last.
    intros H. apply elem_of_app in H as [H|H]; [exact (Hn H)|].
    apply elem_of_cons in H as [H|H]; [discriminate | exact (He H)]. }
  assert (Hdot : rfind "." (dir +:+ "/" +:+ name +:+ "." +:+ ext)
                 = Z.of_nat (length (D ++ ["/"%char]) + length N)).
  { unfold rfind. rewrite Hurl, encode_decode.
    change (D ++ "/"%char :: N ++ "."%char :: E) with (D ++ ("/"%char :: N) ++ "."%char :: E).
    rewrite app_assoc, (rfind_last "." _ E Hd), !length_app. simpl length. f_equal. lia. }
  unfold gen_img_filename. cbv zeta. rewrite Hs, Hdot.
  assert (Hlen : String.length (dir +:+ "/" +:+ name +:+ "." +:+ ext)
                 = (length (D ++ ["/"%char]) + length N + S (length E))%nat).
  { rewrite Hurl, <- length_encode, encode_decode, !length_app. simpl length.
    rewrite length_app. simpl length. lia. }
  rewrite Hlen, Z.min_r by lia.
  assert (Hid : py_slice (dir +:+ "/" +:+ name +:+ "." +:+ ext)
                  (Some (Z.of_nat (length D) + 1))
                  (Some (Z.of_nat (length (D ++ ["/"%char]) + length N))) = name).
  { rewrite Hurl.
    replace (Z.of_nat (length D) + 1) with (Z.of_nat (length (D ++ ["/"%char])))
      by (rewrite length_app; simpl length; lia).
    change (D ++ "/"%char :: N ++ "."%char :: E)
      with (D ++ ["/"%char] ++ N ++ "."%char :: E).
    rewrite app_assoc, py_slice_mid. apply decode_encode. }
  assert (Hext : py_slice (dir +:+ "/" +:+ name +:+ "." +:+ ext)
                   (Some (Z.of_nat (length (D ++ ["/"%char]) + length N) + 1)) None = ext).
  { rewrite Hurl.
    replace (Z.of_nat (length (D ++ ["/"%char]) + length N) + 1)
      with (Z.of_nat (length (D ++ "/"%char :: N ++ ["."%char])))
      by (rewrite !length_app; simpl length; rewrite length_app; simpl length; lia).
    replace (D ++ "/"%char :: N ++ "."%char :: E)
      with ((D ++ "/"%char :: N ++ ["."%char]) ++ E)
      by (rewrite <- !app_assoc; simpl; rewrite <- app_assoc; reflexivity).
    rewrite py_slice_tail. apply decode_encode. }
  rewrite Hid, Hext.
  destruct extra as [[|c e]|]; reflexivity.
Qed.

Lemma gen_img_filename_parts_witness :
  gen_img_filename "alice" "https://pbs.twimg.com/media/Ab-c_d.jpg" (Some "20220131")
    = "(alice)[twitter]Abcd_20220131.jpg".
Proof.
  apply (gen_img_filename_parts "alice" "https://pbs.twimg.com/media" "Ab-c_d" "jpg"
           (Some "20220131")); compute_done.
Defined.

(** X24. A URL without an extension after its last slash gives a file
    name without an image ID and with a slash in it: when the last dot of
    the URL comes before a slash, the ID is empty and all that follows the
    dot, slashes included, is taken for the extension. *)
Theorem gen_img_filename_no_extension (twt_author pre post : string) (extra : option string) :
  "."%char ∉ encode post -> "/"%char ∈ encode post ->
  gen_img_filename twt_author (pre +:+ "." +:+ post) extra =
    (match extra with
     | Some (String c e) => "(" +:+ twt_author +:+ ")[twitter]" +:+ "_" +:+ String c e
     | _ => "(" +:+ twt_author +:+ ")[twitter]"
     end) +:+ "." +:+ post /\
  "/"%char ∈ encode (gen_img_filename twt_author (pre +:+ "." +:+ post) extra).
Proof.
  intros Hd Hs.
  set (P := encode pre). set (Q := encode post).
  assert (Hurl : pre +:+ "." +:+ post = decode (P ++ "."%char :: Q)).
  { rewrite <- (decode_encode (pre +:+ _)). rewrite !encode_app. reflexivity. }
  assert (Hdot : rfind "." (pre +:+ "." +:+ post) = Z.of_nat (length P)).
  { unfold rfind. rewrite Hurl, encode_decode. apply rfind_last. exact Hd. }
  assert (Hsl : Z.of_nat (length P) + 1 <= rfind "/" (pre +:+ "." +:+ post)).
  { unfold rfind. rewrite Hurl, encode_decode.
    change (P ++ "."%char :: Q) with (P ++ ["."%char] ++ Q).
    rewrite app_assoc, rfind_from_app, length_app. simpl length.
    etransitivity; [|apply rfind_from_present; [|exact Hs]].
    - lia.
    - pose proof (rfind_from_bounds "/" (P ++ ["."%char]) 0 (-1)).
      rewrite length_app in H. simpl length in H. lia. }
  assert (Heq : gen_img_filename twt_author (pre +:+ "." +:+ post) extra =
    (match extra with
     | Some (String c e) => "(" +:+ twt_author +:+ ")[twitter]" +:+ "_" +:+ String c e
     | _ => "(" +:+ twt_author +:+ ")[twitter]"
     end) +:+ "." +:+ post).
  { unfold gen_img_filename. cbv zeta. rewrite Hdot.
    assert (Hlen : String.length (pre +:+ "." +:+ post) = (length P + S (length Q))%nat).
    { rewrite Hurl, <- length_encode, encode_decode, !length_app. reflexivity. }
    rewrite Hlen, Z.min_r by lia.
    rewrite py_slice_empty by lia.
    assert (Hext : py_slice (pre +:+ "." +:+ post) (Some (Z.of_nat (length P) + 1)) None
                   = post).
    { rewrite Hurl.
      replace (Z.of_nat (length P) + 1) with (Z.of_nat (length (P ++ ["."%char])))
        by (rewrite length_app; simpl length; lia).
      change (P ++ "."%char :: Q) with (P ++ ["."%char] ++ Q).
      rewrite app_assoc, py_slice_tail. apply decode_encode. }
    rewrite Hext.
    change (remove_char "_" (remove_char "-" "")) with "".
    assert (Hr : forall s : string, s +:+ "" = s)
      by (induction s as [|c s IH];
          [reflexivity | change (String c (s +:+ "") = String c s); rewrite IH; reflexivity]).
    assert (Ha : forall a b c : string, (a +:+ b) +:+ c = a +:+ b +:+ c)
      by (induction a as [|x a IH]; intros b c;
          [reflexivity
          | change (String x ((a +:+ b) +:+ c) = String x (a +:+ b +:+ c)); rewrite IH;
            reflexivity]).
    destruct extra as [[|c e]|]; simpl; rewrite ?Hr, ?Ha; simpl; rewrite ?Hr; reflexivity. }
  split; [exact Heq|].
  rewrite Heq, !encode_app. apply elem_of_app. right. apply elem_of_app. right. exact Hs.
Qed.

Lemma gen_img_filename_no_extension_witness :
  gen_img_filename "alice" "https://pbs.twimg.com/media/Abcd" (Some "20220131")
    = "(alice)[twitter]_20220131.com/media/Abcd".
Proof.
  apply (gen_img_filename_no_extension "alice" "https://pbs.twimg" "com/media/Abcd"
           (Some "20220131")); compute_done.
Defined.
